(** * xmm7360-pci, [rpc/rpc.py]: the RPC wire codec and the transaction dispatcher

    A shallow embedding of [rpc.py] and the properties its specification
    states about it.

    - Python integers are [Z]; [bytes] and [bytearray] objects are lists of
      [Z] whose elements lie in [0, 256).
    - A Python exception is a value of [pyerr]; a function that may raise
      returns a [result].
    - [struct] is modelled for the unsigned integer codes the module uses,
      with the native layout of CPython on the little-endian LP64 Linux
      hosts the driver runs on: [B] 1 byte, [H] 2, [I] 4, [L] and [Q] 8.
    - A [threading.Event] is a boolean; a [wait] on it is a step that is
      enabled once the event is set.
    - [assert] statements are enabled (the default interpreter mode). *)

From Stdlib Require Import ZArith Lia Ascii String List Bool.
From stdpp Require Import base option list gmap relations.
Import ListNotations.

Local Open Scope string_scope.
Local Open Scope char_scope.
Local Open Scope list_scope.
Local Open Scope Z_scope.

(** ** Exceptions *)

Inductive pyerr : Set :=
| AssertionError
| IndexError
| ValueError
| KeyError
| TypeError
| StructError       (* struct.error *)
| StopIteration.

(** [OutOfFuel] is not a Python outcome: it is what a fuelled loop of the
    model answers when its fuel is spent.  [pack_terminates] and
    [valid_field_terminates] show the entry points never produce it. *)
Inductive result (A : Type) : Type :=
| Ok (a : A)
| Raise (e : pyerr)
| OutOfFuel.

Arguments Ok {A} a.
Arguments Raise {A} e.
Arguments OutOfFuel {A}.

Definition bind {A B} (r : result A) (k : A -> result B) : result B :=
  match r with
  | Ok a => k a
  | Raise e => Raise e
  | OutOfFuel => OutOfFuel
  end.

Notation "'let*' p := e 'in' k" := (bind e (fun p => k))
  (at level 10, p pattern, e at level 100, k at level 200).

Definition py_assert (b : bool) : result unit :=
  if b then Ok tt else Raise AssertionError.

(** ** Bytes *)

Abbreviation bytes := (list Z).

Definition len {A} (l : list A) : Z := Z.of_nat (length l).

(** [l[a:b]] and [l[a:]] for non-negative constant bounds. *)
Definition slice {A} (a b : nat) (l : list A) : list A := firstn (b - a) (skipn a l).

(** [data.pop(0)] on a bytearray. *)
Definition pop0 (data : bytes) : result (Z * bytes) :=
  match data with
  | [] => Raise IndexError
  | b :: rest => Ok (b, rest)
  end.

Fixpoint startswith (prefix l : bytes) : bool :=
  match prefix, l with
  | [], _ => true
  | p :: ps, x :: xs => (p =? x) && startswith ps xs
  | _ :: _, [] => false
  end.

(** ** The [struct] module *)
Module struct.

(** The [n] low bytes of [v], least significant first. *)
Fixpoint le_bytes (n : nat) (v : Z) : bytes :=
  match n with
  | O => []
  | S k => Z.land v 0xff :: le_bytes k (Z.shiftr v 8)
  end.

Definition be_bytes (n : nat) (v : Z) : bytes := rev (le_bytes n v).

Fixpoint le_value (b : bytes) : Z :=
  match b with
  | [] => 0
  | x :: r => x + 256 * le_value r
  end.

Definition be_value (b : bytes) : Z := le_value (rev b).

Definition in_range (n : nat) (v : Z) : bool :=
  (0 <=? v) && (v <? 2 ^ (8 * Z.of_nat n)).

(** [struct.pack] of one unsigned integer of [n] bytes. *)
Definition pack_uint (big_endian : bool) (n : nat) (v : Z) : result bytes :=
  if in_range n v
  then Ok (if big_endian then be_bytes n v else le_bytes n v)
  else Raise StructError.

(** [struct.pack('B', v)], [struct.pack('>H', v)], [struct.pack('>L', v)],
    [struct.pack('<L', v)]. *)
Definition pack_B : Z -> result bytes := pack_uint true 1.
Definition pack_be_H : Z -> result bytes := pack_uint true 2.
Definition pack_be_L : Z -> result bytes := pack_uint true 4.
Definition pack_le_L : Z -> result bytes := pack_uint false 4.

(** [struct.unpack('<L', b)[0]] and [struct.unpack('>L', b)[0]]: the
    buffer must hold exactly four bytes. *)
Definition unpack_le_L (b : bytes) : result Z :=
  if (length b =? 4)%nat then Ok (le_value b) else Raise StructError.
Definition unpack_be_L (b : bytes) : result Z :=
  if (length b =? 4)%nat then Ok (be_value b) else Raise StructError.

(** Native size of a format character. *)
Definition native_size (c : ascii) : result nat :=
  if Ascii.eqb c "B" then Ok 1%nat
  else if Ascii.eqb c "H" then Ok 2%nat
  else if Ascii.eqb c "I" then Ok 4%nat
  else if Ascii.eqb c "L" then Ok 8%nat
  else if Ascii.eqb c "Q" then Ok 8%nat
  else Raise StructError.

(** [struct.pack(c, v)] in native mode. *)
Definition pack_native (c : ascii) (v : Z) : result bytes :=
  let* n := native_size c in pack_uint false n v.

(** [struct.pack('%d%s' % (len(vals), c), *vals)]. *)
Fixpoint pack_native_seq (c : ascii) (vals : list Z) : result bytes :=
  match vals with
  | [] => let* _ := native_size c in Ok []
  | v :: r => let* b := pack_native c v in let* bs := pack_native_seq c r in Ok (b ++ bs)
  end.

End struct.

(** ** Python values handed to and returned by the codec *)

Inductive pyval : Type :=
| PyInt (n : Z)
| PyBytes (b : bytes)        (* bytes or bytearray; they compare equal *)
| PyList (l : list Z).       (* a list of integers *)

(** [len(val)]. *)
Definition py_len (val : pyval) : result Z :=
  match val with
  | PyInt _ => Raise TypeError
  | PyBytes b => Ok (len b)
  | PyList l => Ok (len l)
  end.

(** The elements [*val] unpacks. *)
Definition py_iter (val : pyval) : result (list Z) :=
  match val with
  | PyInt _ => Raise TypeError
  | PyBytes b => Ok b
  | PyList l => Ok l
  end.

(** An integer argument of [struct.pack]. *)
Definition py_index (val : pyval) : result Z :=
  match val with
  | PyInt n => Ok n
  | _ => Raise StructError
  end.

(** ** Wire codec *)

(** [asn_int4], lines 12-13. *)
Definition asn_int4 (val : Z) : result bytes :=
  let* b := struct.pack_be_L val in Ok ([2; 4] ++ b).

Definition is_digit (c : ascii) : bool :=
  let n := nat_of_ascii c in (48 <=? n)%nat && (n <=? 57)%nat.

(** The loop of lines 128-129: pops the leading digits of [fmt]. *)
Fixpoint pop_digits (fmt : list ascii) : list ascii * list ascii :=
  match fmt with
  | c :: r =>
      if is_digit c then let '(ds, rest) := pop_digits r in (c :: ds, rest)
      else ([], fmt)
  | [] => ([], [])
  end.

(** [int(length_str)] on a string of decimal digits. *)
Definition py_int (ds : list ascii) : result Z :=
  match ds with
  | [] => Raise ValueError
  | _ => Ok (fold_left (fun acc c => 10 * acc + (Z.of_nat (nat_of_ascii c) - 48)) ds 0)
  end.

(** The loop of lines 147-150.  [valid_field] is the list of line 146 split
    into its head [lead] and the rest [tail]: [insert(1, x)] puts [x] in
    front of [tail]. *)
Fixpoint valid_field_loop (fuel : nat) (remain lead : Z) (tail : list Z)
  : result (list Z) :=
  if 0 <? remain then
    match fuel with
    | O => OutOfFuel
    | S fuel' =>
        valid_field_loop fuel' (Z.shiftr remain 8) (lead + 1) (Z.land remain 0xff :: tail)
    end
  else Ok (lead :: tail).

(** Lines 142-150. *)
Definition valid_field_of (valid : Z) : result (list Z) :=
  if valid <? 128 then struct.pack_B valid
  else valid_field_loop (S (Z.to_nat (Z.log2 valid))) valid 0x80 [].

(** [bytes(l)] for a list of integers. *)
Definition py_bytes (l : list Z) : result bytes :=
  if forallb (fun x => (0 <=? x) && (x <? 256)) l then Ok l else Raise ValueError.

(** The scalar branches of [pack], lines 212-217. *)
Definition pack_scalar (ch : ascii) (arg : pyval) : option (result bytes) :=
  if Ascii.eqb ch "B" then
    Some (let* v := py_index arg in let* b := struct.pack_B v in Ok ([2; 1] ++ b))
  else if Ascii.eqb ch "H" then
    Some (let* v := py_index arg in let* b := struct.pack_be_H v in Ok ([2; 2] ++ b))
  else if Ascii.eqb ch "L" then
    Some (let* v := py_index arg in let* b := struct.pack_be_L v in Ok ([2; 4] ++ b))
  else None.

(** [pack('LL', count, padding)] as line 154 calls it: two passes through
    the ['L'] branch.  [pack_LL_spec] below relates it to [pack]. *)
Definition pack_LL (count padding : Z) : result bytes :=
  let* a := struct.pack_be_L count in
  let* b := struct.pack_be_L padding in
  Ok (([2; 4] ++ a) ++ [2; 4] ++ b).

Definition field_type_of (elem_size : Z) : result Z :=
  if elem_size =? 1 then Ok 0x55
  else if elem_size =? 2 then Ok 0x56
  else if elem_size =? 4 then Ok 0x57
  else Raise KeyError.

(** [_pack_string], lines 126-157.  The list [fmt] is shared with the
    caller, so the remaining format is returned with the field. *)
Definition _pack_string (val : pyval) (fmt : list ascii) (elem_type : ascii)
  : result (bytes * list ascii) :=
  let '(length_str, fmt) := pop_digits fmt in
  let* length := py_int length_str in
  let* valid := py_len val in
  let* _ := py_assert (valid <=? length) in
  let* zero := struct.pack_native elem_type 0 in
  let elem_size := len zero in
  let* field_type := field_type_of elem_size in
  let* elems := py_iter val in
  let* payload := struct.pack_native_seq elem_type elems in
  let count := length * elem_size in
  let padding := (length - valid) * elem_size in
  let* valid_field := valid_field_of valid in
  let* field := struct.pack_B field_type in
  let* vf := py_bytes valid_field in
  let* ll := pack_LL count padding in
  Ok (field ++ vf ++ ll ++ payload ++ repeat 0 (Z.to_nat padding), fmt).

(** The loop of [pack], lines 208-227.  Every iteration pops at least one
    character of [fmt], so [length fmt] iterations suffice. *)
Fixpoint pack_loop (fuel : nat) (fmt : list ascii) (args : list pyval) (out : bytes)
  : result bytes :=
  match fmt with
  | [] =>
      match args with
      | [] => Ok out
      | _ :: _ => Raise ValueError
      end
  | ch :: fmt =>
      match fuel with
      | O => OutOfFuel
      | S fuel =>
          match args with
          | [] => Raise IndexError
          | arg :: args =>
              match pack_scalar ch arg with
              | Some r => let* b := r in pack_loop fuel fmt args (out ++ b)
              | None =>
                  if Ascii.eqb ch "s" then
                    let* (field, fmt) := _pack_string arg fmt "B" in
                    pack_loop fuel fmt args (out ++ field)
                  else if Ascii.eqb ch "S" then
                    match fmt with
                    | [] => Raise IndexError
                    | elem_type :: fmt =>
                        let* (field, fmt) := _pack_string arg fmt elem_type in
                        pack_loop fuel fmt args (out ++ field)
                    end
                  else Raise ValueError
              end
          end
      end
  end.

(** [pack], lines 203-229. *)
Definition pack (fmt : string) (args : list pyval) : result bytes :=
  let fmt := list_ascii_of_string fmt in
  pack_loop (length fmt) fmt args [].

(** [take_asn_int], lines 159-166. *)
Fixpoint take_asn_int_loop (l : nat) (val : Z) (data : bytes) : result (Z * bytes) :=
  match l with
  | O => Ok (val, data)
  | S l =>
      let* (b, data) := pop0 data in
      take_asn_int_loop l (Z.lor (Z.shiftl val 8) b) data
  end.

Definition take_asn_int (data : bytes) : result (Z * bytes) :=
  let* (t, data) := pop0 data in
  let* _ := py_assert (t =? 0x02) in
  let* (l, data) := pop0 data in
  take_asn_int_loop (Z.to_nat l) 0 data.

(** The loop of lines 181-182. *)
Fixpoint take_valid_loop (n : nat) (byte : Z) (value : Z) (data : bytes)
  : result (Z * bytes) :=
  match n with
  | O => Ok (value, data)
  | S n =>
      let* (b, data) := pop0 data in
      take_valid_loop n (byte + 1) (Z.lor value (Z.shiftl b (byte * 8))) data
  end.

(** Lines 176-187: the type tag and the occupied count, scaled to bytes. *)
Definition take_valid (data : bytes) : result (Z * bytes) :=
  let* (t, data) := pop0 data in
  let* _ := py_assert ((t =? 0x55) || (t =? 0x56) || (t =? 0x57)) in
  let* (valid, data) := pop0 data in
  let* (valid, data) :=
    (if negb (Z.land valid 0x80 =? 0)
     then take_valid_loop (Z.to_nat (Z.land valid 0xf)) 0 0 data
     else Ok (valid, data)) in
  let valid :=
    if t =? 0x56 then Z.shiftl valid 1
    else if t =? 0x57 then Z.shiftl valid 2
    else valid in
  Ok (valid, data).

(** Lines 190-194: the cross-check and the local [field_size]. *)
Definition field_size_of (count valid padding : Z) : result Z :=
  if negb (count =? 0) then
    let* _ := py_assert (count =? valid + padding) in Ok count
  else Ok valid.

(** The ['s'] branch of [unpack], lines 176-197. *)
Definition unpack_string (data : bytes) : result (bytes * bytes) :=
  let* (valid, data) := take_valid data in
  let* (count, data) := take_asn_int data in
  let* (padding, data) := take_asn_int data in
  let* field_size := field_size_of count valid padding in
  let payload := firstn (Z.to_nat valid) data in
  let data := skipn (Z.to_nat (valid + padding)) data in
  Ok (payload, data).

(** The loop of [unpack], lines 171-199. *)
Fixpoint unpack_loop (fmt : list ascii) (data : bytes) (out : list pyval)
  : result (list pyval) :=
  match fmt with
  | [] => Ok out
  | ch :: fmt =>
      if Ascii.eqb ch "n" then
        let* (val, data) := take_asn_int data in
        unpack_loop fmt data (out ++ [PyInt val])
      else if Ascii.eqb ch "s" then
        let* (payload, data) := unpack_string data in
        unpack_loop fmt data (out ++ [PyBytes payload])
      else Raise ValueError
  end.

(** [unpack], lines 168-201. *)
Definition unpack (fmt : string) (data : bytes) : result (list pyval) :=
  unpack_loop (list_ascii_of_string fmt) data [].

(** ** Transaction dispatcher *)

(** [itertools.cycle] over a finite list: [pending] is what is left of the
    current pass, [saved] the whole list, replayed when the pass ends. *)
Record cycle : Type := { pending : list Z; saved : list Z }.

Definition cycle_of (l : list Z) : cycle := {| pending := l; saved := l |}.

(** [next(c)]. *)
Definition next (c : cycle) : result (Z * cycle) :=
  match pending c with
  | x :: r => Ok (x, {| pending := r; saved := saved c |})
  | [] =>
      match saved c with
      | x :: r => Ok (x, {| pending := r; saved := saved c |})
      | [] => Raise StopIteration
      end
  end.

(** [range(a, b)]. *)
Definition range (a b : nat) : list Z := map Z.of_nat (seq a (b - a)).

(** A callable registered in [self.callbacks]: one the caller supplied, or
    the closure of lines 37-39 bound to its own [waiter] event. *)
Inductive callback : Type :=
| UserCallback (f : nat)
| WaiterCallback (waiter : nat).

(** What the module prints. *)
Inductive line : Type :=
| WriteError (ret : Z)
| LengthMismatch
| Unsolicited (code : Z) (body : bytes)
| SyncResponse (code : Z) (body : bytes)
| UnexpectedTxid (txid : Z)
| TxAcknowledged (txid : Z)
| TxCompleted (txid : Z).

(** The attributes of an [XMMRPC] object, and around them what the object
    has done to the outside: the buffers written to [fp], the callback
    threads started, the lines printed, and the [waiter] events created
    and set. *)
Record XMMRPC : Type := {
  callbacks : gmap Z callback;
  call_acknowledged : gset Z;
  response_event : bool;
  response : option (Z * bytes);
  tid_gen : cycle;
  written : list bytes;
  threads : list (callback * Z * bytes);
  stdout : list line;
  waiters : nat;
  waiters_set : gset nat
}.

Definition BASE : Z := 0x11000100.

(** [__init__], lines 16-28. *)
Definition init : XMMRPC := {|
  callbacks := ∅;
  call_acknowledged := ∅;
  response_event := false;
  response := None;
  tid_gen := cycle_of (range 1 256);
  written := [];
  threads := [];
  stdout := [];
  waiters := 0;
  waiters_set := ∅
|}.

(** Lines 48 and 53-60 of [execute]: the header of a frame. *)
Definition build_header (cmd tid : Z) (body : bytes) : result bytes :=
  let tid_word := Z.lor BASE tid in
  let total_length := len body + 16 in
  let total_length := if negb (tid =? 0) then total_length + 6 else total_length in
  let* l0 := struct.pack_le_L total_length in
  let* l1 := asn_int4 total_length in
  let* code := asn_int4 cmd in
  let* word := struct.pack_be_L tid_word in
  let header := l0 ++ l1 ++ code ++ word in
  let* header :=
    (if negb (tid =? 0)
     then let* t := asn_int4 tid in Ok (header ++ t)
     else Ok header) in
  let* _ := py_assert (total_length + 4 =? len header + len body) in
  Ok header.

(** Where a caller of [execute] stands after the write of line 63. *)
Inductive caller : Type :=
| AtResponseWait (waiter : option nat)      (* line 66 *)
| AtWaiterWait (waiter : nat)               (* line 70 *)
| Returned (r : option (Z * bytes)).        (* line 72 *)

(** [execute] up to and including the write, lines 35-65.  [ret] is what
    [os.write] answers. *)
Definition execute_send (self : XMMRPC) (cmd : Z) (body : bytes)
    (callback : option callback) (is_async : bool) (ret : Z)
  : result (XMMRPC * caller) :=
  let '(callback, waiter, fresh) :=
    match callback with
    | None =>
        if is_async
        then (Some (WaiterCallback (waiters self)), Some (waiters self), S (waiters self))
        else (None, None, waiters self)
    | Some _ => (callback, None, waiters self)
    end in
  let* (tid, gen) :=
    (match callback with
     | Some _ => let* (n, gen) := next (tid_gen self) in Ok (Z.lor BASE n, gen)
     | None => Ok (0, tid_gen self)
     end) in
  let tid_word := Z.lor BASE tid in
  let callbacks :=
    match callback with
    | Some cb => if negb (tid =? 0) then <[tid_word := cb]> (callbacks self) else callbacks self
    | None => callbacks self
    end in
  let* header := build_header cmd tid body in
  let message := header ++ body in
  Ok ({| callbacks := callbacks;
         call_acknowledged := call_acknowledged self;
         response_event := false;
         response := response self;
         tid_gen := gen;
         written := written self ++ [message];
         threads := threads self;
         stdout := if ret <? len message then stdout self ++ [WriteError ret] else stdout self;
         waiters := fresh;
         waiters_set := waiters_set self |},
      AtResponseWait waiter).

(** The rest of [execute], lines 66-72: a wait lets the caller through only
    once its event is set; [None] is a caller that stays blocked. *)
Definition execute_resume (self : XMMRPC) (c : caller) : option caller :=
  match c with
  | AtResponseWait waiter =>
      if response_event self then
        Some (match waiter with
              | Some w => AtWaiterWait w
              | None => Returned (response self)
              end)
      else None
  | AtWaiterWait w =>
      if decide (w ∈ waiters_set self) then Some (Returned (response self)) else None
  | Returned _ => None
  end.

(** The fields lines 75-87 of [handle_message] read off a message. *)
Record Frame : Type := {
  l0 : Z;
  l1 : Z;
  code : Z;
  txid : Z;
  body : bytes
}.

Definition parse_header (message : bytes) : result Frame :=
  let length := slice 0 4 message in
  let len1_p := slice 4 10 message in
  let code_p := slice 10 16 message in
  let txid := slice 16 20 message in
  let body := skipn 20 message in
  let* _ := py_assert (startswith [2; 4] len1_p) in
  let* _ := py_assert (startswith [2; 4] code_p) in
  let* l0 := struct.unpack_le_L length in
  let* l1 := struct.unpack_be_L (skipn 2 len1_p) in
  let* code := struct.unpack_be_L (skipn 2 code_p) in
  let* txid := struct.unpack_be_L txid in
  Ok {| l0 := l0; l1 := l1; code := code; txid := txid; body := body |}.

Definition set_stdout (self : XMMRPC) (out : list line) : XMMRPC :=
  {| callbacks := callbacks self;
     call_acknowledged := call_acknowledged self;
     response_event := response_event self;
     response := response self;
     tid_gen := tid_gen self;
     written := written self;
     threads := threads self;
     stdout := out;
     waiters := waiters self;
     waiters_set := waiters_set self |}.

Definition print (self : XMMRPC) (l : line) : XMMRPC :=
  set_stdout self (stdout self ++ [l]).

(** Lines 96 and 97, in the order of the source: [self.response_event.set()]
    releases a caller waiting at line 66, and only then is
    [self.response = (code, body)] stored. *)
Definition set_event (self : XMMRPC) : XMMRPC :=
  {| callbacks := callbacks self;
     call_acknowledged := call_acknowledged self;
     response_event := true;
     response := response self;
     tid_gen := tid_gen self;
     written := written self;
     threads := threads self;
     stdout := stdout self;
     waiters := waiters self;
     waiters_set := waiters_set self |}.

Definition store_response (self : XMMRPC) (code : Z) (body : bytes) : XMMRPC :=
  {| callbacks := callbacks self;
     call_acknowledged := call_acknowledged self;
     response_event := response_event self;
     response := Some (code, body);
     tid_gen := tid_gen self;
     written := written self;
     threads := threads self;
     stdout := stdout self;
     waiters := waiters self;
     waiters_set := waiters_set self |}.

Definition set_response (self : XMMRPC) (code : Z) (body : bytes) : XMMRPC :=
  store_response (set_event self) code body.

(** [handle_message], lines 74-114. *)
Definition handle_message (self : XMMRPC) (message : bytes) : result XMMRPC :=
  let* f := parse_header message in
  let self := if negb (l0 f =? l1 f) then print self LengthMismatch else self in
  if txid f =? 0 then
    Ok (print self (Unsolicited (code f) (body f)))
  else if txid f =? 0x11000100 then
    Ok (set_response (print self (SyncResponse (code f) (body f))) (code f) (body f))
  else
    match callbacks self !! txid f with
    | None => Ok (print self (UnexpectedTxid (txid f)))
    | Some cb =>
        if decide (txid f ∉ call_acknowledged self) then
          let self := print self (TxAcknowledged (txid f)) in
          Ok {| callbacks := callbacks self;
                call_acknowledged := {[txid f]} ∪ call_acknowledged self;
                response_event := true;
                response := Some (code f, body f);
                tid_gen := tid_gen self;
                written := written self;
                threads := threads self;
                stdout := stdout self;
                waiters := waiters self;
                waiters_set := waiters_set self |}
        else
          let self := print self (TxCompleted (txid f)) in
          Ok {| callbacks := delete (txid f) (callbacks self);
                call_acknowledged := call_acknowledged self ∖ {[txid f]};
                response_event := response_event self;
                response := response self;
                tid_gen := tid_gen self;
                written := written self;
                threads := threads self ++ [(cb, code f, skipn 6 (body f))];
                stdout := stdout self;
                waiters := waiters self;
                waiters_set := waiters_set self |}
    end.

(** The body of the closure of lines 37-39, run by the thread line 112
    starts.  A caller's own callable is outside the module. *)
Definition run_callback (self : XMMRPC) (cb : callback) (code : Z) (body : bytes)
  : XMMRPC :=
  match cb with
  | UserCallback _ => self
  | WaiterCallback w =>
      {| callbacks := callbacks self;
         call_acknowledged := call_acknowledged self;
         response_event := response_event self;
         response := Some (code, body);
         tid_gen := tid_gen self;
         written := written self;
         threads := threads self;
         stdout := stdout self;
         waiters := waiters self;
         waiters_set := {[w]} ∪ waiters_set self |}
  end.

(** [handle_message] between lines 96 and 97, for a frame of the bare
    channel base: the object as the other threads see it once the event
    is set and before the response is stored. *)
Definition handle_message_released (self : XMMRPC) (message : bytes) : option XMMRPC :=
  match parse_header message with
  | Ok f =>
      let self := if negb (l0 f =? l1 f) then print self LengthMismatch else self in
      if txid f =? 0 then None
      else if txid f =? 0x11000100 then
        Some (set_event (print self (SyncResponse (code f) (body f))))
      else None
  | _ => None
  end.

(** [execute] when it raises, lines 35-60: the exception and the object as
    the call leaves it.  The waiter of line 36, the identifier of line 44
    and the table entry of line 51 are there before the header is built;
    nothing is written and the event is not cleared. *)
Definition execute_raise (self : XMMRPC) (cmd : Z) (body : bytes)
    (callback : option callback) (is_async : bool) : option (pyerr * XMMRPC) :=
  let '(callback, waiter, fresh) :=
    match callback with
    | None =>
        if is_async
        then (Some (WaiterCallback (waiters self)), Some (waiters self), S (waiters self))
        else (None, None, waiters self)
    | Some _ => (callback, None, waiters self)
    end in
  match (match callback with
         | Some _ => let* (n, gen) := next (tid_gen self) in Ok (Z.lor BASE n, gen)
         | None => Ok (0, tid_gen self)
         end) with
  | Ok (tid, gen) =>
      let tid_word := Z.lor BASE tid in
      let callbacks :=
        match callback with
        | Some cb => if negb (tid =? 0) then <[tid_word := cb]> (callbacks self) else callbacks self
        | None => callbacks self
        end in
      match build_header cmd tid body with
      | Raise e =>
          Some (e, {| callbacks := callbacks;
                      call_acknowledged := call_acknowledged self;
                      response_event := response_event self;
                      response := response self;
                      tid_gen := gen;
                      written := written self;
                      threads := threads self;
                      stdout := stdout self;
                      waiters := fresh;
                      waiters_set := waiters_set self |})
      | _ => None
      end
  | Raise e =>
      Some (e, {| callbacks := callbacks self;
                  call_acknowledged := call_acknowledged self;
                  response_event := response_event self;
                  response := response self;
                  tid_gen := tid_gen self;
                  written := written self;
                  threads := threads self;
                  stdout := stdout self;
                  waiters := fresh;
                  waiters_set := waiters_set self |})
  | OutOfFuel => None
  end.

(** One move of the object: a call of [execute] reaches its write, a call
    of [execute] raises, the reader hands a message to [handle_message],
    or a started callback thread runs.  A message is one move; the point
    inside it where the order of two writes shows to a caller is
    [handle_message_released]. *)
Inductive step : XMMRPC -> XMMRPC -> Prop :=
| step_execute self cmd body callback is_async ret self' c :
    execute_send self cmd body callback is_async ret = Ok (self', c) ->
    step self self'
| step_message self message self' :
    handle_message self message = Ok self' ->
    step self self'
| step_callback self cb code body :
    In (cb, code, body) (threads self) ->
    step self (run_callback self cb code body)
| step_execute_raise self cmd body callback is_async e self' :
    execute_raise self cmd body callback is_async = Some (e, self') ->
    step self self'.

Definition reachable (self : XMMRPC) : Prop := rtc step init self.

(** ** Formats of the two directions *)

(** The format [unpack] reads the output of [pack fmt] with: a generic
    integer ['n'] for each scalar field, ['s'] for each array field;
    capacities and element types have no counterpart. *)
Fixpoint unpack_format (fmt : list ascii) : list ascii :=
  match fmt with
  | [] => []
  | ch :: r =>
      if is_digit ch then unpack_format r
      else if Ascii.eqb ch "S" then
        match r with
        | _ :: r' => "s" :: unpack_format r'
        | [] => ["s"]
        end
      else if Ascii.eqb ch "s" then "s" :: unpack_format r
      else "n" :: unpack_format r
  end.

(** Every typed array field of the format has one-byte elements. *)
Fixpoint byte_arrays (fmt : list ascii) : bool :=
  match fmt with
  | [] => true
  | ch :: r =>
      if Ascii.eqb ch "S" then
        match r with
        | elem_type :: r' => Ascii.eqb elem_type "B" && byte_arrays r'
        | [] => true
        end
      else byte_arrays r
  end.

Definition unpack_format_of (fmt : string) : string :=
  string_of_list_ascii (unpack_format (list_ascii_of_string fmt)).

(** A format that does not start in the middle of a capacity. *)
Definition starts_field (fmt : list ascii) : bool :=
  match fmt with
  | [] => true
  | c :: _ => negb (is_digit c)
  end.

(** What [unpack] gives for a format character. *)
Definition value_kind (ch : ascii) (v : pyval) : Prop :=
  (ch = "n" /\ exists n, v = PyInt n) \/ (ch = "s" /\ exists b, v = PyBytes b).

(** The values [unpack] can give back: integers, and [bytes] objects of
    fewer than 256 bytes. *)
Definition codec_value (v : pyval) : Prop :=
  match v with
  | PyInt _ => True
  | PyBytes b => len b < 256
  | PyList _ => False
  end.

(** ** Vocabulary of the statements *)

(** A byte, and an integer that fits [w] bytes. *)
Definition is_byte (b : Z) : Prop := 0 <= b < 256.
Definition fits (w : nat) (x : Z) : Prop := 0 <= x < 2 ^ (8 * Z.of_nat w).

(** The header [execute] builds, field by field. *)
Definition header_of (cmd tid : Z) (body : bytes) : bytes :=
  let total := len body + 16 + (if tid =? 0 then 0 else 6) in
  struct.le_bytes 4 total ++ ([2; 4] ++ struct.be_bytes 4 total) ++ ([2; 4] ++ struct.be_bytes 4 cmd)
    ++ struct.be_bytes 4 (Z.lor BASE tid)
    ++ (if tid =? 0 then [] else [2; 4] ++ struct.be_bytes 4 tid).

(** The field [_pack_string] emits for a well-formed value. *)
Definition field_of (tag : Z) (vf : bytes) (cap : Z) (w : nat) (elems : list Z) : bytes :=
  [tag] ++ vf
    ++ (([2; 4] ++ struct.be_bytes 4 (cap * Z.of_nat w))
          ++ [2; 4] ++ struct.be_bytes 4 ((cap - len elems) * Z.of_nat w))
    ++ flat_map (struct.le_bytes w) elems
    ++ repeat 0 (Z.to_nat ((cap - len elems) * Z.of_nat w)).

(** An identifier byte OR'ed into the channel base. *)
Definition tagged (k : Z) : Prop := exists id, 1 <= id <= 255 /\ k = Z.lor BASE id.

(** The generator of line 28 after [k] identifiers of the current pass, and
    the identifier it gives next: 1, 2, ..., 255, 1, 2, ... *)
Definition gen_at (k : nat) : cycle :=
  {| pending := skipn k (range 1 256); saved := range 1 256 |}.

Definition next_id (k : nat) : Z := if (k <? 255)%nat then Z.of_nat k + 1 else 1.

Definition gen_ok (g : cycle) : Prop := exists k, (k <= 255)%nat /\ g = gen_at k.

Definition keys_tagged (self : XMMRPC) : Prop :=
  forall k cb, callbacks self !! k = Some cb -> tagged k.

(** Every acknowledged identifier is still pending. *)
Definition acknowledged_pending (self : XMMRPC) : Prop :=
  forall k, k ∈ call_acknowledged self -> is_Some (callbacks self !! k).

(** ** A sample run *)

(** An asynchronous call with a callback on a fresh object: identifier 1. *)
Definition demo_state : XMMRPC :=
  match execute_send init 0x42 [] (Some (UserCallback 0)) false 26 with
  | Ok (self, _) => self
  | _ => init
  end.

(** Inbound frames: tag [BASE | 1] with body [b"ack"], tag [BASE | 1] with
    six leading bytes and [b"done"], and tag [BASE | 9] with body [b"ack"]. *)
Definition demo_frame_ack : bytes :=
  [26; 0; 0; 0; 2; 4; 0; 0; 0; 26; 2; 4; 0; 0; 0; 66; 17; 0; 1; 1; 97; 99; 107].
Definition demo_frame_done : bytes :=
  [33; 0; 0; 0; 2; 4; 0; 0; 0; 33; 2; 4; 0; 0; 0; 66; 17; 0; 1; 1;
   2; 4; 17; 0; 1; 1; 100; 111; 110; 101].
Definition demo_frame_9 : bytes :=
  [26; 0; 0; 0; 2; 4; 0; 0; 0; 26; 2; 4; 0; 0; 0; 66; 17; 0; 1; 9; 97; 99; 107].

(** An inbound frame with the bare base as its tag and body [b"ok"]. *)
Definition demo_frame_sync : bytes :=
  [22; 0; 0; 0; 2; 4; 0; 0; 0; 22; 2; 4; 0; 0; 0; 66; 17; 0; 1; 0; 111; 107].

(** The sample state once [demo_frame_ack] is handled. *)
Definition demo_after_ack : XMMRPC :=
  match handle_message demo_state demo_frame_ack with
  | Ok self => self
  | _ => demo_state
  end.

(** [n] more calls with a callback, none of them answered. *)
Fixpoint repeat_call (n : nat) (self : XMMRPC) : XMMRPC :=
  match n with
  | O => self
  | S n =>
      match execute_send self 0x42 [] (Some (UserCallback 0)) false 26 with
      | Ok (self', _) => repeat_call n self'
      | _ => self
      end
  end.

(** The sample state 254 calls later, its first transaction acknowledged
    and not completed: the generator is about to give identifier 1 again. *)
Definition demo_wrapped : XMMRPC := repeat_call 254 demo_after_ack.



(** ** Message builders and parsers *)

(** [s.encode('ascii')] for a string of 8-bit characters.  The
    UnicodeEncodeError of a character above 127 is a ValueError. *)
Definition encode_ascii (s : string) : result bytes :=
  let codes := map (fun c => Z.of_nat (nat_of_ascii c)) (list_ascii_of_string s) in
  if forallb (fun x => x <? 128) codes then Ok codes else Raise ValueError.

(** [binascii.hexlify]: two lowercase hexadecimal digits per byte. *)
Definition hex_digit (n : Z) : ascii :=
  ascii_of_nat (Z.to_nat (if n <? 10 then 48 + n else 87 + n)).

Definition hexlify (data : bytes) : list ascii :=
  flat_map (fun b => [hex_digit (b / 16); hex_digit (b mod 16)]) data.

Definition hex_value (c : ascii) : option Z :=
  let n := Z.of_nat (nat_of_ascii c) in
  if (48 <=? n) && (n <=? 57) then Some (n - 48)
  else if (97 <=? n) && (n <=? 102) then Some (n - 87)
  else if (65 <=? n) && (n <=? 70) then Some (n - 55)
  else None.

(** [int(s, 16)] on a string that holds digits only, as [hexlify] gives:
    no sign, prefix, underscore or blank. *)
Fixpoint py_int16_loop (s : list ascii) (acc : Z) : result Z :=
  match s with
  | [] => Ok acc
  | c :: r =>
      match hex_value c with
      | Some d => py_int16_loop r (16 * acc + d)
      | None => Raise ValueError
      end
  end.

Definition py_int16 (s : list ascii) : result Z :=
  match s with
  | [] => Raise ValueError
  | _ :: _ => py_int16_loop s 0
  end.

(** The [ipaddress] module: an address is its integer; the constructors
    check the range (AddressValueError is a ValueError). *)
Module ipaddress.

Inductive address : Type :=
| V4 (n : Z)
| V6 (n : Z).

Definition IPv4Address (n : Z) : result address :=
  if (0 <=? n) && (n <? 2 ^ 32) then Ok (V4 n) else Raise ValueError.

Definition IPv6Address (n : Z) : result address :=
  if (0 <=? n) && (n <? 2 ^ 128) then Ok (V6 n) else Raise ValueError.

End ipaddress.

(** [bytes_to_ipv4] and [bytes_to_ipv6], lines 231-235. *)
Definition bytes_to_ipv4 (data : bytes) : result ipaddress.address :=
  let* n := py_int16 (hexlify data) in ipaddress.IPv4Address n.

Definition bytes_to_ipv6 (data : bytes) : result ipaddress.address :=
  let* n := py_int16 (hexlify data) in ipaddress.IPv6Address n.

(** [b'\0' * n]. *)
Definition zeros (n : nat) : pyval := PyBytes (repeat 0 n).

(** [pack_UtaMsCallPsAttachApnConfigReq], lines 237-244.  The slice
    assignment of line 239 replaces the first [len(apn)] bytes of the
    101-byte array by the encoded name. *)
Definition apn_types : string :=
  "Bs260Ls66s65s250Bs252HLLLLLLLLLLLLLLLLLLLLLs20Ls104s260Ls66s65s250Bs252HLLLLLLLLLLLLLLLLLLLLLs20Ls104s260Ls66s65s250Bs252HLLLLLLLLLLLLLLLLLLLLLs20Ls104s260Ls66s65s250Bs252HLLLLLLLLLLLLLLLLLLLLLs20Ls103BL".

Definition apn_args (apn_string : bytes) : list pyval :=
    [PyInt 0; zeros 257; PyInt 0; zeros 65; zeros 65; zeros 250; PyInt 0; zeros 250;
     PyInt 0; PyInt 0; PyInt 0; PyInt 0; PyInt 0; PyInt 0; PyInt 0; PyInt 0; PyInt 0;
     PyInt 0; PyInt 0; PyInt 0; PyInt 0; PyInt 0; PyInt 0; PyInt 0; PyInt 0; PyInt 0;
     PyInt 0; PyInt 0; PyInt 0; PyInt 0; zeros 20; PyInt 0; zeros 101; zeros 257;
     PyInt 0; zeros 65; zeros 65; zeros 250; PyInt 0; zeros 250; PyInt 0; PyInt 0;
     PyInt 0; PyInt 0; PyInt 0; PyInt 0; PyInt 0; PyInt 0; PyInt 0; PyInt 0; PyInt 0;
     PyInt 0; PyInt 0; PyInt 0; PyInt 0; PyInt 0; PyInt 0; PyInt 0; PyInt 0; PyInt 0;
     PyInt 0; PyInt 0; zeros 20; PyInt 0; zeros 101; zeros 257; PyInt 0; zeros 65;
     zeros 65; zeros 250; PyInt 0; zeros 250; PyInt 0; PyInt 0; PyInt 0; PyInt 0;
     PyInt 0; PyInt 1; PyInt 0; PyInt 0; PyInt 0; PyInt 0; PyInt 0; PyInt 0; PyInt 0;
     PyInt 1; PyInt 0; PyInt 0; PyInt 0x404; PyInt 1; PyInt 0; PyInt 1; PyInt 0;
     PyInt 0; zeros 20; PyInt 3; PyBytes apn_string; zeros 257; PyInt 0; zeros 65;
     zeros 65; zeros 250; PyInt 0; zeros 250; PyInt 0; PyInt 0; PyInt 0; PyInt 0;
     PyInt 0; PyInt 1; PyInt 0; PyInt 0; PyInt 0; PyInt 0; PyInt 0; PyInt 0; PyInt 0;
     PyInt 1; PyInt 0; PyInt 0; PyInt 0x404; PyInt 1; PyInt 0; PyInt 1; PyInt 0;
     PyInt 0; zeros 20; PyInt 3; PyBytes apn_string; PyInt 3; PyInt 0].

Definition pack_UtaMsCallPsAttachApnConfigReq (apn : string) : result bytes :=
  let apn_string := repeat 0 101 in
  let* encoded := encode_ascii apn in
  let apn_string := encoded ++ skipn (String.length apn) apn_string in
  pack apn_types (apn_args apn_string).

(** The builders of lines 246-250, 261-262 and 278-283. *)
Definition pack_UtaMsNetAttachReq : result bytes :=
  pack "BLLLLHHLL"
    [PyInt 0; PyInt 0; PyInt 0; PyInt 0; PyInt 0; PyInt 0xffff; PyInt 0xffff; PyInt 0; PyInt 0].

Definition pack_UtaMsCallPsGetNegIpAddrReq : result bytes :=
  pack "BLL" [PyInt 0; PyInt 0; PyInt 0].

Definition pack_UtaMsCallPsGetNegotiatedDnsReq : result bytes :=
  pack "BLL" [PyInt 0; PyInt 0; PyInt 0].

Definition pack_UtaMsCallPsConnectReq : result bytes :=
  pack "BLLL" [PyInt 0; PyInt 6; PyInt 0; PyInt 0].

Definition pack_UtaRPCPsConnectToDatachannelReq (path : string) : result bytes :=
  let* encoded := encode_ascii path in
  let bpath := encoded ++ [0] in
  pack "s24" [PyBytes bpath].

(** [v[a:b]] handed to [binascii.hexlify]: only a bytes object passes. *)
Definition py_bytes_slice (v : pyval) (a b : nat) : result bytes :=
  match v with
  | PyBytes x => Ok (slice a b x)
  | _ => Raise TypeError
  end.

(** [v == n] for an integer [n]. *)
Definition py_eq_int (v : pyval) (n : Z) : bool :=
  match v with
  | PyInt m => m =? n
  | _ => false
  end.

(** [unpack_UtaMsCallPsGetNegIpAddrReq], lines 252-258. *)
Definition unpack_UtaMsCallPsGetNegIpAddrReq (data : bytes)
  : result (ipaddress.address * ipaddress.address * ipaddress.address) :=
  let* vals := unpack "nsnnnn" data in
  match vals with
  | [_; addresses; _; _; _; _] =>
      let* b1 := py_bytes_slice addresses 0 4 in
      let* a1 := bytes_to_ipv4 b1 in
      let* b2 := py_bytes_slice addresses 4 8 in
      let* a2 := bytes_to_ipv4 b2 in
      let* b3 := py_bytes_slice addresses 8 12 in
      let* a3 := bytes_to_ipv4 b3 in
      Ok (a1, a2, a3)
  | _ => Raise ValueError
  end.

(** [s * n] for a string. *)
Fixpoint str_mul (s : string) (n : nat) : string :=
  match n with
  | O => EmptyString
  | S k => String.append s (str_mul s k)
  end.

(** The dictionary [unpack_UtaMsCallPsGetNegotiatedDnsReq] returns. *)
Record dns : Type := { v4 : list ipaddress.address; v6 : list ipaddress.address }.

(** The loop of lines 268-273 over the indices [range(16)]. *)
Fixpoint dns_loop (indices : list nat) (vals : list pyval)
    (v4 v6 : list ipaddress.address) : result dns :=
  match indices with
  | [] => Ok {| v4 := v4; v6 := v6 |}
  | i :: indices =>
      match slice (2 * i + 1) (2 * i + 3) vals with
      | [address; typ] =>
          if py_eq_int typ 1 then
            let* b := py_bytes_slice address 0 4 in
            let* a := bytes_to_ipv4 b in
            dns_loop indices vals (v4 ++ [a]) v6
          else if py_eq_int typ 2 then
            let* b := py_bytes_slice address 0 16 in
            let* a := bytes_to_ipv6 b in
            dns_loop indices vals v4 (v6 ++ [a])
          else dns_loop indices vals v4 v6
      | _ => Raise ValueError
      end
  end.

(** [unpack_UtaMsCallPsGetNegotiatedDnsReq], lines 264-275. *)
Definition dns_format : string :=
  String.append "n" (String.append (str_mul "sn" 16) "nsnnnn").

Definition unpack_UtaMsCallPsGetNegotiatedDnsReq (data : bytes) : result dns :=
  let* vals := unpack dns_format data in
  dns_loop (seq 0 16) vals [] [].

(** ** The reader and the identifier generator over time *)

(** A message long enough for the four header fields, with the markers
    02 04 in front of the second length and of the command code. *)
Definition well_framed (message : bytes) : bool :=
  (20 <=? length message)%nat
  && (2 =? nth 4 message 0) && (4 =? nth 5 message 0)
  && (2 =? nth 10 message 0) && (4 =? nth 11 message 0).

(** [reader], lines 116-119, over the chunks [os.read] returns until
    [_stop] is seen: an exception of [handle_message] ends the thread. *)
Fixpoint reader (self : XMMRPC) (reads : list bytes) : result XMMRPC :=
  match reads with
  | [] => Ok self
  | dd :: reads => let* self := handle_message self dd in reader self reads
  end.

(** [n] successive [next(g)]. *)
Fixpoint draw (n : nat) (g : cycle) : result (list Z * cycle) :=
  match n with
  | O => Ok ([], g)
  | S n =>
      let* (x, g) := next g in
      let* (xs, g) := draw n g in
      Ok (x :: xs, g)
  end.

(** A value whose bytes, if it is a bytes object, are bytes. *)
Definition bytes_value (v : pyval) : Prop :=
  match v with
  | PyBytes b => Forall is_byte b
  | _ => True
  end.

(** The values of 16 (address, type) pairs as [unpack] lists them, the
    pairs the DNS parser can read (an address of type 1 or 2 is not
    empty), and the addresses it makes of them. *)
Definition dns_entries (es : list (bytes * Z)) : list pyval :=
  flat_map (fun e => [PyBytes (fst e); PyInt (snd e)]) es.

Definition dns_entry_ok (e : bytes * Z) : Prop :=
  snd e = 1 \/ snd e = 2 -> fst e <> [].

Definition dns_v4 (es : list (bytes * Z)) : list ipaddress.address :=
  map (fun e => ipaddress.V4 (struct.be_value (slice 0 4 (fst e))))
    (List.filter (fun e => snd e =? 1) es).

Definition dns_v6 (es : list (bytes * Z)) : list ipaddress.address :=
  map (fun e => ipaddress.V6 (struct.be_value (slice 0 16 (fst e))))
    (List.filter (fun e => snd e =? 2) es).

(** A response to the negotiated-address request: 10.0.0.1, 10.0.0.2 and
    8.8.8.8, and what [unpack] reads from it. *)
Definition demo_addresses : bytes :=
  [2; 1; 0; 85; 12; 2; 4; 0; 0; 0; 12; 2; 4; 0; 0; 0; 0;
   10; 0; 0; 1; 10; 0; 0; 2; 8; 8; 8; 8;
   2; 1; 0; 2; 1; 0; 2; 1; 0; 2; 1; 0].

Definition demo_addresses_values : list pyval :=
  [PyInt 0; PyBytes [10; 0; 0; 1; 10; 0; 0; 2; 8; 8; 8; 8];
   PyInt 0; PyInt 0; PyInt 0; PyInt 0].

(** A response to the negotiated-DNS request: the server 8.8.8.8 of type
    1, the server 2001:4860:4860::8888 of type 2 and 14 unused entries,
    and what [unpack] reads from it. *)
Definition demo_dns_entries : list (bytes * Z) :=
  ([8; 8; 8; 8], 1)
  :: ([32; 1; 72; 96; 72; 96; 0; 0; 0; 0; 0; 0; 0; 0; 136; 136], 2)
  :: repeat ([], 0) 14.

Definition demo_dns : bytes :=
  [2; 1; 2]
  ++ [85; 4; 2; 4; 0; 0; 0; 16; 2; 4; 0; 0; 0; 12; 8; 8; 8; 8] ++ repeat 0 12 ++ [2; 1; 1]
  ++ [85; 16; 2; 4; 0; 0; 0; 16; 2; 4; 0; 0; 0; 0;
      32; 1; 72; 96; 72; 96; 0; 0; 0; 0; 0; 0; 0; 0; 136; 136] ++ [2; 1; 2]
  ++ concat (repeat ([85; 0; 2; 4; 0; 0; 0; 16; 2; 4; 0; 0; 0; 16]
                     ++ repeat 0 16 ++ [2; 1; 0]) 14)
  ++ [2; 1; 0; 85; 0; 2; 4; 0; 0; 0; 4; 2; 4; 0; 0; 0; 4; 0; 0; 0; 0;
      2; 1; 0; 2; 1; 0; 2; 1; 0; 2; 1; 0].

Definition demo_dns_values : list pyval :=
  PyInt 2 :: dns_entries demo_dns_entries
  ++ [PyInt 0; PyBytes []; PyInt 0; PyInt 0; PyInt 0; PyInt 0].

(** The character codes of a string, a string of ASCII characters, and
    the name array of lines 237-238: the encoded name over an array of
    101 zero bytes. *)
Definition ascii_codes (s : string) : list Z :=
  map (fun c => Z.of_nat (nat_of_ascii c)) (list_ascii_of_string s).

Definition is_ascii (s : string) : Prop := Forall (fun x => x < 128) (ascii_codes s).

Definition apn_name (apn : string) : bytes :=
  ascii_codes apn ++ skipn (String.length apn) (repeat 0 101).

(** The APN request around its two name fields (arguments 96 and 128 of
    line 240): the format and the arguments before the first and between
    the two, and the bytes [pack] makes of them. *)
Definition apn_types_1 : string := substring 0 147 apn_types.
Definition apn_types_2 : string := substring 151 46 apn_types.
Definition apn_args_1 : list pyval := firstn 96 (apn_args []).
Definition apn_args_2 : list pyval := firstn 31 (skipn 97 (apn_args [])).

Definition apn_bytes_1 : bytes :=
  match pack apn_types_1 apn_args_1 with Ok d => d | _ => [] end.

Definition apn_bytes_2 : bytes :=
  match pack apn_types_2 apn_args_2 with Ok d => d | _ => [] end.

(** ** Properties of the [struct] model *)

Section Struct.
Import struct.

Lemma land_ff v : Z.land v 0xff = v mod 256.
Proof. change 0xff with (Z.ones 8). rewrite Z.land_ones by lia. reflexivity. Qed.

Lemma shiftr_8 v : Z.shiftr v 8 = v / 256.
Proof. rewrite Z.shiftr_div_pow2 by lia. reflexivity. Qed.

Lemma le_bytes_length n v : length (le_bytes n v) = n.
Proof. revert v. induction n as [|n IH]; intros v; simpl; [|rewrite IH]; reflexivity. Qed.

Lemma le_bytes_bytes n v : Forall is_byte (le_bytes n v).
Proof.
  revert v. induction n as [|n IH]; intros v; simpl; constructor; [|apply IH].
  rewrite land_ff. unfold is_byte. apply Z.mod_pos_bound. lia.
Qed.

Lemma be_bytes_length n v : length (be_bytes n v) = n.
Proof. unfold be_bytes. rewrite length_rev. apply le_bytes_length. Qed.

Lemma be_bytes_bytes n v : Forall is_byte (be_bytes n v).
Proof. unfold be_bytes. apply Forall_rev, le_bytes_bytes. Qed.

Lemma pow_8_succ n : 2 ^ (8 * Z.of_nat (S n)) = 256 * 2 ^ (8 * Z.of_nat n).
Proof.
  replace (8 * Z.of_nat (S n)) with (8 + 8 * Z.of_nat n) by lia.
  rewrite Z.pow_add_r by lia. reflexivity.
Qed.

Lemma le_value_le_bytes n v : le_value (le_bytes n v) = v mod 2 ^ (8 * Z.of_nat n).
Proof.
  revert v. induction n as [|n IH]; intros v.
  - simpl. rewrite Z.mod_1_r. reflexivity.
  - cbn [le_bytes le_value]. rewrite IH, land_ff, shiftr_8, pow_8_succ.
    rewrite Z.rem_mul_r by lia. reflexivity.
Qed.

Lemma in_range_spec n v : in_range n v = true <-> 0 <= v < 2 ^ (8 * Z.of_nat n).
Proof. unfold in_range. rewrite andb_true_iff, Z.leb_le, Z.ltb_lt. reflexivity. Qed.

Lemma le_value_in_range n v :
  0 <= v < 2 ^ (8 * Z.of_nat n) -> le_value (le_bytes n v) = v.
Proof. intros H. rewrite le_value_le_bytes. apply Z.mod_small. assumption. Qed.

Lemma be_value_in_range n v :
  0 <= v < 2 ^ (8 * Z.of_nat n) -> be_value (be_bytes n v) = v.
Proof.
  intros H. unfold be_value, be_bytes. rewrite rev_involutive.
  apply le_value_in_range. assumption.
Qed.

Lemma pack_uint_ok big n v :
  0 <= v < 2 ^ (8 * Z.of_nat n) ->
  pack_uint big n v = Ok (if big then be_bytes n v else le_bytes n v).
Proof.
  intros H. unfold pack_uint. apply in_range_spec in H. rewrite H. reflexivity.
Qed.

Lemma pack_uint_inv big n v b :
  pack_uint big n v = Ok b ->
  0 <= v < 2 ^ (8 * Z.of_nat n) /\ b = (if big then be_bytes n v else le_bytes n v).
Proof.
  unfold pack_uint. destruct (in_range n v) eqn:E; [|discriminate].
  apply in_range_spec in E. intros [= <-]. split; [assumption | reflexivity].
Qed.

Lemma unpack_le_L_le_bytes v :
  0 <= v < 2 ^ 32 -> unpack_le_L (le_bytes 4 v) = Ok v.
Proof.
  intros H. unfold unpack_le_L. rewrite le_bytes_length. simpl Nat.eqb. cbv iota.
  rewrite (le_value_in_range 4) by (simpl; lia). reflexivity.
Qed.

Lemma unpack_be_L_be_bytes v :
  0 <= v < 2 ^ 32 -> unpack_be_L (be_bytes 4 v) = Ok v.
Proof.
  intros H. unfold unpack_be_L. rewrite be_bytes_length. simpl Nat.eqb. cbv iota.
  rewrite (be_value_in_range 4) by (simpl; lia). reflexivity.
Qed.

Lemma lor_u32 a b : 0 <= a < 2 ^ 32 -> 0 <= b < 2 ^ 32 -> 0 <= Z.lor a b < 2 ^ 32.
Proof.
  intros Ha Hb. split; [apply Z.lor_nonneg; lia|].
  destruct (Z.eq_dec (Z.lor a b) 0) as [->|Hne]; [lia|].
  assert (0 <= Z.lor a b) by (apply Z.lor_nonneg; lia).
  apply Z.log2_lt_pow2; [lia|]. rewrite Z.log2_lor by lia.
  assert (La : Z.log2 a < 32).
  { destruct (Z.eq_dec a 0) as [->|]; [simpl; lia|]. apply Z.log2_lt_pow2; lia. }
  assert (Lb : Z.log2 b < 32).
  { destruct (Z.eq_dec b 0) as [->|]; [simpl; lia|]. apply Z.log2_lt_pow2; lia. }
  lia.
Qed.

Lemma len_app {A} (l r : list A) : len (l ++ r) = len l + len r.
Proof. unfold len. rewrite length_app. lia. Qed.

Lemma len_nonneg {A} (l : list A) : 0 <= len l.
Proof. unfold len. lia. Qed.

Lemma len_le_bytes n v : len (le_bytes n v) = Z.of_nat n.
Proof. unfold len. rewrite le_bytes_length. reflexivity. Qed.

Lemma len_be_bytes n v : len (be_bytes n v) = Z.of_nat n.
Proof. unfold len. rewrite be_bytes_length. reflexivity. Qed.

End Struct.

(** ** Properties of the frame header *)

Section Header.
Import struct.

Lemma asn_int4_ok v : 0 <= v < 2 ^ 32 -> asn_int4 v = Ok ([2; 4] ++ be_bytes 4 v).
Proof.
  intros H. unfold asn_int4, pack_be_L. rewrite (pack_uint_ok true 4) by (simpl; lia).
  reflexivity.
Qed.

Lemma base_u32 : 0 <= BASE < 2 ^ 32.
Proof. unfold BASE. lia. Qed.

Lemma build_header_ok cmd tid body :
  0 <= cmd < 2 ^ 32 -> 0 <= tid < 2 ^ 32 -> len body + 22 < 2 ^ 32 ->
  build_header cmd tid body = Ok (header_of cmd tid body).
Proof.
  intros Hc Ht Hb. pose proof (len_nonneg body) as Hl.
  pose proof (lor_u32 _ _ base_u32 Ht) as Hw.
  unfold build_header, header_of, pack_le_L, pack_be_L.
  destruct (tid =? 0) eqn:E; simpl negb; cbv iota.
  - replace (len body + 16 + 0) with (len body + 16) by lia.
    rewrite (pack_uint_ok false 4), asn_int4_ok, (pack_uint_ok true 4) by (simpl; lia).
    rewrite asn_int4_ok by lia. cbn [bind].
    rewrite !len_app, len_le_bytes, !len_be_bytes. change (len [2; 4]) with 2.
    replace (_ =? _) with true by (symmetry; apply Z.eqb_eq; lia).
    cbn [py_assert bind]. rewrite !app_nil_r. reflexivity.
  - rewrite (pack_uint_ok false 4), asn_int4_ok, (pack_uint_ok true 4) by (simpl; lia).
    rewrite !asn_int4_ok by lia. cbn [bind].
    rewrite !len_app, len_le_bytes, !len_be_bytes. change (len [2; 4]) with 2.
    replace (_ =? _) with true by (symmetry; apply Z.eqb_eq; lia).
    cbn [py_assert bind]. rewrite <- !app_assoc. reflexivity.
Qed.

Lemma parse_header_layout (A B C D rest : bytes) :
  length A = 4%nat -> length B = 4%nat -> length C = 4%nat -> length D = 4%nat ->
  parse_header (A ++ ([2; 4] ++ B) ++ ([2; 4] ++ C) ++ D ++ rest) =
  (let* a := unpack_le_L A in
   let* b := unpack_be_L B in
   let* c := unpack_be_L C in
   let* d := unpack_be_L D in
   Ok {| l0 := a; l1 := b; code := c; txid := d; body := rest |}).
Proof.
  intros HA HB HC HD.
  destruct A as [|a0 [|a1 [|a2 [|a3 [|]]]]]; try discriminate.
  destruct B as [|b0 [|b1 [|b2 [|b3 [|]]]]]; try discriminate.
  destruct C as [|c0 [|c1 [|c2 [|c3 [|]]]]]; try discriminate.
  destruct D as [|d0 [|d1 [|d2 [|d3 [|]]]]]; try discriminate.
  reflexivity.
Qed.

Lemma parse_build cmd tid body :
  0 <= cmd < 2 ^ 32 -> 0 <= tid < 2 ^ 32 -> len body + 22 < 2 ^ 32 ->
  parse_header (header_of cmd tid body ++ body) =
  Ok {| l0 := len body + 16 + (if tid =? 0 then 0 else 6);
        l1 := len body + 16 + (if tid =? 0 then 0 else 6);
        code := cmd;
        txid := Z.lor BASE tid;
        body := (if tid =? 0 then [] else [2; 4] ++ be_bytes 4 tid) ++ body |}.
Proof.
  intros Hc Ht Hb. pose proof (len_nonneg body) as Hl.
  pose proof (lor_u32 _ _ base_u32 Ht) as Hw.
  unfold header_of. rewrite <- !app_assoc.
  rewrite (app_assoc [2; 4] (be_bytes 4 (len body + _ + _))).
  rewrite (app_assoc [2; 4] (be_bytes 4 cmd)).
  rewrite parse_header_layout by (rewrite ?le_bytes_length, ?be_bytes_length; reflexivity).
  rewrite unpack_le_L_le_bytes, !unpack_be_L_be_bytes by (destruct (tid =? 0); lia).
  reflexivity.
Qed.

Lemma header_of_length cmd tid body :
  len (header_of cmd tid body) = 20 + (if tid =? 0 then 0 else 6).
Proof.
  unfold header_of. destruct (tid =? 0);
    rewrite !len_app, len_le_bytes, !len_be_bytes; change (len [2; 4]) with 2;
    change (len []) with 0; lia.
Qed.

(** C4. Header consistency: for a command code and a transaction
    identifier that fit 32 bits and a body whose frame length fits 32 bits,
    [execute] builds a header, and parsing header + body recovers a total
    length of [len(body) + 16], plus 6 when the identifier is nonzero (in
    both length fields), the command code and the channel tag; that total
    plus 4 is the byte length of header plus body. *)
Theorem header_consistency cmd tid body :
  0 <= cmd < 2 ^ 32 -> 0 <= tid < 2 ^ 32 -> len body + 22 < 2 ^ 32 ->
  exists header f,
    build_header cmd tid body = Ok header /\
    parse_header (header ++ body) = Ok f /\
    l0 f = len body + 16 + (if tid =? 0 then 0 else 6) /\
    l1 f = l0 f /\
    code f = cmd /\
    txid f = Z.lor BASE tid /\
    l0 f + 4 = len header + len body.
Proof.
  intros Hc Ht Hb.
  eexists _, _. split; [apply build_header_ok; assumption|].
  split; [apply parse_build; assumption|]. cbn [l0 l1 code txid].
  repeat split. rewrite header_of_length. lia.
Qed.

Lemma header_consistency_witness :
  exists header f,
    build_header 0x42 (Z.lor BASE 7) [100; 111; 110; 101] = Ok header /\
    parse_header (header ++ [100; 111; 110; 101]) = Ok f /\
    l0 f = len [100; 111; 110; 101] + 16 + (if Z.lor BASE 7 =? 0 then 0 else 6) /\
    l1 f = l0 f /\
    code f = 0x42 /\
    txid f = Z.lor BASE (Z.lor BASE 7) /\
    l0 f + 4 = len header + len [100; 111; 110; 101].
Proof.
  apply (header_consistency 0x42 (Z.lor BASE 7) [100; 111; 110; 101]);
    vm_compute; split; congruence.
Defined.

End Header.

(** ** Properties of the wire codec *)

Section Codec.
Import struct.

Ltac bind_inv H :=
  match type of H with
  | bind ?e _ = Ok _ =>
      let E := fresh "E" in
      destruct e eqn:E; cbn [bind] in H; [|discriminate H..]
  end.

(** *** Generic integers *)

Lemma land_shiftl_byte v b : is_byte b -> Z.land (Z.shiftl v 8) b = 0.
Proof.
  intros Hb. apply Z.bits_inj'. intros n Hn.
  rewrite Z.land_spec, Z.bits_0.
  destruct (Z.lt_ge_cases n 8) as [Hlt|Hge].
  - rewrite Z.shiftl_spec_low by assumption. reflexivity.
  - replace b with (b mod 2 ^ 8) by (apply Z.mod_small; exact Hb).
    rewrite Z.mod_pow2_bits_high by lia. apply andb_false_r.
Qed.

Lemma lor_shiftl_byte v b : is_byte b -> Z.lor (Z.shiftl v 8) b = v * 256 + b.
Proof.
  intros Hb. pose proof (Z.add_lor_land (Z.shiftl v 8) b) as H.
  rewrite land_shiftl_byte in H by assumption.
  rewrite Z.shiftl_mul_pow2 in H |- * by lia. change (2 ^ 8) with 256 in *. lia.
Qed.

Lemma le_value_app l r : le_value (l ++ r) = le_value l + 256 ^ len l * le_value r.
Proof.
  induction l as [|x l IH]; simpl.
  - change (len []) with 0. lia.
  - rewrite IH. unfold len. simpl length. rewrite Nat2Z.inj_succ, Z.pow_succ_r by lia. lia.
Qed.

Lemma be_value_cons b bs : be_value (b :: bs) = b * 256 ^ len bs + be_value bs.
Proof.
  unfold be_value. simpl rev. rewrite le_value_app. simpl.
  unfold len. rewrite length_rev. lia.
Qed.

Lemma take_asn_int_loop_app bs : forall acc rest,
  Forall is_byte bs ->
  take_asn_int_loop (length bs) acc (bs ++ rest)
  = Ok (acc * 256 ^ len bs + be_value bs, rest).
Proof.
  induction bs as [|b bs IH]; intros acc rest Hb.
  - simpl. change (len []) with 0. unfold be_value. simpl. f_equal. f_equal. lia.
  - inversion Hb as [|? ? Hx Hxs]; subst. cbn [length take_asn_int_loop app pop0 bind].
    rewrite IH by assumption. rewrite lor_shiftl_byte by assumption.
    rewrite be_value_cons. unfold len. simpl length.
    rewrite Nat2Z.inj_succ, Z.pow_succ_r by lia. f_equal. f_equal. lia.
Qed.

(** A generic integer of [n] bytes, as the scalar branches and
    [asn_int4] emit it, is read back by [take_asn_int]. *)
Lemma take_asn_int_be_bytes n v rest :
  (n < 256)%nat -> 0 <= v < 2 ^ (8 * Z.of_nat n) ->
  take_asn_int (([2; Z.of_nat n] ++ be_bytes n v) ++ rest) = Ok (v, rest).
Proof.
  intros Hn Hv. unfold take_asn_int. cbn [app pop0 bind Z.eqb Pos.eqb py_assert].
  rewrite Nat2Z.id. rewrite <- (be_bytes_length n v) at 1.
  rewrite take_asn_int_loop_app by apply be_bytes_bytes.
  rewrite be_value_in_range by assumption. reflexivity.
Qed.

(** *** The occupied count *)

Lemma valid_field_loop_done fuel lead tail :
  valid_field_loop fuel 0 lead tail = Ok (lead :: tail).
Proof. destruct fuel; reflexivity. Qed.

Lemma valid_field_loop_fuel fuel : forall remain lead tail,
  0 <= remain < 2 ^ (8 * Z.of_nat fuel) ->
  exists n bs,
    valid_field_loop fuel remain lead tail = Ok (lead + Z.of_nat n :: bs ++ tail) /\
    length bs = n /\ (n <= fuel)%nat /\ Forall is_byte bs.
Proof.
  induction fuel as [|fuel IH]; intros remain lead tail Hr.
  - assert (remain = 0) by (simpl in Hr; lia). subst.
    exists 0%nat, []. simpl. rewrite Z.add_0_r. repeat split; [lia | constructor].
  - destruct (Z.eq_dec remain 0) as [->|Hne].
    + exists 0%nat, []. rewrite valid_field_loop_done, Z.add_0_r.
      repeat split; [lia | constructor].
    + cbn [valid_field_loop]. replace (0 <? remain) with true by (symmetry; apply Z.ltb_lt; lia).
      destruct (IH (Z.shiftr remain 8) (lead + 1) (Z.land remain 0xff :: tail))
        as (n & bs & Hl & Hlen & Hn & Hbs).
      { rewrite shiftr_8. rewrite pow_8_succ in Hr.
        split; [apply Z.div_pos; lia|].
        apply Z.div_lt_upper_bound; lia. }
      exists (S n), (bs ++ [Z.land remain 0xff]). rewrite Hl.
      split; [f_equal; rewrite <- app_assoc; f_equal; lia|].
      split; [rewrite length_app, Hlen; simpl; lia|].
      split; [lia|].
      apply Forall_app; split; [assumption|]. constructor; [|constructor].
      rewrite land_ff. apply Z.mod_pos_bound. lia.
Qed.

Lemma valid_fuel valid :
  0 <= valid -> valid < 2 ^ (8 * Z.of_nat (S (Z.to_nat (Z.log2 valid)))).
Proof.
  intros H. destruct (Z.eq_dec valid 0) as [->|Hne]; [simpl; lia|].
  rewrite Nat2Z.inj_succ, Z2Nat.id by apply Z.log2_nonneg.
  pose proof (Z.log2_nonneg valid) as Hl.
  apply Z.lt_le_trans with (2 ^ Z.succ (Z.log2 valid)); [apply Z.log2_spec; lia|].
  apply Z.pow_le_mono_r; lia.
Qed.

(** The loop of lines 147-150 always ends within its fuel. *)
Lemma valid_field_terminates valid : valid_field_of valid <> OutOfFuel.
Proof.
  unfold valid_field_of. destruct (valid <? 128) eqn:E.
  - unfold pack_B, pack_uint. destruct (in_range 1 valid); discriminate.
  - apply Z.ltb_ge in E.
    destruct (valid_field_loop_fuel (S (Z.to_nat (Z.log2 valid))) valid 0x80 [])
      as (n & bs & Hl & _); [split; [lia | apply valid_fuel; lia]|].
    rewrite Hl. discriminate.
Qed.

Lemma valid_field_short valid :
  0 <= valid < 128 -> valid_field_of valid = Ok [valid].
Proof.
  intros H. unfold valid_field_of. replace (valid <? 128) with true by (symmetry; apply Z.ltb_lt; lia).
  unfold pack_B. rewrite pack_uint_ok by (simpl; lia).
  unfold be_bytes. simpl. rewrite land_ff, Z.mod_small by lia. reflexivity.
Qed.

Lemma valid_field_one_byte valid :
  128 <= valid < 256 -> valid_field_of valid = Ok [0x81; valid].
Proof.
  intros H. unfold valid_field_of. replace (valid <? 128) with false by (symmetry; apply Z.ltb_ge; lia).
  cbn [valid_field_loop]. replace (0 <? valid) with true by (symmetry; apply Z.ltb_lt; lia).
  rewrite shiftr_8, Z.div_small by lia. rewrite valid_field_loop_done.
  rewrite land_ff, Z.mod_small by lia. reflexivity.
Qed.

(** An occupied count that fits 32 bits takes a lead byte and at most
    four length bytes. *)
Lemma valid_field_bytes valid :
  0 <= valid < 2 ^ 32 ->
  exists vf, valid_field_of valid = Ok vf /\ Forall is_byte vf /\ (1 <= length vf <= 5)%nat.
Proof.
  intros H. destruct (Z.lt_ge_cases valid 128) as [Hlt|Hge].
  - exists [valid]. rewrite valid_field_short by lia.
    split; [reflexivity|]. split; [|simpl; lia].
    constructor; [unfold is_byte; lia | constructor].
  - unfold valid_field_of. replace (valid <? 128) with false by (symmetry; apply Z.ltb_ge; lia).
    assert (Hfuel : (4 <= S (Z.to_nat (Z.log2 valid)))%nat).
    { assert (7 <= Z.log2 valid) by (apply Z.log2_le_pow2; lia). lia. }
    assert (Hmono : forall extra remain lead tail,
               valid_field_loop 4 remain lead tail <> OutOfFuel ->
               valid_field_loop (4 + extra) remain lead tail
               = valid_field_loop 4 remain lead tail).
    { assert (Hgen : forall f extra remain lead tail,
                 valid_field_loop f remain lead tail <> OutOfFuel ->
                 valid_field_loop (f + extra) remain lead tail
                 = valid_field_loop f remain lead tail).
      { induction f as [|f IHf]; intros extra remain lead tail Hne.
        - cbn [valid_field_loop] in Hne. destruct (0 <? remain) eqn:E0; [congruence|].
          destruct (0 + extra)%nat; cbn [valid_field_loop]; rewrite E0; reflexivity.
        - cbn [valid_field_loop Nat.add] in *. destruct (0 <? remain); [|reflexivity].
          apply IHf. assumption. }
      intros. apply Hgen. assumption. }
    destruct (valid_field_loop_fuel 4 valid 0x80 []) as (n & bs & Hl & Hlen & Hn & Hbs).
    { change (8 * Z.of_nat 4) with 32. lia. }
    replace (S (Z.to_nat (Z.log2 valid))) with (4 + (S (Z.to_nat (Z.log2 valid)) - 4))%nat by lia.
    rewrite Hmono by (rewrite Hl; discriminate). rewrite Hl.
    eexists. split; [reflexivity|]. rewrite app_nil_r. split.
    + constructor; [unfold is_byte; lia | assumption].
    + simpl. lia.
Qed.

Lemma py_bytes_ok l : Forall is_byte l -> py_bytes l = Ok l.
Proof.
  intros H. unfold py_bytes.
  replace (forallb _ l) with true; [reflexivity|].
  symmetry. apply forallb_forall. intros x Hx.
  rewrite Forall_forall in H. specialize (H x).
  assert (is_byte x) as Hb by (apply H; apply list_elem_of_In; exact Hx).
  unfold is_byte in Hb. apply andb_true_iff. split; [apply Z.leb_le | apply Z.ltb_lt]; lia.
Qed.

Lemma py_bytes_inv l b : py_bytes l = Ok b -> b = l.
Proof. unfold py_bytes. destruct (forallb _ l); [intros [= <-]; reflexivity | discriminate]. Qed.

(** *** Array fields: encoding *)

Lemma py_len_iter val elems : py_iter val = Ok elems -> py_len val = Ok (len elems).
Proof. destruct val; simpl; intros [= <-]; reflexivity. Qed.

Lemma pow_8_pos w : 0 < 2 ^ (8 * Z.of_nat w).
Proof. apply Z.pow_pos_nonneg; lia. Qed.

Lemma pack_native_zero et w : native_size et = Ok w -> pack_native et 0 = Ok (le_bytes w 0).
Proof.
  intros H. unfold pack_native. rewrite H. cbn [bind].
  apply (pack_uint_ok false). pose proof (pow_8_pos w). lia.
Qed.

Lemma pack_native_seq_ok et w elems :
  native_size et = Ok w -> Forall (fits w) elems ->
  pack_native_seq et elems = Ok (flat_map (le_bytes w) elems).
Proof.
  intros Hs. induction 1 as [|x l Hx Hl IH]; cbn [pack_native_seq flat_map].
  - rewrite Hs. reflexivity.
  - unfold pack_native. rewrite Hs. cbn [bind].
    rewrite (pack_uint_ok false) by exact Hx. cbn [bind]. rewrite IH. reflexivity.
Qed.

Lemma pack_native_seq_inv et elems payload :
  pack_native_seq et elems = Ok payload ->
  exists w, native_size et = Ok w /\ Forall (fits w) elems /\
            payload = flat_map (le_bytes w) elems.
Proof.
  revert payload. induction elems as [|x l IH]; intros payload H; cbn [pack_native_seq] in H.
  - bind_inv H. injection H as <-. eexists. split; [reflexivity|]. split; [constructor | reflexivity].
  - unfold pack_native in H. bind_inv H. bind_inv H. injection H as <-.
    destruct (IH _ eq_refl) as (w & Hw & Hf & ->). bind_inv E.
    assert (Heq : a0 = w) by congruence. subst a0.
    apply (pack_uint_inv false) in E. destruct E as [Hx ->].
    exists w. split; [assumption|]. split; [constructor; assumption | reflexivity].
Qed.

Lemma flat_map_length_const {A B} (f : A -> list B) (n : nat) (l : list A) :
  (forall x, length (f x) = n) -> length (flat_map f l) = (n * length l)%nat.
Proof.
  intros H. induction l as [|x l IH]; simpl; [lia|].
  rewrite length_app, H, IH. lia.
Qed.

Lemma len_flat_map_le_bytes w elems :
  len (flat_map (le_bytes w) elems) = Z.of_nat w * len elems.
Proof.
  unfold len. rewrite (flat_map_length_const _ w) by (intros; apply le_bytes_length). lia.
Qed.

Lemma flat_map_le_bytes_1 elems :
  Forall (fits 1) elems -> flat_map (le_bytes 1) elems = elems.
Proof.
  induction 1 as [|x l Hx Hl IH]; [reflexivity|].
  change (flat_map (le_bytes 1) (x :: l)) with (le_bytes 1 x ++ flat_map (le_bytes 1) l).
  rewrite IH. cbn [le_bytes app]. unfold fits in Hx. simpl in Hx.
  rewrite land_ff, Z.mod_small by lia. reflexivity.
Qed.

Lemma field_type_of_inv w tag :
  field_type_of (Z.of_nat w) = Ok tag ->
  (w = 1%nat /\ tag = 0x55) \/ (w = 2%nat /\ tag = 0x56) \/ (w = 4%nat /\ tag = 0x57).
Proof.
  unfold field_type_of.
  destruct (Z.of_nat w =? 1) eqn:E1; [apply Z.eqb_eq in E1; intros [= <-]; left; lia|].
  destruct (Z.of_nat w =? 2) eqn:E2; [apply Z.eqb_eq in E2; intros [= <-]; right; left; lia|].
  destruct (Z.of_nat w =? 4) eqn:E4; [apply Z.eqb_eq in E4; intros [= <-]; right; right; lia|].
  discriminate.
Qed.

Lemma pack_B_field_type w tag : field_type_of (Z.of_nat w) = Ok tag -> pack_B tag = Ok [tag].
Proof.
  intros H. destruct (field_type_of_inv _ _ H) as [[_ ->]|[[_ ->]|[_ ->]]]; reflexivity.
Qed.

Lemma pack_LL_ok count padding :
  0 <= count < 2 ^ 32 -> 0 <= padding < 2 ^ 32 ->
  pack_LL count padding = Ok (([2; 4] ++ be_bytes 4 count) ++ [2; 4] ++ be_bytes 4 padding).
Proof.
  intros Hc Hp. unfold pack_LL, pack_be_L.
  rewrite !(pack_uint_ok true 4) by (simpl; lia). reflexivity.
Qed.

Lemma pack_LL_inv count padding ll :
  pack_LL count padding = Ok ll ->
  0 <= count < 2 ^ 32 /\ 0 <= padding < 2 ^ 32 /\
  ll = ([2; 4] ++ be_bytes 4 count) ++ [2; 4] ++ be_bytes 4 padding.
Proof.
  unfold pack_LL, pack_be_L. intros H. bind_inv H. bind_inv H. injection H as <-.
  apply (pack_uint_inv true) in E, E0. destruct E as [Hc ->], E0 as [Hp ->].
  simpl in Hc, Hp. repeat split; lia.
Qed.

Lemma _pack_string_ok val elems fmt ds rest cap et w tag :
  pop_digits fmt = (ds, rest) -> py_int ds = Ok cap ->
  py_iter val = Ok elems -> len elems <= cap ->
  native_size et = Ok w -> field_type_of (Z.of_nat w) = Ok tag ->
  Forall (fits w) elems -> cap * Z.of_nat w < 2 ^ 32 ->
  exists vf,
    valid_field_of (len elems) = Ok vf /\ Forall is_byte vf /\
    (1 <= length vf <= 5)%nat /\
    _pack_string val fmt et = Ok (field_of tag vf cap w elems, rest).
Proof.
  intros Hpop Hint Hiter Hle Hsize Htag Hfits Hcap.
  pose proof (len_nonneg elems) as Hl.
  assert (Hw : 1 <= Z.of_nat w <= 4)
    by (destruct (field_type_of_inv _ _ Htag) as [[-> _]|[[-> _]|[-> _]]]; lia).
  destruct (valid_field_bytes (len elems)) as (vf & Hvf & Hb & Hlen); [nia|].
  exists vf. repeat split; try assumption; try lia.
  unfold _pack_string. rewrite Hpop, Hint. cbn [bind].
  rewrite (py_len_iter _ _ Hiter). cbn [bind].
  replace (len elems <=? cap) with true by (symmetry; apply Z.leb_le; lia).
  cbn [py_assert bind]. rewrite (pack_native_zero _ _ Hsize). cbn [bind].
  rewrite len_le_bytes, Htag. cbn [bind]. rewrite Hiter. cbn [bind].
  rewrite (pack_native_seq_ok _ _ _ Hsize Hfits). cbn [bind].
  rewrite Hvf. cbn [bind]. rewrite (pack_B_field_type _ _ Htag). cbn [bind].
  rewrite (py_bytes_ok _ Hb). cbn [bind].
  rewrite pack_LL_ok by nia. reflexivity.
Qed.

Lemma _pack_string_too_long val n fmt ds rest cap et :
  pop_digits fmt = (ds, rest) -> py_int ds = Ok cap ->
  py_len val = Ok n -> cap < n ->
  _pack_string val fmt et = Raise AssertionError.
Proof.
  intros Hpop Hint Hlen Hlt. unfold _pack_string. rewrite Hpop, Hint. cbn [bind].
  rewrite Hlen. cbn [bind].
  replace (n <=? cap) with false by (symmetry; apply Z.leb_gt; lia). reflexivity.
Qed.

Lemma len_repeat {A} (x : A) n : len (repeat x n) = Z.of_nat n.
Proof. unfold len. rewrite repeat_length. reflexivity. Qed.



(** C8. Extended occupied-count form: a value of exactly 130 one-byte
    elements, under a capacity of at least 130 that fits 32 bits, is
    encoded as the type tag 0x55, the lead byte 0x81, one length byte 130,
    and the rest of the field. *)
Theorem extended_count_form val elems fmt ds rest cap :
  pop_digits fmt = (ds, rest) -> py_int ds = Ok cap -> py_iter val = Ok elems ->
  len elems = 130 -> 130 <= cap -> cap < 2 ^ 32 -> Forall (fits 1) elems ->
  exists tail, _pack_string val fmt "B" = Ok ([0x55; 0x81; 130] ++ tail, rest).
Proof.
  intros Hpop Hint Hiter Hlen Hle Hcap Hfits.
  destruct (_pack_string_ok val elems fmt ds rest cap "B" 1 0x55)
    as (vf & Hvf & _ & _ & Hp); try assumption; try reflexivity; try lia.
  rewrite Hlen in Hvf. rewrite valid_field_one_byte in Hvf by lia.
  injection Hvf as <-. rewrite Hp. unfold field_of.
  eexists. cbn [app]. reflexivity.
Qed.

Lemma extended_count_form_witness :
  exists tail,
    _pack_string (PyBytes (repeat 7 130)) ["2"; "6"; "0"; "L"] "B"
    = Ok ([0x55; 0x81; 130] ++ tail, ["L"]).
Proof.
  apply (extended_count_form (PyBytes (repeat 7 130)) (repeat 7 130)
           ["2"; "6"; "0"; "L"] ["2"; "6"; "0"] ["L"] 260);
    try reflexivity; try lia.
  apply Forall_forall. intros x Hx. apply list_elem_of_In, repeat_spec in Hx.
  subst x. unfold fits. simpl. lia.
Defined.

(** C9. The wire size of an array field follows the capacity: for a
    well-formed value of fewer than 128 elements, no longer than the
    capacity, the field is the type tag, one count byte, the two generic
    integers of 6 bytes each, and the packed elements followed by zero
    bytes up to capacity times element width; 14 bytes plus capacity
    times element width in all. *)
Theorem wire_size_by_capacity val elems fmt ds rest cap et w tag :
  pop_digits fmt = (ds, rest) -> py_int ds = Ok cap -> py_iter val = Ok elems ->
  len elems <= cap -> len elems < 128 ->
  native_size et = Ok w -> field_type_of (Z.of_nat w) = Ok tag ->
  Forall (fits w) elems -> cap * Z.of_nat w < 2 ^ 32 ->
  exists slot,
    _pack_string val fmt et
    = Ok ([tag] ++ [len elems]
            ++ ([2; 4] ++ be_bytes 4 (cap * Z.of_nat w))
            ++ ([2; 4] ++ be_bytes 4 ((cap - len elems) * Z.of_nat w))
            ++ slot, rest) /\
    slot = flat_map (le_bytes w) elems
             ++ repeat 0 (Z.to_nat ((cap - len elems) * Z.of_nat w)) /\
    len slot = cap * Z.of_nat w /\
    len ([tag] ++ [len elems]
            ++ ([2; 4] ++ be_bytes 4 (cap * Z.of_nat w))
            ++ ([2; 4] ++ be_bytes 4 ((cap - len elems) * Z.of_nat w))
            ++ slot) = 1 + 1 + 12 + cap * Z.of_nat w.
Proof.
  intros Hpop Hint Hiter Hle Hlt Hsize Htag Hfits Hcap.
  pose proof (len_nonneg elems) as Hl.
  destruct (_pack_string_ok val elems fmt ds rest cap et w tag)
    as (vf & Hvf & _ & _ & Hp); try assumption.
  rewrite valid_field_short in Hvf by lia. injection Hvf as <-.
  eexists. split; [|split; [reflexivity|]].
  - rewrite Hp. unfold field_of. rewrite <- !app_assoc. reflexivity.
  - assert (Hslot : len (flat_map (le_bytes w) elems
                          ++ repeat 0 (Z.to_nat ((cap - len elems) * Z.of_nat w)))
                    = cap * Z.of_nat w).
    { rewrite len_app, len_flat_map_le_bytes, len_repeat. nia. }
    split; [exact Hslot|].
    rewrite !len_app, !len_be_bytes, <- len_app, Hslot.
    change (len [tag]) with 1. change (len [len elems]) with 1.
    change (len [2; 4]) with 2. lia.
Qed.

Lemma wire_size_by_capacity_witness :
  exists slot,
    _pack_string (PyList [1; 2; 3]) ["5"] "H"
    = Ok ([0x56] ++ [len [1; 2; 3]]
            ++ ([2; 4] ++ be_bytes 4 (5 * Z.of_nat 2))
            ++ ([2; 4] ++ be_bytes 4 ((5 - len [1; 2; 3]) * Z.of_nat 2))
            ++ slot, []) /\
    slot = flat_map (le_bytes 2) [1; 2; 3]
             ++ repeat 0 (Z.to_nat ((5 - len [1; 2; 3]) * Z.of_nat 2)) /\
    len slot = 5 * Z.of_nat 2 /\
    len ([0x56] ++ [len [1; 2; 3]]
            ++ ([2; 4] ++ be_bytes 4 (5 * Z.of_nat 2))
            ++ ([2; 4] ++ be_bytes 4 ((5 - len [1; 2; 3]) * Z.of_nat 2))
            ++ slot) = 1 + 1 + 12 + 5 * Z.of_nat 2.
Proof.
  apply (wire_size_by_capacity (PyList [1; 2; 3]) [1; 2; 3] ["5"] ["5"] [] 5 "H" 2 0x56);
    try reflexivity; try (vm_compute; congruence).
  repeat constructor; vm_compute; congruence.
Defined.

(** *** Array fields: decoding *)



(** *** Round trip *)

Lemma land_128_small n : 0 <= n < 128 -> Z.land n 0x80 = 0.
Proof.
  intros H.
  assert (Hall : forallb (fun i => Z.land i 0x80 =? 0) (range 0 128) = true)
    by (vm_compute; reflexivity).
  rewrite forallb_forall in Hall. apply Z.eqb_eq, Hall.
  unfold range. apply in_map_iff. exists (Z.to_nat n). split; [lia|]. apply in_seq. lia.
Qed.

Lemma take_valid_of n vf rest :
  0 <= n < 256 -> valid_field_of n = Ok vf ->
  take_valid ([0x55] ++ vf ++ rest) = Ok (n, rest).
Proof.
  intros Hn Hvf. destruct (Z.lt_ge_cases n 128) as [Hlt|Hge].
  - rewrite valid_field_short in Hvf by lia. injection Hvf as <-.
    unfold take_valid. cbn [app pop0 bind]. change (85 =? 85) with true.
    cbn [orb py_assert bind]. rewrite land_128_small by lia. reflexivity.
  - rewrite valid_field_one_byte in Hvf by lia. injection Hvf as <-.
    unfold take_valid. cbn [app pop0 bind]. reflexivity.
Qed.

Lemma unpack_string_field cap elems vf rest :
  Forall (fits 1) elems -> len elems <= cap -> cap < 2 ^ 32 -> len elems < 256 ->
  valid_field_of (len elems) = Ok vf ->
  unpack_string (field_of 0x55 vf cap 1 elems ++ rest) = Ok (elems, rest).
Proof.
  intros Hf Hle Hcap Hshort Hvf. pose proof (len_nonneg elems) as Hl.
  unfold unpack_string, field_of. rewrite <- !app_assoc.
  rewrite take_valid_of with (n := len elems) by (assumption || lia). cbn [bind].
  rewrite (app_assoc [2; 4] (be_bytes 4 (cap * Z.of_nat 1))).
  rewrite (take_asn_int_be_bytes 4) by (simpl; lia). cbn [bind].
  rewrite (app_assoc [2; 4] (be_bytes 4 ((cap - len elems) * Z.of_nat 1))).
  rewrite (take_asn_int_be_bytes 4) by (simpl; lia). cbn [bind].
  unfold field_size_of.
  replace (cap * Z.of_nat 1 =? len elems + (cap - len elems) * Z.of_nat 1) with true
    by (symmetry; apply Z.eqb_eq; lia).
  assert (Hfs : (if negb (cap * Z.of_nat 1 =? 0)
                 then let* _ := py_assert true in Ok (cap * Z.of_nat 1)
                 else Ok (len elems)) = Ok (if negb (cap * Z.of_nat 1 =? 0)
                                             then cap * Z.of_nat 1 else len elems))
    by (destruct (negb _); reflexivity).
  rewrite Hfs. cbn [bind]. rewrite flat_map_le_bytes_1 by assumption.
  f_equal. f_equal.
  - apply take_app_length'. unfold len. lia.
  - rewrite app_assoc. apply drop_app_length'.
    rewrite length_app, repeat_length. unfold len in *. lia.
Qed.

Lemma _pack_string_B_inv val fmt field fmt' :
  _pack_string val fmt "B" = Ok (field, fmt') ->
  exists cap elems vf,
    fmt' = snd (pop_digits fmt) /\ py_iter val = Ok elems /\
    len elems <= cap /\ cap < 2 ^ 32 /\ Forall (fits 1) elems /\
    valid_field_of (len elems) = Ok vf /\
    field = field_of 0x55 vf cap 1 elems.
Proof.
  intros H. pose proof H as H'. unfold _pack_string in H.
  destruct (pop_digits fmt) as [ds rest] eqn:Hpop.
  bind_inv H. rename a into cap. bind_inv H. rename a into n.
  bind_inv H. bind_inv H. bind_inv H. bind_inv H. rename a2 into elems.
  bind_inv H. bind_inv H. bind_inv H. bind_inv H. bind_inv H.
  apply pack_LL_inv in E9. destruct E9 as (Hc & _ & _).
  apply pack_native_seq_inv in E5. destruct E5 as (w & Hw & Hf & _).
  injection Hw as <-.
  assert (Hn : n = len elems) by (destruct val; simpl in E0, E4; congruence). subst n.
  assert (Hle : len elems <= cap).
  { unfold py_assert in E1. destruct (len elems <=? cap) eqn:El; [|discriminate].
    apply Z.leb_le. assumption. }
  assert (Hz : len a0 = 1) by (injection E2 as <-; reflexivity).
  rewrite Hz in Hc.
  destruct (_pack_string_ok val elems fmt ds rest cap "B" 1 0x55)
    as (vf & Hvf & _ & _ & Hp); try assumption; try reflexivity; try lia.
  rewrite Hp in H'. injection H' as <- <-.
  exists cap, elems, vf. repeat split; try assumption; lia.
Qed.

Lemma pop_digits_unpack_format fmt : unpack_format (snd (pop_digits fmt)) = unpack_format fmt.
Proof.
  induction fmt as [|c r IH]; [reflexivity|].
  cbn [pop_digits unpack_format]. destruct (is_digit c) eqn:E.
  - destruct (pop_digits r) as [ds rest]. exact IH.
  - cbn [snd unpack_format]. rewrite E. reflexivity.
Qed.

Lemma pop_digits_byte_arrays fmt : byte_arrays (snd (pop_digits fmt)) = byte_arrays fmt.
Proof.
  induction fmt as [|c r IH]; [reflexivity|].
  cbn [pop_digits byte_arrays]. destruct (is_digit c) eqn:E.
  - destruct (pop_digits r) as [ds rest]. cbn [snd] in *.
    destruct (Ascii.eqb c "S") eqn:Ec; [|exact IH].
    apply Ascii.eqb_eq in Ec. subst c. discriminate.
  - reflexivity.
Qed.

Lemma pack_loop_out fuel : forall fmt args out,
  pack_loop fuel fmt args out
  = (let* r := pack_loop fuel fmt args [] in Ok (out ++ r)).
Proof.
  induction fuel as [|fuel IH]; intros fmt args out.
  - destruct fmt, args; cbn [pack_loop bind]; rewrite ?app_nil_r; reflexivity.
  - destruct fmt as [|ch fmt]; [destruct args; cbn [pack_loop bind]; rewrite ?app_nil_r; reflexivity|].
    destruct args as [|arg args]; [reflexivity|].
    cbn [pack_loop].
    assert (Hstep : forall (r : result bytes) fmt',
               (let* b := r in pack_loop fuel fmt' args (out ++ b))
               = (let* x := (let* b := r in pack_loop fuel fmt' args ([] ++ b)) in
                  Ok (out ++ x))).
    { intros [b| |] fmt'; cbn [bind]; [|reflexivity..].
      rewrite (IH fmt' args (out ++ b)), (IH fmt' args ([] ++ b)).
      destruct (pack_loop fuel fmt' args []); cbn [bind app]; [|reflexivity..].
      rewrite app_assoc. reflexivity. }
    assert (Hstr : forall et fmt0,
               (let* (field, fmt') := _pack_string arg fmt0 et in
                pack_loop fuel fmt' args (out ++ field))
               = (let* x := (let* (field, fmt') := _pack_string arg fmt0 et in
                             pack_loop fuel fmt' args ([] ++ field)) in
                  Ok (out ++ x))).
    { intros et fmt0. destruct (_pack_string arg fmt0 et) as [[field fmt']| |];
        cbn [bind]; [|reflexivity..].
      rewrite (IH fmt' args (out ++ field)), (IH fmt' args ([] ++ field)).
      destruct (pack_loop fuel fmt' args []); cbn [bind app]; [|reflexivity..].
      rewrite app_assoc. reflexivity. }
    destruct (pack_scalar ch arg) as [r|]; [apply Hstep|].
    destruct (Ascii.eqb ch "s"); [apply Hstr|].
    destruct (Ascii.eqb ch "S"); [|reflexivity].
    destruct fmt as [|et fmt]; [reflexivity|]. apply Hstr.
Qed.

Lemma unpack_loop_n fmt data out :
  unpack_loop ("n" :: fmt) data out
  = (let* (val, data) := take_asn_int data in unpack_loop fmt data (out ++ [PyInt val])).
Proof. reflexivity. Qed.

Lemma unpack_loop_s fmt data out :
  unpack_loop ("s" :: fmt) data out
  = (let* (payload, data) := unpack_string data in
     unpack_loop fmt data (out ++ [PyBytes payload])).
Proof. reflexivity. Qed.

Lemma pack_scalar_inv ch arg b :
  pack_scalar ch arg = Some (Ok b) ->
  exists n v,
    arg = PyInt v /\ (n < 256)%nat /\ fits n v /\
    b = [2; Z.of_nat n] ++ be_bytes n v /\
    (forall r, unpack_format (ch :: r) = "n" :: unpack_format r) /\
    (forall r, byte_arrays (ch :: r) = byte_arrays r).
Proof.
  unfold pack_scalar, pack_B, pack_be_H, pack_be_L. intros H.
  destruct (Ascii.eqb ch "B") eqn:EB;
    [|destruct (Ascii.eqb ch "H") eqn:EH;
      [|destruct (Ascii.eqb ch "L") eqn:EL; [|discriminate]]];
    match goal with E : Ascii.eqb ch _ = true |- _ => apply Ascii.eqb_eq in E; subst ch end;
    injection H as H; destruct arg as [v| |]; cbn [py_index bind] in H; try discriminate;
    bind_inv H; injection H as <-;
    apply (pack_uint_inv true) in E; destruct E as [Hv ->];
    [exists 1%nat, v | exists 2%nat, v | exists 4%nat, v];
    repeat split; try (exact (proj1 Hv)); try (exact (proj2 Hv)); lia.
Qed.

Lemma codec_value_bytes arg elems :
  codec_value arg -> py_iter arg = Ok elems -> arg = PyBytes elems /\ len elems < 256.
Proof.
  destruct arg; simpl; intros Hc H; try discriminate; try contradiction.
  injection H as <-. split; [reflexivity | assumption].
Qed.

Lemma roundtrip_loop fuel : forall fmt args data out,
  pack_loop fuel fmt args [] = Ok data ->
  byte_arrays fmt = true -> Forall codec_value args ->
  unpack_loop (unpack_format fmt) data out = Ok (out ++ args).
Proof.
  induction fuel as [|fuel IH]; intros fmt args data out H Hba Hargs.
  - destruct fmt; [|discriminate]. destruct args; [|discriminate].
    injection H as <-. simpl. rewrite app_nil_r. reflexivity.
  - destruct fmt as [|ch fmt].
    { destruct args; [|discriminate]. injection H as <-. simpl.
      rewrite app_nil_r. reflexivity. }
    destruct args as [|arg args]; [discriminate|].
    inversion Hargs as [|? ? Harg Hrest]; subst.
    cbn [pack_loop] in H.
    assert (Hfield : forall fmt0 field fmt',
               _pack_string arg fmt0 "B" = Ok (field, fmt') ->
               pack_loop fuel fmt' args ([] ++ field) = Ok data ->
               byte_arrays fmt0 = true ->
               unpack_loop ("s" :: unpack_format fmt0) data out = Ok (out ++ arg :: args)).
    { intros fmt0 field fmt' Hp Hl Hb.
      apply _pack_string_B_inv in Hp.
      destruct Hp as (cap & elems & vf & -> & Hit & Hle & Hcap & Hf & Hvf & ->).
      destruct (codec_value_bytes _ _ Harg Hit) as [-> Hshort].
      rewrite pack_loop_out in Hl. bind_inv Hl.
      assert (Hd : data = field_of 0x55 vf cap 1 elems ++ a)
        by (injection Hl as <-; reflexivity).
      clear Hl. subst data. rewrite unpack_loop_s.
      rewrite unpack_string_field by assumption. cbn [bind].
      rewrite <- pop_digits_unpack_format.
      rewrite (IH _ _ _ _ E) by (rewrite ?pop_digits_byte_arrays; assumption).
      rewrite <- app_assoc. reflexivity. }
    destruct (pack_scalar ch arg) as [r|] eqn:Es.
    + destruct r as [b| |]; cbn [bind] in H; try discriminate.
      apply pack_scalar_inv in Es.
      destruct Es as (n & v & -> & Hn & Hv & -> & Hfmt & Hbyte).
      rewrite pack_loop_out in H. bind_inv H.
      assert (Hd : data = ([2; Z.of_nat n] ++ be_bytes n v) ++ a)
        by (injection H as <-; reflexivity).
      clear H. subst data. rewrite Hfmt, unpack_loop_n.
      rewrite (take_asn_int_be_bytes n v a Hn Hv). cbn [bind].
      rewrite Hbyte in Hba. rewrite (IH _ _ _ _ E) by assumption.
      rewrite <- app_assoc. reflexivity.
    + destruct (Ascii.eqb ch "s") eqn:Ech.
      { apply Ascii.eqb_eq in Ech. subst ch. bind_inv H. destruct a as [field fmt'].
        apply (Hfield fmt field fmt'); assumption. }
      destruct (Ascii.eqb ch "S") eqn:EchS; [|discriminate].
      apply Ascii.eqb_eq in EchS. subst ch.
      destruct fmt as [|et fmt0]; [discriminate|].
      cbn [byte_arrays] in Hba. change (Ascii.eqb "S" "S") with true in Hba. cbv iota in Hba.
      apply andb_true_iff in Hba. destruct Hba as [Het Hba].
      apply Ascii.eqb_eq in Het. subst et.
      bind_inv H. destruct a as [field fmt'].
      change (unpack_format ("S" :: "B" :: fmt0)) with ("s" :: unpack_format fmt0).
      apply (Hfield fmt0 field fmt'); assumption.
Qed.

(** [pack] never runs out of fuel: every iteration pops a character. *)
Lemma pop_digits_length fmt : (length (snd (pop_digits fmt)) <= length fmt)%nat.
Proof.
  induction fmt as [|c r IH]; [simpl; lia|].
  cbn [pop_digits]. destruct (is_digit c); [|simpl; lia].
  destruct (pop_digits r). cbn [snd length] in *. lia.
Qed.

Lemma _pack_string_rest val fmt et field fmt' :
  _pack_string val fmt et = Ok (field, fmt') -> fmt' = snd (pop_digits fmt).
Proof.
  unfold _pack_string. destruct (pop_digits fmt) as [ds rest]. intros H.
  repeat bind_inv H. injection H as _ <-. reflexivity.
Qed.

Lemma bind_fuel {A B} (e : result A) (k : A -> result B) :
  e <> OutOfFuel -> (forall a, e = Ok a -> k a <> OutOfFuel) -> bind e k <> OutOfFuel.
Proof. destruct e; cbn [bind]; intros He Hk; [apply Hk; reflexivity | discriminate | congruence]. Qed.

Lemma pack_uint_fuel big n v : pack_uint big n v <> OutOfFuel.
Proof. unfold pack_uint. destruct (in_range n v); discriminate. Qed.

Lemma native_size_fuel c : native_size c <> OutOfFuel.
Proof. unfold native_size. repeat (destruct (Ascii.eqb c _); try discriminate). Qed.

Lemma pack_native_fuel c v : pack_native c v <> OutOfFuel.
Proof.
  unfold pack_native. apply bind_fuel; [apply native_size_fuel|].
  intros n _. apply pack_uint_fuel.
Qed.

Lemma pack_native_seq_fuel c vals : pack_native_seq c vals <> OutOfFuel.
Proof.
  induction vals as [|v r IH]; cbn [pack_native_seq].
  - apply bind_fuel; [apply native_size_fuel | discriminate].
  - apply bind_fuel; [apply pack_native_fuel|]. intros b _.
    apply bind_fuel; [exact IH | discriminate].
Qed.

Lemma py_int_fuel ds : py_int ds <> OutOfFuel.
Proof. destruct ds; discriminate. Qed.

Lemma py_len_fuel val : py_len val <> OutOfFuel.
Proof. destruct val; discriminate. Qed.

Lemma py_iter_fuel val : py_iter val <> OutOfFuel.
Proof. destruct val; discriminate. Qed.

Lemma py_index_fuel val : py_index val <> OutOfFuel.
Proof. destruct val; discriminate. Qed.

Lemma py_assert_fuel b : py_assert b <> OutOfFuel.
Proof. destruct b; discriminate. Qed.

Lemma py_bytes_fuel l : py_bytes l <> OutOfFuel.
Proof. unfold py_bytes. destruct (forallb _ l); discriminate. Qed.

Lemma field_type_of_fuel n : field_type_of n <> OutOfFuel.
Proof. unfold field_type_of. repeat (destruct (n =? _); try discriminate). Qed.

Lemma pack_LL_fuel count padding : pack_LL count padding <> OutOfFuel.
Proof.
  unfold pack_LL, pack_be_L. apply bind_fuel; [apply pack_uint_fuel|]. intros a _.
  apply bind_fuel; [apply pack_uint_fuel | discriminate].
Qed.

Create HintDb fuel.
#[local] Hint Resolve pack_uint_fuel native_size_fuel pack_native_fuel pack_native_seq_fuel
  py_int_fuel py_len_fuel py_iter_fuel py_index_fuel py_assert_fuel py_bytes_fuel
  field_type_of_fuel pack_LL_fuel valid_field_terminates : fuel.

Ltac no_fuel :=
  repeat (apply bind_fuel; [solve [auto with fuel] | intros ? _]); try discriminate.

Lemma _pack_string_terminates val fmt et : _pack_string val fmt et <> OutOfFuel.
Proof.
  unfold _pack_string, pack_B. destruct (pop_digits fmt) as [ds rest]. no_fuel.
Qed.

Lemma pack_scalar_fuel ch arg r : pack_scalar ch arg = Some r -> r <> OutOfFuel.
Proof.
  unfold pack_scalar, pack_B, pack_be_H, pack_be_L.
  repeat (destruct (Ascii.eqb ch _); [intros [= <-]; no_fuel|]). discriminate.
Qed.

Lemma pack_loop_terminates fuel : forall fmt args out,
  (length fmt <= fuel)%nat -> pack_loop fuel fmt args out <> OutOfFuel.
Proof.
  induction fuel as [|fuel IH]; intros fmt args out Hlen.
  - destruct fmt; [|simpl in Hlen; lia]. destruct args; discriminate.
  - destruct fmt as [|ch fmt]; [destruct args; discriminate|].
    destruct args as [|arg args]; [discriminate|]. cbn [pack_loop]. cbn [length] in Hlen.
    assert (Hstr : forall et fmt0, (length fmt0 <= fuel)%nat ->
               (let* (field, fmt') := _pack_string arg fmt0 et in
                pack_loop fuel fmt' args (out ++ field)) <> OutOfFuel).
    { intros et fmt0 Hl. pose proof (_pack_string_terminates arg fmt0 et) as Ht.
      destruct (_pack_string arg fmt0 et) as [[field fmt']| |] eqn:E; cbn [bind];
        try discriminate; [|congruence].
      apply _pack_string_rest in E. subst fmt'. apply IH.
      pose proof (pop_digits_length fmt0). lia. }
    destruct (pack_scalar ch arg) as [r|] eqn:Es.
    + pose proof (pack_scalar_fuel _ _ _ Es) as Hr.
      destruct r; cbn [bind]; try discriminate; [|congruence]. apply IH. lia.
    + destruct (Ascii.eqb ch "s"); [apply Hstr; lia|].
      destruct (Ascii.eqb ch "S"); [|discriminate].
      destruct fmt as [|et fmt0]; [discriminate|]. apply Hstr. simpl in Hlen. lia.
Qed.

Lemma pack_terminates fmt args : pack fmt args <> OutOfFuel.
Proof. unfold pack. apply pack_loop_terminates. lia. Qed.

(** Line 154 calls [pack] itself; [pack_LL] is that call. *)
Lemma pack_LL_spec count padding :
  pack "LL" [PyInt count; PyInt padding] = pack_LL count padding.
Proof.
  assert (Hs : forall v, pack_scalar "L" (PyInt v)
                         = Some (let* b := pack_be_L v in Ok ([2; 4] ++ b)))
    by reflexivity.
  unfold pack, pack_LL. cbn [list_ascii_of_string length pack_loop]. rewrite Hs.
  destruct (pack_be_L count) as [a| |]; cbn [bind pack_loop]; try reflexivity.
  rewrite Hs. destruct (pack_be_L padding) as [b| |]; cbn [bind pack_loop]; reflexivity.
Qed.

(** C2, as the specification states it, fails: an array of two 16-bit
    elements is encoded, and decoding gives back the four packed bytes,
    which are not the two values. *)
Lemma typed_array_decodes_to_bytes :
  exists data,
    pack "SH2" [PyList [1; 2]] = Ok data /\
    unpack (unpack_format_of "SH2") data = Ok [PyBytes [1; 0; 2; 0]] /\
    unpack (unpack_format_of "SH2") data <> Ok [PyList [1; 2]] /\
    unpack (unpack_format_of "SH2") data <> Ok [PyBytes [1; 2]].
Proof.
  eexists. split; [vm_compute; reflexivity|].
  split; [vm_compute; reflexivity|]. split; vm_compute; discriminate.
Qed.

(** C2, amended. Round trip for scalars and byte arrays: when [pack]
    succeeds on a format whose array fields all have one-byte elements,
    with integer arguments for the scalar fields and [bytes] objects of
    fewer than 256 bytes for the array fields, [unpack] under the
    corresponding format gives back the arguments. *)
Theorem codec_roundtrip fmt args data :
  pack fmt args = Ok data ->
  byte_arrays (list_ascii_of_string fmt) = true ->
  Forall codec_value args ->
  unpack (unpack_format_of fmt) data = Ok args.
Proof.
  unfold pack, unpack, unpack_format_of. intros Hp Hb Hargs.
  rewrite list_ascii_of_string_of_list_ascii.
  apply (roundtrip_loop _ _ _ _ [] Hp Hb Hargs).
Qed.

Lemma codec_roundtrip_witness :
  unpack (unpack_format_of "Bs24HL")
    [2; 1; 7; 85; 3; 2; 4; 0; 0; 0; 24; 2; 4; 0; 0; 0; 21; 47; 115; 0;
     0; 0; 0; 0; 0; 0; 0; 0; 0; 0; 0; 0; 0; 0; 0; 0; 0; 0; 0; 0; 0;
     2; 2; 2; 1; 2; 4; 0; 1; 17; 112]
  = Ok [PyInt 7; PyBytes [47; 115; 0]; PyInt 513; PyInt 70000].
Proof.
  apply (codec_roundtrip "Bs24HL").
  - vm_compute. reflexivity.
  - vm_compute. reflexivity.
  - repeat constructor.
Defined.

(** Counts of 256 and more: lines 147-150 emit the length bytes most
    significant first, line 182 reads them least significant first.  A
    258-byte array is encoded with the count bytes [1; 2], read back as
    513, and the cross-check of line 191 fails. *)
Lemma extended_count_byte_order :
  valid_field_of 258 = Ok [0x82; 1; 2] /\
  take_valid ([0x55; 0x82; 1; 2] ++ [9]) = Ok (513, [9]) /\
  (let* data := pack "s300" [PyBytes (repeat 7 258)] in unpack "s" data)
  = Raise AssertionError.
Proof. repeat split; vm_compute; reflexivity. Qed.

End Codec.

(** ** Properties of the dispatcher *)

Section Dispatcher.

Lemma range_spec a b x : In x (range a b) <-> (Z.of_nat a <= x < Z.of_nat a + Z.of_nat (b - a)).
Proof.
  unfold range. rewrite in_map_iff. split.
  - intros [n [<- Hn]]. apply in_seq in Hn. lia.
  - intros H. exists (Z.to_nat x). split; [lia|]. apply in_seq. lia.
Qed.

Lemma lor_base id : 1 <= id <= 255 -> Z.lor BASE id = BASE + id.
Proof.
  intros H.
  assert (Hall : forallb (fun i => Z.lor BASE i =? BASE + i) (range 1 256) = true)
    by (vm_compute; reflexivity).
  rewrite forallb_forall in Hall.
  apply Z.eqb_eq, Hall, range_spec. simpl. lia.
Qed.

Lemma tagged_bounds k : tagged k -> BASE < k <= BASE + 255.
Proof. intros [id [H ->]]. rewrite lor_base by lia. lia. Qed.

Lemma skipn_range k :
  (k < 255)%nat -> skipn k (range 1 256) = (Z.of_nat k + 1) :: skipn (S k) (range 1 256).
Proof.
  intros Hk. unfold range. rewrite !skipn_map, !skipn_seq.
  replace (256 - 1 - k)%nat with (S (256 - 1 - S k)) by lia.
  cbn [seq map]. replace (1 + S k)%nat with (S (1 + k)) by lia. f_equal. lia.
Qed.

(** The generator is cyclic over 1..255. *)
Lemma next_gen_at k :
  (k <= 255)%nat ->
  next (gen_at k) = Ok (next_id k, gen_at (if (k <? 255)%nat then S k else 1)).
Proof.
  intros Hk. unfold next, next_id, gen_at. cbn [pending saved].
  destruct (k <? 255)%nat eqn:E.
  - apply Nat.ltb_lt in E. rewrite skipn_range by assumption. reflexivity.
  - apply Nat.ltb_ge in E. assert (k = 255%nat) by lia. subst k. reflexivity.
Qed.

Lemma next_id_range k : 1 <= next_id k <= 255.
Proof. unfold next_id. destruct (k <? 255)%nat eqn:E; [apply Nat.ltb_lt in E|]; lia. Qed.

Lemma gen_ok_next g :
  gen_ok g ->
  exists id g', next g = Ok (id, g') /\ 1 <= id <= 255 /\ gen_ok g'.
Proof.
  intros (k & Hk & ->). eexists _, _. split; [apply next_gen_at; assumption|].
  split; [apply next_id_range|].
  exists (if (k <? 255)%nat then S k else 1%nat). split; [|reflexivity].
  destruct (k <? 255)%nat eqn:E; [apply Nat.ltb_lt in E|]; lia.
Qed.

(** What [execute_send] does to the table and to the generator. *)
Lemma execute_send_inv self cmd body cb is_async ret self' c :
  keys_tagged self -> gen_ok (tid_gen self) ->
  execute_send self cmd body cb is_async ret = Ok (self', c) ->
  keys_tagged self' /\ gen_ok (tid_gen self').
Proof.
  intros Hk Hg. unfold execute_send.
  destruct (gen_ok_next _ Hg) as (id & g' & Hn & Hid & Hg').
  assert (Hne : (Z.lor BASE id =? 0) = false) by (rewrite lor_base by lia; unfold BASE; lia).
  assert (Hins : forall f, keys_tagged
            {| callbacks := <[Z.lor BASE (Z.lor BASE id) := f]> (callbacks self);
               call_acknowledged := ∅; response_event := false; response := None;
               tid_gen := g'; written := []; threads := []; stdout := [];
               waiters := 0; waiters_set := ∅ |}).
  { intros f k cb'. simpl. rewrite lookup_insert. case_decide as Hd.
    - intros _. subst k. exists id. split; [lia|].
      rewrite Z.lor_assoc, Z.lor_diag. reflexivity.
    - apply Hk. }
  destruct cb as [f|]; [|destruct is_async]; simpl; try rewrite Hn; simpl;
    try rewrite Hne; simpl;
    destruct (build_header _ _ body); simpl; try discriminate;
    intros [= <- <-]; simpl; split; try assumption;
    try (intros k cb'; simpl; apply (Hins _ k cb')); exact Hk.
Qed.

Lemma execute_raise_shape self cmd body cb is_async e self' :
  execute_raise self cmd body cb is_async = Some (e, self') ->
  call_acknowledged self' = call_acknowledged self /\
  response_event self' = response_event self /\
  written self' = written self /\
  threads self' = threads self /\
  (callbacks self' = callbacks self \/
   exists key f, callbacks self' = <[key := f]> (callbacks self)).
Proof.
  unfold execute_raise.
  destruct cb as [f|]; [|destruct is_async]; cbn [bind];
    try (destruct (next (tid_gen self)) as [[n g]| |]; cbn [bind]);
    try (destruct (build_header _ _ body));
    try discriminate; intros [= <- <-];
    cbn [callbacks call_acknowledged response_event written threads];
    repeat (split; [reflexivity|]); try (left; reflexivity); destruct (negb _); eauto.
Qed.

(** [execute_raise] is defined exactly where [execute_send] raises, with
    the same exception. *)
Lemma execute_raise_iff self cmd body cb is_async ret e :
  execute_send self cmd body cb is_async ret = Raise e <->
  exists self', execute_raise self cmd body cb is_async = Some (e, self').
Proof.
  unfold execute_send, execute_raise.
  destruct cb as [f|]; [|destruct is_async]; cbn [bind];
    try (destruct (next (tid_gen self)) as [[n g]| |]; cbn [bind]);
    try (destruct (build_header _ _ body); cbn [bind]);
    (split; [intros [= <-]; eauto | intros [x [= <- _]]; reflexivity]).
Qed.

Lemma execute_raise_inv self cmd body cb is_async e self' :
  keys_tagged self -> gen_ok (tid_gen self) ->
  execute_raise self cmd body cb is_async = Some (e, self') ->
  keys_tagged self' /\ gen_ok (tid_gen self').
Proof.
  intros Hk Hg. unfold execute_raise.
  destruct (gen_ok_next _ Hg) as (id & g' & Hn & Hid & Hg').
  assert (Hne : (Z.lor BASE id =? 0) = false) by (rewrite lor_base by lia; unfold BASE; lia).
  assert (Hins : forall f k cb',
            <[Z.lor BASE (Z.lor BASE id) := f]> (callbacks self) !! k = Some cb' -> tagged k).
  { intros f k cb'. rewrite lookup_insert. case_decide as Hd.
    - intros _. subst k. exists id. split; [lia|].
      rewrite Z.lor_assoc, Z.lor_diag. reflexivity.
    - apply Hk. }
  destruct cb as [f|]; [|destruct is_async]; cbn [bind]; rewrite ?Hn; cbn [bind];
    rewrite ?Hne; cbn [negb];
    destruct (build_header _ _ body); try discriminate;
    intros [= <- <-]; cbn [tid_gen]; (split; [|assumption]);
    intros k cb'; cbn [callbacks]; try apply Hins; apply Hk.
Qed.

Lemma handle_message_callbacks self message self' k cb :
  handle_message self message = Ok self' ->
  callbacks self' !! k = Some cb -> callbacks self !! k = Some cb.
Proof.
  unfold handle_message. destruct (parse_header message) as [f| |]; simpl; try discriminate.
  destruct (txid f =? 0); [intros [= <-]; destruct (negb _); simpl; auto|].
  destruct (txid f =? 285212928); [intros [= <-]; destruct (negb _); simpl; auto|].
  destruct (negb (l0 f =? l1 f)); simpl;
    (destruct (callbacks self !! txid f) eqn:E; [case_decide|]);
    intros [= <-]; simpl; auto;
    rewrite lookup_delete; case_decide; congruence.
Qed.

Lemma handle_message_tid_gen self message self' :
  handle_message self message = Ok self' -> tid_gen self' = tid_gen self.
Proof.
  unfold handle_message. destruct (parse_header message) as [f| |]; simpl; try discriminate.
  destruct (txid f =? 0); [intros [= <-]; destruct (negb _); reflexivity|].
  destruct (txid f =? 285212928); [intros [= <-]; destruct (negb _); reflexivity|].
  destruct (negb (l0 f =? l1 f)); simpl;
    (destruct (callbacks self !! txid f) eqn:E; [case_decide|]);
    intros [= <-]; reflexivity.
Qed.

Lemma step_inv self self' :
  step self self' ->
  keys_tagged self /\ gen_ok (tid_gen self) ->
  keys_tagged self' /\ gen_ok (tid_gen self').
Proof.
  intros Hstep [Hk Hg].
  inversion Hstep as [? ? ? ? ? ? ? ? He| ? ? ? Hm | ? cb ? ? Hin | ? ? ? ? ? ? ? Hx]; subst.
  - eapply execute_send_inv; eassumption.
  - split.
    + intros k cb Hl. eapply Hk, handle_message_callbacks; eassumption.
    + erewrite handle_message_tid_gen by eassumption. assumption.
  - destruct cb; simpl; split; assumption.
  - eapply execute_raise_inv; eassumption.
Qed.

Lemma reachable_inv self :
  reachable self -> keys_tagged self /\ gen_ok (tid_gen self).
Proof.
  unfold reachable. revert self.
  apply (rtc_ind_r (fun s => keys_tagged s /\ gen_ok (tid_gen s))).
  - split.
    + intros k cb. simpl. rewrite lookup_empty. discriminate.
    + exists 0%nat. split; [lia | reflexivity].
  - intros mid self' _ Hstep IH. eapply step_inv; eassumption.
Qed.

Lemma execute_send_shape self cmd body cb is_async ret self' c :
  execute_send self cmd body cb is_async ret = Ok (self', c) ->
  call_acknowledged self' = call_acknowledged self /\
  (callbacks self' = callbacks self \/
   exists key f, callbacks self' = <[key := f]> (callbacks self)).
Proof.
  unfold execute_send.
  destruct cb as [f|]; [|destruct is_async]; cbn [bind];
    try (destruct (next (tid_gen self)) as [[n g]| |]; cbn [bind]; try discriminate);
    destruct (build_header _ _ body); cbn [bind]; try discriminate;
    intros [= <- <-]; cbn [callbacks call_acknowledged]; (split; [reflexivity|]);
    try (left; reflexivity); destruct (negb _); eauto.
Qed.

Lemma handle_message_effect self message self' :
  handle_message self message = Ok self' ->
  (callbacks self' = callbacks self /\ call_acknowledged self' = call_acknowledged self) \/
  (exists t cb, callbacks self !! t = Some cb /\ callbacks self' = callbacks self /\
                call_acknowledged self' = {[t]} ∪ call_acknowledged self) \/
  (exists t, callbacks self' = delete t (callbacks self) /\
             call_acknowledged self' = call_acknowledged self ∖ {[t]}).
Proof.
  unfold handle_message. destruct (parse_header message) as [f| |]; simpl; try discriminate.
  destruct (txid f =? 0); [intros [= <-]; destruct (negb _); simpl; auto|].
  destruct (txid f =? 285212928); [intros [= <-]; destruct (negb _); simpl; auto|].
  destruct (negb (l0 f =? l1 f)); simpl;
    (destruct (callbacks self !! txid f) eqn:E; [case_decide|]);
    intros [= <-]; simpl; eauto 10.
Qed.

Lemma handle_message_acknowledged_pending self message self' :
  handle_message self message = Ok self' ->
  acknowledged_pending self -> acknowledged_pending self'.
Proof.
  intros Hm H k.
  destruct (handle_message_effect _ _ _ Hm)
    as [[-> ->]|[(t & cb & Ht & -> & ->)|(t & -> & ->)]].
  - apply H.
  - intros Hk. apply elem_of_union in Hk. destruct Hk as [Hk|Hk]; [|apply H; assumption].
    apply elem_of_singleton in Hk. subst k. rewrite Ht. eauto.
  - intros Hk. apply elem_of_difference in Hk. destruct Hk as [Hk Hne].
    rewrite lookup_delete_ne; [apply H; assumption|].
    intros ->. apply Hne, elem_of_singleton. reflexivity.
Qed.

Lemma reachable_acknowledged_pending self : reachable self -> acknowledged_pending self.
Proof.
  unfold reachable. revert self. apply (rtc_ind_r acknowledged_pending).
  - intros k Hk. cbn in Hk. apply not_elem_of_empty in Hk. contradiction.
  - intros mid self' _ Hstep IH.
    inversion Hstep as [? ? ? ? ? ? ? ? He| ? ? ? Hm | ? cb ? ? Hin | ? ? ? ? ? ? ? Hx]; subst.
    + destruct (execute_send_shape _ _ _ _ _ _ _ _ He) as [Ha Hc].
      intros k Hk. rewrite Ha in Hk. specialize (IH k Hk).
      destruct Hc as [->|(key & f & ->)]; [assumption|].
      apply lookup_insert_is_Some. destruct (decide (key = k)); auto.
    + eapply handle_message_acknowledged_pending; eassumption.
    + destruct cb; exact IH.
    + destruct (execute_raise_shape _ _ _ _ _ _ _ Hx) as (Ha & _ & _ & _ & Hc).
      intros k Hk. rewrite Ha in Hk. specialize (IH k Hk).
      destruct Hc as [->|(key & f & ->)]; [assumption|].
      apply lookup_insert_is_Some. destruct (decide (key = k)); auto.
Qed.

(** An identifier that is not pending when [execute] allocates it is
    registered unacknowledged: its next frame is a first frame. *)
Lemma fresh_identifier_unacknowledged self cmd body cb is_async ret self' c tid :
  reachable self -> callbacks self !! tid = None ->
  execute_send self cmd body cb is_async ret = Ok (self', c) ->
  tid ∉ call_acknowledged self'.
Proof.
  intros Hr Hnone He Hin.
  destruct (execute_send_shape _ _ _ _ _ _ _ _ He) as [Ha _]. rewrite Ha in Hin.
  destruct (reachable_acknowledged_pending _ Hr _ Hin) as [x Hx]. congruence.
Qed.

Lemma tagged_not_base k : tagged k -> (k =? 0) = false /\ (k =? 0x11000100) = false.
Proof.
  intros H. apply tagged_bounds in H. unfold BASE in H.
  split; apply Z.eqb_neq; lia.
Qed.


(** The completion branch, lines 108-114. *)
Lemma handle_message_complete self message f cb :
  parse_header message = Ok f ->
  (txid f =? 0) = false -> (txid f =? 0x11000100) = false ->
  callbacks self !! txid f = Some cb ->
  txid f ∈ call_acknowledged self ->
  exists self',
    handle_message self message = Ok self' /\
    callbacks self' = delete (txid f) (callbacks self) /\
    call_acknowledged self' = call_acknowledged self ∖ {[txid f]} /\
    threads self' = threads self ++ [(cb, code f, skipn 6 (body f))] /\
    response self' = response self /\
    response_event self' = response_event self.
Proof.
  intros Hp H0 Hb Hc Ha. unfold handle_message. rewrite Hp. cbn [bind].
  rewrite H0, Hb.
  destruct (negb (l0 f =? l1 f)); cbn [print set_stdout callbacks call_acknowledged];
    rewrite Hc; (destruct (decide (txid f ∉ call_acknowledged self)); [contradiction|]);
    eexists; (split; [reflexivity|]); cbn; repeat split.
Qed.

Lemma demo_state_reachable : reachable demo_state.
Proof.
  apply rtc_once.
  apply (step_execute init 0x42 [] (Some (UserCallback 0)) false 26 demo_state
           (AtResponseWait None)).
  vm_compute. reflexivity.
Qed.

(** C10. In every state the object reaches, each key of the callback
    table is the channel base OR'ed with an identifier byte in [1, 255];
    so no key is the bare base or zero, and neither a synchronous response
    (tag = base) nor an unsolicited frame (tag = 0) finds an entry. *)
Theorem callback_keys_tagged self :
  reachable self ->
  (forall k cb, callbacks self !! k = Some cb ->
     (exists id, 1 <= id <= 255 /\ k = Z.lor BASE id) /\ k <> BASE /\ k <> 0) /\
  callbacks self !! BASE = None /\
  callbacks self !! 0 = None.
Proof.
  intros Hr. destruct (reachable_inv _ Hr) as [Hk _].
  assert (Hall : forall k cb, callbacks self !! k = Some cb ->
            (exists id, 1 <= id <= 255 /\ k = Z.lor BASE id) /\ k <> BASE /\ k <> 0).
  { intros k cb Hl. pose proof (Hk _ _ Hl) as Ht. split; [exact Ht|].
    apply tagged_bounds in Ht. unfold BASE in *. lia. }
  split; [exact Hall|].
  split.
  - destruct (callbacks self !! BASE) eqn:E; [|reflexivity].
    destruct (Hall _ _ E) as (_ & Hne & _). contradiction.
  - destruct (callbacks self !! 0) eqn:E; [|reflexivity].
    destruct (Hall _ _ E) as (_ & _ & Hne). contradiction.
Qed.

Lemma callback_keys_tagged_witness :
  (forall k cb, callbacks demo_state !! k = Some cb ->
     (exists id, 1 <= id <= 255 /\ k = Z.lor BASE id) /\ k <> BASE /\ k <> 0) /\
  callbacks demo_state !! BASE = None /\
  callbacks demo_state !! 0 = None.
Proof. apply (callback_keys_tagged demo_state). exact demo_state_reachable. Defined.

(** C7. A frame that parses, whose tag is neither zero nor the bare base
    and is no key of the callback table, is handled without an error and
    leaves the callback table, the acknowledged set, the shared response
    and its event, and the started callback threads as they were. *)
Theorem unknown_txid_inert self message f :
  parse_header message = Ok f ->
  txid f <> 0 -> txid f <> BASE ->
  callbacks self !! txid f = None ->
  exists self',
    handle_message self message = Ok self' /\
    callbacks self' = callbacks self /\
    call_acknowledged self' = call_acknowledged self /\
    response self' = response self /\
    response_event self' = response_event self /\
    threads self' = threads self /\
    In (UnexpectedTxid (txid f)) (stdout self').
Proof.
  intros Hp H0 Hb Hc. unfold handle_message. rewrite Hp. cbn [bind].
  apply Z.eqb_neq in H0, Hb. unfold BASE in Hb. rewrite H0, Hb.
  destruct (negb (l0 f =? l1 f)); cbn [print set_stdout callbacks];
    rewrite Hc; eexists; (split; [reflexivity|]); cbn; repeat split;
    apply in_or_app; right; left; reflexivity.
Qed.

Lemma unknown_txid_inert_witness :
  exists self',
    handle_message demo_state demo_frame_9 = Ok self' /\
    callbacks self' = callbacks demo_state /\
    call_acknowledged self' = call_acknowledged demo_state /\
    response self' = response demo_state /\
    response_event self' = response_event demo_state /\
    threads self' = threads demo_state /\
    In (UnexpectedTxid (BASE + 9)) (stdout self').
Proof.
  apply (unknown_txid_inert demo_state demo_frame_9
           {| l0 := 26; l1 := 26; code := 0x42; txid := BASE + 9; body := [97; 99; 107] |});
    vm_compute; congruence.
Defined.



Lemma execute_send_callback self cmd body cb is_async ret id gen :
  next (tid_gen self) = Ok (id, gen) -> 1 <= id <= 255 ->
  0 <= cmd < 2 ^ 32 -> len body + 22 < 2 ^ 32 ->
  exists self',
    execute_send self cmd body (Some cb) is_async ret = Ok (self', AtResponseWait None) /\
    callbacks self' = <[Z.lor BASE id := cb]> (callbacks self) /\
    call_acknowledged self' = call_acknowledged self /\
    tid_gen self' = gen /\
    written self' = written self ++ [header_of cmd (Z.lor BASE id) body ++ body] /\
    response_event self' = false.
Proof.
  intros Hn Hid Hc Hb. unfold execute_send. rewrite Hn. cbn [bind].
  assert (Hu : 0 <= Z.lor BASE id < 2 ^ 32) by (rewrite lor_base by lia; unfold BASE; lia).
  rewrite build_header_ok by assumption. cbn [bind].
  replace (Z.lor BASE id =? 0) with false
    by (symmetry; apply Z.eqb_neq; rewrite lor_base by lia; unfold BASE; lia).
  cbn [negb]. rewrite Z.lor_assoc, Z.lor_diag.
  eexists. split; [reflexivity|]. cbn. repeat split.
Qed.

Lemma execute_send_clears_event self cmd body cb is_async ret self' c :
  execute_send self cmd body cb is_async ret = Ok (self', c) ->
  response_event self' = false.
Proof.
  unfold execute_send.
  destruct cb as [f|]; [|destruct is_async]; cbn [bind];
    try (destruct (next (tid_gen self)) as [[n g]| |]; cbn [bind]; try discriminate);
    destruct (build_header _ _ body); cbn [bind]; try discriminate;
    intros [= <- <-]; reflexivity.
Qed.

(** Only the reader sets the response event. *)
Lemma response_event_set_by_reader self self' :
  step self self' ->
  response_event self = false -> response_event self' = true ->
  exists message, handle_message self message = Ok self'.
Proof.
  intros Hstep Hf Ht.
  inversion Hstep as [? ? ? ? ? ? ? ? He| ? ? ? Hm | ? cb ? ? Hin | ? ? ? ? ? ? ? Hx]; subst.
  - apply execute_send_clears_event in He. congruence.
  - eexists. eassumption.
  - destruct cb; simpl in Ht; congruence.
  - destruct (execute_raise_shape _ _ _ _ _ _ _ Hx) as (_ & He & _). congruence.
Qed.

(** C3, as the specification states it, fails: the asynchronous call of
    the sample run has written its frame and cannot return; it returns
    once the reader has handled the acknowledgment frame. *)
Lemma call_async_waits_for_frame :
  execute_send init 0x42 [] (Some (UserCallback 0)) false 26
    = Ok (demo_state, AtResponseWait None) /\
  execute_resume demo_state (AtResponseWait None) = None /\
  exists self',
    handle_message demo_state demo_frame_ack = Ok self' /\
    execute_resume self' (AtResponseWait None)
      = Some (Returned (Some (0x42, [97; 99; 107]))).
Proof.
  split; [vm_compute; reflexivity|].
  split; [vm_compute; reflexivity|].
  eexists. split; vm_compute; reflexivity.
Qed.

(** C3, amended. A call with a callback, in a reachable state, with a
    command code and a frame length that fit 32 bits: takes the next
    identifier of the generator, which runs 1, 2, ..., 255, 1, ...;
    registers the callback under [BASE | id]; writes header + body to the
    transport; clears the response event and then blocks on it.  The call
    goes on to return the stored response exactly in states where the event
    is set, and the event is set by no move other than the handling of an
    inbound frame. *)
Theorem call_async_blocks_until_response_event self cmd body cb is_async ret :
  reachable self ->
  0 <= cmd < 2 ^ 32 -> len body + 22 < 2 ^ 32 ->
  exists k header self',
    (k <= 255)%nat /\ tid_gen self = gen_at k /\
    1 <= next_id k <= 255 /\
    build_header cmd (Z.lor BASE (next_id k)) body = Ok header /\
    execute_send self cmd body (Some cb) is_async ret = Ok (self', AtResponseWait None) /\
    callbacks self' = <[Z.lor BASE (next_id k) := cb]> (callbacks self) /\
    tid_gen self' = gen_at (if (k <? 255)%nat then S k else 1) /\
    written self' = written self ++ [header ++ body] /\
    execute_resume self' (AtResponseWait None) = None /\
    (forall s, execute_resume s (AtResponseWait None) =
               if response_event s then Some (Returned (response s)) else None) /\
    (forall s s', step s s' -> response_event s = false -> response_event s' = true ->
                  exists message, handle_message s message = Ok s').
Proof.
  intros Hr Hc Hb. destruct (reachable_inv _ Hr) as [_ (k & Hk & Hg)].
  pose proof (next_id_range k) as Hid.
  assert (Hn : next (tid_gen self)
               = Ok (next_id k, gen_at (if (k <? 255)%nat then S k else 1)))
    by (rewrite Hg; apply next_gen_at; assumption).
  destruct (execute_send_callback self cmd body cb is_async ret _ _ Hn Hid Hc Hb)
    as (self' & He & Hcb & _ & Hgen & Hw & Hev).
  exists k, (header_of cmd (Z.lor BASE (next_id k)) body), self'.
  assert (Hu : 0 <= Z.lor BASE (next_id k) < 2 ^ 32)
    by (rewrite lor_base by lia; unfold BASE; lia).
  repeat split; try assumption; try lia.
  - apply build_header_ok; assumption.
  - unfold execute_resume. rewrite Hev. reflexivity.
  - intros s s'. apply response_event_set_by_reader.
Qed.

Lemma call_async_blocks_until_response_event_witness :
  exists k header self',
    (k <= 255)%nat /\ tid_gen demo_state = gen_at k /\
    1 <= next_id k <= 255 /\
    build_header 0x42 (Z.lor BASE (next_id k)) [] = Ok header /\
    execute_send demo_state 0x42 [] (Some (UserCallback 1)) false 26
      = Ok (self', AtResponseWait None) /\
    callbacks self' = <[Z.lor BASE (next_id k) := UserCallback 1]> (callbacks demo_state) /\
    tid_gen self' = gen_at (if (k <? 255)%nat then S k else 1) /\
    written self' = written demo_state ++ [header ++ []] /\
    execute_resume self' (AtResponseWait None) = None /\
    (forall s, execute_resume s (AtResponseWait None) =
               if response_event s then Some (Returned (response s)) else None) /\
    (forall s s', step s s' -> response_event s = false -> response_event s' = true ->
                  exists message, handle_message s message = Ok s').
Proof.
  apply (call_async_blocks_until_response_event demo_state 0x42 [] (UserCallback 1) false 26).
  - exact demo_state_reachable.
  - lia.
  - vm_compute. reflexivity.
Defined.

End Dispatcher.

(** ** Further properties of the wire codec *)

Section CodecMore.
Import struct.

Ltac bind_inv H :=
  match type of H with
  | bind ?e _ = Ok _ =>
      let E := fresh "E" in
      destruct e eqn:E; cbn [bind] in H; [|discriminate H..]
  end.

Lemma take_asn_int_loop_short bs : forall n acc,
  (length bs < n)%nat -> take_asn_int_loop n acc bs = Raise IndexError.
Proof.
  induction bs as [|b bs IH]; intros n acc Hn.
  - destruct n; [lia | reflexivity].
  - destruct n as [|n]; [simpl in Hn; lia|]. cbn [take_asn_int_loop pop0 bind].
    apply IH. simpl in Hn. lia.
Qed.

(** X1. A generic integer of any declared length [l] below 256:
    [take_asn_int] reads exactly [l] bytes after the tag 2 and the length
    byte and returns their big-endian value with the rest of the buffer;
    when fewer than [l] bytes follow, it raises IndexError. *)
Theorem take_asn_int_any_length bs rest :
  Forall is_byte bs -> (length bs < 256)%nat ->
  take_asn_int ([2; len bs] ++ bs ++ rest) = Ok (be_value bs, rest) /\
  (forall l, len bs < l -> take_asn_int ([2; l] ++ bs) = Raise IndexError).
Proof.
  intros Hb Hl. split.
  - unfold take_asn_int. cbn [app pop0 bind Z.eqb Pos.eqb py_assert].
    unfold len at 1. rewrite Nat2Z.id, take_asn_int_loop_app by assumption.
    rewrite Z.mul_0_l. reflexivity.
  - intros l Hlt. unfold take_asn_int. cbn [app pop0 bind Z.eqb Pos.eqb py_assert].
    apply take_asn_int_loop_short. unfold len in Hlt. lia.
Qed.

Lemma take_asn_int_any_length_witness :
  take_asn_int ([2; len [1; 2; 3]] ++ [1; 2; 3] ++ [9]) = Ok (be_value [1; 2; 3], [9]) /\
  (forall l, len [1; 2; 3] < l -> take_asn_int ([2; l] ++ [1; 2; 3]) = Raise IndexError).
Proof.
  apply (take_asn_int_any_length [1; 2; 3] [9]).
  - repeat constructor; vm_compute; congruence.
  - simpl. lia.
Defined.

Lemma pack_scalar_format ch arg r :
  pack_scalar ch arg = Some r ->
  forall fmt, unpack_format (ch :: fmt) = "n" :: unpack_format fmt.
Proof.
  unfold pack_scalar. intros H fmt.
  destruct (Ascii.eqb ch "B") eqn:EB; [apply Ascii.eqb_eq in EB; subst; reflexivity|].
  destruct (Ascii.eqb ch "H") eqn:EH; [apply Ascii.eqb_eq in EH; subst; reflexivity|].
  destruct (Ascii.eqb ch "L") eqn:EL; [apply Ascii.eqb_eq in EL; subst; reflexivity|].
  discriminate.
Qed.

Lemma pack_loop_arity fuel : forall fmt args out data,
  pack_loop fuel fmt args out = Ok data ->
  length args = length (unpack_format fmt).
Proof.
  induction fuel as [|fuel IH]; intros fmt args out data H.
  - destruct fmt; [|discriminate]. destruct args; [reflexivity | discriminate].
  - destruct fmt as [|ch fmt]; [destruct args; [reflexivity | discriminate]|].
    destruct args as [|arg args]; [discriminate|]. cbn [pack_loop] in H.
    assert (Hstr : forall et fmt0,
               (let* (field, fmt') := _pack_string arg fmt0 et in
                pack_loop fuel fmt' args (out ++ field)) = Ok data ->
               length args = length (unpack_format fmt0)).
    { intros et fmt0 Hs. destruct (_pack_string arg fmt0 et) as [[field fmt']| |] eqn:Ep;
        cbn [bind] in Hs; try discriminate.
      apply _pack_string_rest in Ep. subst fmt'.
      rewrite <- pop_digits_unpack_format. eapply IH. eassumption. }
    destruct (pack_scalar ch arg) as [r|] eqn:Es.
    + rewrite (pack_scalar_format _ _ _ Es). destruct r as [b| |]; cbn [bind] in H;
        try discriminate. cbn [length]. f_equal. eapply IH. eassumption.
    + destruct (Ascii.eqb ch "s") eqn:Ech.
      { apply Ascii.eqb_eq in Ech. subst ch.
        change (unpack_format ("s" :: fmt)) with ("s" :: unpack_format fmt).
        cbn [length]. f_equal. eapply Hstr. eassumption. }
      destruct (Ascii.eqb ch "S") eqn:EchS; [|discriminate].
      apply Ascii.eqb_eq in EchS. subst ch.
      destruct fmt as [|et fmt0]; [discriminate|].
      change (unpack_format ("S" :: et :: fmt0)) with ("s" :: unpack_format fmt0).
      cbn [length]. f_equal. eapply Hstr. eassumption.
Qed.

(** X2. Arity: whenever [pack] succeeds it was given exactly one argument
    per field of the format (too few raise IndexError at line 209, too many
    ValueError at line 227), and that is the number of values [unpack]
    reads under the corresponding format. *)
Theorem pack_arity fmt args data :
  pack fmt args = Ok data ->
  length args = String.length (unpack_format_of fmt).
Proof.
  unfold pack, unpack_format_of. intros H.
  apply pack_loop_arity in H. rewrite H.
  generalize (unpack_format (list_ascii_of_string fmt)) as l.
  induction l as [|c l IHl]; simpl; [reflexivity | f_equal; exact IHl].
Qed.

Lemma pack_arity_witness :
  length [PyInt 7; PyBytes [47; 115; 0]; PyInt 513] = String.length (unpack_format_of "Bs24H").
Proof.
  apply (pack_arity "Bs24H" [PyInt 7; PyBytes [47; 115; 0]; PyInt 513]
           [2; 1; 7; 85; 3; 2; 4; 0; 0; 0; 24; 2; 4; 0; 0; 0; 21; 47; 115; 0;
            0; 0; 0; 0; 0; 0; 0; 0; 0; 0; 0; 0; 0; 0; 0; 0; 0; 0; 0; 0; 0;
            2; 2; 2; 1]).
  vm_compute. reflexivity.
Defined.

(** The kind of value each format character of [unpack] gives. *)
Lemma unpack_loop_shape fmt : forall data out vals,
  unpack_loop fmt data out = Ok vals ->
  exists vs, vals = out ++ vs /\ Forall2 value_kind fmt vs.
Proof.
  induction fmt as [|ch fmt IH]; intros data out vals H.
  - injection H as <-. exists []. rewrite app_nil_r. split; [reflexivity | constructor].
  - cbn [unpack_loop] in H. destruct (Ascii.eqb ch "n") eqn:En.
    + apply Ascii.eqb_eq in En. subst ch.
      destruct (take_asn_int data) as [[v d]| |]; cbn [bind] in H; try discriminate.
      destruct (IH _ _ _ H) as (vs & -> & Hvs). exists (PyInt v :: vs).
      rewrite <- app_assoc. split; [reflexivity|]. constructor; [|assumption].
      left. split; [reflexivity | eauto].
    + destruct (Ascii.eqb ch "s") eqn:Es; [|discriminate].
      apply Ascii.eqb_eq in Es. subst ch.
      destruct (unpack_string data) as [[b d]| |]; cbn [bind] in H; try discriminate.
      destruct (IH _ _ _ H) as (vs & -> & Hvs). exists (PyBytes b :: vs).
      rewrite <- app_assoc. split; [reflexivity|]. constructor; [|assumption].
      right. split; [reflexivity | eauto].
Qed.

(** X3. Whenever [unpack] succeeds, the format holds only ['n'] and ['s']
    and the result has one value per format character, in order: an
    integer for each ['n'], a bytes object for each ['s']. *)
Theorem unpack_shape fmt data vals :
  unpack fmt data = Ok vals ->
  Forall2 value_kind (list_ascii_of_string fmt) vals /\
  length vals = String.length fmt.
Proof.
  unfold unpack. intros H. destruct (unpack_loop_shape _ _ _ _ H) as (vs & -> & Hvs).
  rewrite app_nil_l. split; [assumption|].
  apply Forall2_length in Hvs. rewrite <- Hvs.
  clear. induction fmt as [|c fmt IH]; simpl; [reflexivity | f_equal; exact IH].
Qed.

Lemma unpack_shape_witness :
  Forall2 value_kind (list_ascii_of_string "sn") [PyBytes [1; 2; 3]; PyInt 9] /\
  length [PyBytes [1; 2; 3]; PyInt 9] = String.length "sn".
Proof.
  apply (unpack_shape "sn"
           [85; 3; 2; 4; 0; 0; 0; 5; 2; 4; 0; 0; 0; 2; 1; 2; 3; 0; 0; 2; 1; 9]).
  vm_compute. reflexivity.
Defined.

Lemma take_valid_scaled w tag n vf rest :
  field_type_of (Z.of_nat w) = Ok tag ->
  0 <= n < 256 -> valid_field_of n = Ok vf ->
  take_valid ([tag] ++ vf ++ rest) = Ok (n * Z.of_nat w, rest).
Proof.
  intros Htag Hn Hvf.
  assert (Hcore : forall (v : Z) (d : bytes),
             (let* (valid, data) := Ok (v, d) in
              let valid :=
                if tag =? 86 then Z.shiftl valid 1
                else if tag =? 87 then Z.shiftl valid 2 else valid in
              Ok (valid, data)) = Ok (v * Z.of_nat w, d)).
  { intros v d. cbn [bind].
    destruct (field_type_of_inv _ _ Htag) as [[-> ->]|[[-> ->]|[-> ->]]];
      cbn [Z.eqb Pos.eqb]; rewrite ?Z.shiftl_mul_pow2 by lia; f_equal; f_equal; lia. }
  assert (Htagok : py_assert ((tag =? 85) || (tag =? 86) || (tag =? 87)) = Ok tt)
    by (destruct (field_type_of_inv _ _ Htag) as [[_ ->]|[[_ ->]|[_ ->]]]; reflexivity).
  destruct (Z.lt_ge_cases n 128) as [Hlt|Hge].
  - rewrite valid_field_short in Hvf by lia. injection Hvf as <-.
    unfold take_valid. cbn [app pop0 bind]. rewrite Htagok. cbn [bind].
    rewrite land_128_small by lia. cbn [Z.eqb negb]. apply Hcore.
  - rewrite valid_field_one_byte in Hvf by lia. injection Hvf as <-.
    unfold take_valid. cbn [app pop0 bind]. rewrite Htagok. cbn [bind].
    change (negb (Z.land 129 128 =? 0)) with true. cbv iota.
    change (Z.to_nat (Z.land 129 15)) with 1%nat.
    cbn [take_valid_loop pop0 bind]. apply Hcore.
Qed.

(** X4. An array field of 1-, 2- or 4-byte elements with fewer than 256
    occupied elements, as [_pack_string] writes it, is read back by the
    array branch of [unpack] as the packed bytes of its elements (each
    element little-endian on its width), without the padding, and the
    cursor ends right after the field. *)
Theorem typed_array_decodes_to_payload val elems fmt ds rest cap et w tag :
  pop_digits fmt = (ds, rest) -> py_int ds = Ok cap -> py_iter val = Ok elems ->
  len elems <= cap -> len elems < 256 ->
  native_size et = Ok w -> field_type_of (Z.of_nat w) = Ok tag ->
  Forall (fits w) elems -> cap * Z.of_nat w < 2 ^ 32 ->
  exists field,
    _pack_string val fmt et = Ok (field, rest) /\
    forall more,
      unpack_string (field ++ more) = Ok (flat_map (le_bytes w) elems, more).
Proof.
  intros Hpop Hint Hiter Hle Hshort Hsize Htag Hfits Hcap.
  pose proof (len_nonneg elems) as Hl.
  assert (Hw : 1 <= Z.of_nat w <= 4)
    by (destruct (field_type_of_inv _ _ Htag) as [[-> _]|[[-> _]|[-> _]]]; lia).
  destruct (_pack_string_ok val elems fmt ds rest cap et w tag)
    as (vf & Hvf & _ & _ & Hp); try assumption.
  eexists. split; [exact Hp|]. intros more.
  unfold unpack_string, field_of. rewrite <- !app_assoc.
  rewrite (take_valid_scaled w tag (len elems)) by (assumption || lia). cbn [bind].
  rewrite (app_assoc [2; 4] (be_bytes 4 (cap * Z.of_nat w))).
  rewrite (take_asn_int_be_bytes 4) by (simpl; nia). cbn [bind].
  rewrite (app_assoc [2; 4] (be_bytes 4 ((cap - len elems) * Z.of_nat w))).
  rewrite (take_asn_int_be_bytes 4) by (simpl; nia). cbn [bind].
  replace (field_size_of (cap * Z.of_nat w) (len elems * Z.of_nat w)
             ((cap - len elems) * Z.of_nat w))
    with (Ok (if cap * Z.of_nat w =? 0 then len elems * Z.of_nat w else cap * Z.of_nat w)).
  2:{ unfold field_size_of. destruct (cap * Z.of_nat w =? 0); [reflexivity|].
      cbn [negb]. replace (_ =? _) with true by (symmetry; apply Z.eqb_eq; lia).
      reflexivity. }
  cbn [bind]. f_equal. f_equal.
  - apply take_app_length'.
    pose proof (len_flat_map_le_bytes w elems) as Hlen. unfold len in *. lia.
  - rewrite app_assoc. apply drop_app_length'.
    pose proof (len_flat_map_le_bytes w elems) as Hlen.
    rewrite length_app, repeat_length. unfold len in *. nia.
Qed.

Lemma typed_array_decodes_to_payload_witness :
  exists field,
    _pack_string (PyList [1; 258]) ["3"] "H" = Ok (field, []) /\
    forall more,
      unpack_string (field ++ more) = Ok (flat_map (le_bytes 2) [1; 258], more).
Proof.
  apply (typed_array_decodes_to_payload (PyList [1; 258]) [1; 258] ["3"] ["3"] [] 3 "H" 2 0x56);
    try reflexivity; try (vm_compute; congruence).
  repeat constructor; vm_compute; congruence.
Defined.

(** X5. Occupied counts from 256 to 65535: the encoder writes the lead byte
    0x82 and then the high byte before the low byte (lines 147-150), the
    decoder takes the first length byte as the low one (line 182); so a
    count [v] comes back as [v / 256 + 256 * (v mod 256)], which is [v] only
    when both bytes are equal. *)
Theorem extended_count_bytes_swapped v :
  256 <= v < 65536 ->
  valid_field_of v = Ok [0x82; v / 256; v mod 256] /\
  (forall rest,
     take_valid ([0x55] ++ [0x82; v / 256; v mod 256] ++ rest)
     = Ok (v / 256 + 256 * (v mod 256), rest)) /\
  (v / 256 + 256 * (v mod 256) = v <-> v / 256 = v mod 256).
Proof.
  intros Hv.
  assert (Hhi : 1 <= v / 256 < 256).
  { split; [apply Z.div_le_lower_bound; lia | apply Z.div_lt_upper_bound; lia]. }
  assert (Hlo : 0 <= v mod 256 < 256) by (apply Z.mod_pos_bound; lia).
  split; [|split].
  - unfold valid_field_of. replace (v <? 128) with false by (symmetry; apply Z.ltb_ge; lia).
    assert (Hlog : 8 <= Z.log2 v) by (apply Z.log2_le_pow2; lia).
    destruct (Z.to_nat (Z.log2 v)) as [|k] eqn:Ek; [lia|].
    cbn [valid_field_loop]. replace (0 <? v) with true by (symmetry; apply Z.ltb_lt; lia).
    rewrite (shiftr_8 v), (land_ff v).
    replace (0 <? v / 256) with true by (symmetry; apply Z.ltb_lt; lia).
    rewrite (shiftr_8 (v / 256)), (land_ff (v / 256)).
    rewrite (Z.div_small (v / 256)), (Z.mod_small (v / 256)) by lia.
    rewrite valid_field_loop_done. reflexivity.
  - intros rest. unfold take_valid. cbn [app pop0 bind Z.eqb Pos.eqb orb py_assert].
    change (negb (Z.land 130 128 =? 0)) with true. cbv iota.
    change (Z.to_nat (Z.land 130 15)) with 2%nat.
    cbn [take_valid_loop pop0 bind].
    change (Z.lor 0 (Z.shiftl (v / 256) (0 * 8))) with (v / 256).
    change ((0 + 1) * 8) with 8.
    rewrite Z.lor_comm, lor_shiftl_byte by (unfold is_byte; lia). f_equal. f_equal. lia.
  - pose proof (Z.div_mod v 256). lia.
Qed.

Lemma extended_count_bytes_swapped_witness :
  valid_field_of 258 = Ok [0x82; 258 / 256; 258 mod 256] /\
  (forall rest,
     take_valid ([0x55] ++ [0x82; 258 / 256; 258 mod 256] ++ rest)
     = Ok (258 / 256 + 256 * (258 mod 256), rest)) /\
  (258 / 256 + 256 * (258 mod 256) = 258 <-> 258 / 256 = 258 mod 256).
Proof. apply (extended_count_bytes_swapped 258). lia. Defined.

Lemma pop_digits_app f1 f2 :
  starts_field f2 = true ->
  pop_digits (f1 ++ f2) = (fst (pop_digits f1), snd (pop_digits f1) ++ f2).
Proof.
  intros Hs. induction f1 as [|c f1 IH].
  - destruct f2 as [|c f2]; [reflexivity|]. cbn [app pop_digits fst snd].
    cbn [starts_field] in Hs. apply negb_true_iff in Hs. rewrite Hs. reflexivity.
  - cbn [app pop_digits]. destruct (is_digit c); [|reflexivity].
    rewrite IH. destruct (pop_digits f1). reflexivity.
Qed.

Lemma _pack_string_app val f1 f2 et :
  starts_field f2 = true ->
  _pack_string val (f1 ++ f2) et
  = (let* (field, r) := _pack_string val f1 et in Ok (field, r ++ f2)).
Proof.
  intros Hs. unfold _pack_string. rewrite (pop_digits_app _ _ Hs).
  destruct (pop_digits f1) as [ds r]. cbn [fst snd].
  repeat match goal with
         | |- bind ?e _ = bind (bind ?e _) _ => destruct e; cbn [bind]; try reflexivity
         end.
Qed.

Lemma pack_loop_fuel_irrelevant n : forall m fmt args out,
  (length fmt <= n)%nat -> (length fmt <= m)%nat ->
  pack_loop n fmt args out = pack_loop m fmt args out.
Proof.
  induction n as [|n IH]; intros m fmt args out Hn Hm.
  - destruct fmt; [|simpl in Hn; lia]. destruct m; reflexivity.
  - destruct fmt as [|ch fmt]; [destruct m; reflexivity|].
    destruct m as [|m]; [simpl in Hm; lia|]. cbn [length] in Hn, Hm.
    destruct args as [|arg args]; [reflexivity|]. cbn [pack_loop].
    assert (Hstr : forall et fmt0, (length fmt0 <= length fmt)%nat ->
               (let* (field, fmt') := _pack_string arg fmt0 et in
                pack_loop n fmt' args (out ++ field))
               = (let* (field, fmt') := _pack_string arg fmt0 et in
                  pack_loop m fmt' args (out ++ field))).
    { intros et fmt0 Hl. destruct (_pack_string arg fmt0 et) as [[field fmt']| |] eqn:Ep;
        cbn [bind]; try reflexivity.
      apply _pack_string_rest in Ep. subst fmt'.
      pose proof (pop_digits_length fmt0). apply IH; lia. }
    destruct (pack_scalar ch arg) as [r|].
    + destruct r; cbn [bind]; try reflexivity. apply IH; lia.
    + destruct (Ascii.eqb ch "s"); [apply Hstr; lia|].
      destruct (Ascii.eqb ch "S"); [|reflexivity].
      destruct fmt as [|et fmt0]; [reflexivity|]. apply Hstr. simpl. lia.
Qed.

Lemma pack_loop_app n : forall f1 a1 o1,
  (length f1 <= n)%nat ->
  pack_loop (length f1) f1 a1 [] = Ok o1 ->
  forall f2 a2, starts_field f2 = true ->
  pack_loop (length (f1 ++ f2)) (f1 ++ f2) (a1 ++ a2) []
  = (let* o2 := pack_loop (length f2) f2 a2 [] in Ok (o1 ++ o2)).
Proof.
  induction n as [|n IH]; intros f1 a1 o1 Hn H f2 a2 Hs.
  - destruct f1; [|simpl in Hn; lia]. destruct a1; [|discriminate].
    injection H as <-. cbn [app]. destruct (pack_loop _ f2 a2 []); reflexivity.
  - destruct f1 as [|ch f1].
    { destruct a1; [|discriminate]. injection H as <-. cbn [app].
      destruct (pack_loop _ f2 a2 []); reflexivity. }
    destruct a1 as [|arg a1]; [discriminate|].
    cbn [length] in Hn. cbn [length pack_loop] in H. cbn [app length pack_loop].
    assert (Hstr : forall et fmt0,
               (length fmt0 <= length f1)%nat ->
               (let* (field, fmt') := _pack_string arg fmt0 et in
                pack_loop (length f1) fmt' a1 ([] ++ field)) = Ok o1 ->
               (let* (field, fmt') := _pack_string arg (fmt0 ++ f2) et in
                pack_loop (length (f1 ++ f2)) fmt' (a1 ++ a2) ([] ++ field))
               = (let* o2 := pack_loop (length f2) f2 a2 [] in Ok (o1 ++ o2))).
    { intros et fmt0 Hl Hp. rewrite (_pack_string_app _ _ _ _ Hs).
      destruct (_pack_string arg fmt0 et) as [[field r]| |] eqn:Ep;
        cbn [bind] in Hp |- *; try discriminate.
      apply _pack_string_rest in Ep. pose proof (pop_digits_length fmt0) as Hpl.
      rewrite <- Ep in Hpl.
      rewrite (pack_loop_fuel_irrelevant _ (length r)) in Hp by lia.
      rewrite pack_loop_out in Hp.
      destruct (pack_loop (length r) r a1 []) as [o1'| |] eqn:Er; cbn [bind] in Hp;
        try discriminate.
      injection Hp as <-.
      rewrite (pack_loop_fuel_irrelevant _ (length (r ++ f2)))
        by (rewrite !length_app; lia).
      rewrite pack_loop_out, (IH r a1 o1') by (assumption || lia).
      destruct (pack_loop (length f2) f2 a2 []); cbn [bind]; try reflexivity.
      rewrite app_assoc. reflexivity. }
    destruct (pack_scalar ch arg) as [r|].
    + destruct r as [b| |]; cbn [bind] in H |- *; try discriminate.
      rewrite pack_loop_out in H.
      destruct (pack_loop (length f1) f1 a1 []) as [o1'| |] eqn:Er; cbn [bind] in H;
        try discriminate.
      injection H as <-.
      rewrite pack_loop_out, (IH f1 a1 o1') by (assumption || lia).
      destruct (pack_loop (length f2) f2 a2 []); cbn [bind]; try reflexivity.
      rewrite app_assoc. reflexivity.
    + destruct (Ascii.eqb ch "s"); [apply Hstr; [lia | assumption]|].
      destruct (Ascii.eqb ch "S"); [|discriminate].
      destruct f1 as [|et fmt0]; [discriminate|]. cbn [app] in Hstr |- *.
      apply Hstr; [simpl; lia | exact H].
Qed.

Lemma list_ascii_of_string_append s1 s2 :
  list_ascii_of_string (String.append s1 s2)
  = list_ascii_of_string s1 ++ list_ascii_of_string s2.
Proof. induction s1 as [|c s1 IH]; simpl; [reflexivity | rewrite IH; reflexivity]. Qed.

(** X6. [pack] composes: when a format [f1] is packed with arguments [a1]
    and a second format [f2] does not begin with a digit, packing [f1 + f2]
    with [a1 + a2] gives the bytes of [f1], [a1] followed by those of [f2],
    [a2], or the error [f2], [a2] raises. *)
Theorem pack_app f1 a1 o1 f2 a2 :
  pack f1 a1 = Ok o1 ->
  starts_field (list_ascii_of_string f2) = true ->
  pack (String.append f1 f2) (a1 ++ a2) = (let* o2 := pack f2 a2 in Ok (o1 ++ o2)).
Proof.
  unfold pack. intros H Hs. rewrite list_ascii_of_string_append.
  apply (pack_loop_app (length (list_ascii_of_string f1))); [lia | assumption..].
Qed.

Lemma pack_app_witness :
  pack (String.append "Bs4" "HL") ([PyInt 7; PyBytes [1; 2]] ++ [PyInt 513; PyInt 9])
  = (let* o2 := pack "HL" [PyInt 513; PyInt 9] in
     Ok ([2; 1; 7; 85; 2; 2; 4; 0; 0; 0; 4; 2; 4; 0; 0; 0; 2; 1; 2; 0; 0] ++ o2)).
Proof.
  apply (pack_app "Bs4" [PyInt 7; PyBytes [1; 2]]); vm_compute; reflexivity.
Defined.

End CodecMore.

(** ** Further properties of the dispatcher *)

Section DispatcherMore.
Import struct.

(** What a handled frame can do to the table, the threads and the rest. *)
Lemma handle_message_frame self message self' :
  handle_message self message = Ok self' ->
  exists f,
    parse_header message = Ok f /\
    written self' = written self /\ tid_gen self' = tid_gen self /\
    ((callbacks self' = callbacks self /\ threads self' = threads self) \/
     (exists cb,
        callbacks self !! txid f = Some cb /\
        callbacks self' = delete (txid f) (callbacks self) /\
        threads self' = threads self ++ [(cb, code f, skipn 6 (body f))])).
Proof.
  unfold handle_message. destruct (parse_header message) as [f| |]; simpl; try discriminate.
  intros H. exists f. split; [reflexivity|]. revert H.
  destruct (txid f =? 0); [intros [= <-]; destruct (negb _); simpl; auto|].
  destruct (txid f =? 285212928); [intros [= <-]; destruct (negb _); simpl; auto|].
  destruct (negb (l0 f =? l1 f)); simpl;
    (destruct (callbacks self !! txid f) eqn:E; [case_decide|]);
    intros [= <-]; simpl; eauto 10.
Qed.

(** X7. In every reachable state each acknowledged identifier is still a
    key of the callback table: the acknowledged set never outlives its
    pending call. *)
Theorem acknowledged_are_pending self :
  reachable self ->
  forall k, k ∈ call_acknowledged self -> exists cb, callbacks self !! k = Some cb.
Proof.
  intros Hr k Hk. destruct (reachable_acknowledged_pending _ Hr k Hk) as [cb Hcb].
  exists cb. exact Hcb.
Qed.

Lemma acknowledged_are_pending_witness :
  exists cb, callbacks demo_after_ack !! Z.lor BASE 1 = Some cb.
Proof.
  apply (acknowledged_are_pending demo_after_ack).
  - eapply rtc_r; [exact demo_state_reachable|].
    apply (step_message demo_state demo_frame_ack). vm_compute. reflexivity.
  - vm_compute. reflexivity.
Defined.

Lemma next_position k :
  (k <= 255)%nat ->
  exists k', (k' <= 255)%nat /\
    next (gen_at k) = Ok (1 + Z.of_nat k mod 255, gen_at k') /\
    Z.of_nat k' mod 255 = (Z.of_nat k + 1) mod 255.
Proof.
  intros Hk. rewrite next_gen_at by assumption. unfold next_id.
  destruct (k <? 255)%nat eqn:E.
  - apply Nat.ltb_lt in E. exists (S k). split; [lia|]. split.
    + rewrite Z.mod_small by lia. f_equal. f_equal. lia.
    + f_equal. lia.
  - apply Nat.ltb_ge in E. assert (k = 255%nat) by lia. subst k.
    exists 1%nat. repeat split. lia.
Qed.

(** X9. The generator of line 28 is cyclic over 1..255: from any point of
    a pass, the [i]-th identifier drawn is [1 + (k + i) mod 255]; so
    identifiers are never 0, and the identifier of a call comes back 255
    calls later. *)
Theorem identifiers_cycle n : forall k,
  (k <= 255)%nat ->
  exists g,
    draw n (gen_at k)
    = Ok (map (fun i => 1 + (Z.of_nat k + Z.of_nat i) mod 255) (seq 0 n), g) /\
    gen_ok g.
Proof.
  induction n as [|n IH]; intros k Hk.
  - exists (gen_at k). split; [reflexivity|]. exists k. split; [assumption | reflexivity].
  - destruct (next_position k Hk) as (k' & Hk' & Hn & Hmod).
    destruct (IH k' Hk') as (g & Hd & Hg). exists g. split; [|assumption].
    cbn [draw]. rewrite Hn. cbn [bind]. rewrite Hd. cbn [bind seq map].
    rewrite Z.add_0_r. f_equal. f_equal. f_equal.
    rewrite <- seq_shift, map_map. apply map_ext. intros i.
    f_equal. rewrite <- Z.add_mod_idemp_l, Hmod, Z.add_mod_idemp_l by lia.
    f_equal. lia.
Qed.

Lemma identifiers_cycle_witness :
  exists g,
    draw 300 (gen_at 0)
    = Ok (map (fun i => 1 + (Z.of_nat 0 + Z.of_nat i) mod 255) (seq 0 300), g) /\
    gen_ok g.
Proof. apply (identifiers_cycle 300 0). lia. Defined.

(** X10. Handling a frame never registers a callback, never draws an
    identifier and never writes to the transport; it starts at most one
    callback thread, and only together with the removal of that callback
    from the table. *)
Theorem frames_only_consume self message self' :
  handle_message self message = Ok self' ->
  (forall k cb, callbacks self' !! k = Some cb -> callbacks self !! k = Some cb) /\
  tid_gen self' = tid_gen self /\
  written self' = written self /\
  (threads self' = threads self \/
   exists t cb code body,
     callbacks self !! t = Some cb /\ callbacks self' !! t = None /\
     threads self' = threads self ++ [(cb, code, body)]).
Proof.
  intros H. destruct (handle_message_frame _ _ _ H) as (f & _ & Hw & Hg & Hc).
  split; [intros k cb; apply (handle_message_callbacks _ _ _ _ _ H)|].
  split; [assumption|]. split; [assumption|].
  destruct Hc as [[_ ->]|(cb & Hcb & Hd & ->)]; [left; reflexivity|].
  right. exists (txid f), cb, (code f), (skipn 6 (body f)).
  split; [assumption|]. split; [rewrite Hd; apply lookup_delete_eq | reflexivity].
Qed.

Lemma frames_only_consume_witness :
  (forall k cb,
     callbacks demo_after_ack !! k = Some cb -> callbacks demo_state !! k = Some cb) /\
  tid_gen demo_after_ack = tid_gen demo_state /\
  written demo_after_ack = written demo_state /\
  (threads demo_after_ack = threads demo_state \/
   exists t cb code body,
     callbacks demo_state !! t = Some cb /\ callbacks demo_after_ack !! t = None /\
     threads demo_after_ack = threads demo_state ++ [(cb, code, body)]).
Proof.
  apply (frames_only_consume demo_state demo_frame_ack demo_after_ack).
  vm_compute. reflexivity.
Defined.

Lemma execute_send_sync self cmd request ret :
  0 <= cmd < 2 ^ 32 -> len request + 22 < 2 ^ 32 ->
  exists self',
    execute_send self cmd request None false ret = Ok (self', AtResponseWait None) /\
    callbacks self' = callbacks self /\
    call_acknowledged self' = call_acknowledged self /\
    tid_gen self' = tid_gen self /\
    written self' = written self ++ [header_of cmd 0 request ++ request] /\
    response_event self' = false.
Proof.
  intros Hc Hb. unfold execute_send. cbn [bind].
  rewrite build_header_ok by (assumption || lia). cbn [bind].
  eexists. split; [reflexivity|]. cbn. repeat split.
Qed.

Lemma execute_send_sync_response self cmd request ret self' c :
  execute_send self cmd request None false ret = Ok (self', c) ->
  response self' = response self.
Proof.
  unfold execute_send. cbn [bind].
  destruct (build_header cmd 0 request); cbn [bind]; try discriminate.
  intros [= <- <-]. reflexivity.
Qed.

(** X11. A synchronous call (no callback, not asynchronous) draws no
    identifier and registers nothing; it writes a 20-byte header carrying
    the bare channel base, then blocks.  When the reader handles a frame
    tagged with the bare base, it sets the event (line 96) before it
    stores the response (line 97): a caller that goes on in between
    returns the response that was stored before its call, not the frame;
    a caller that goes on after the frame is handled returns the frame's
    code and body.  The table is untouched throughout. *)
Theorem sync_call_released_before_store self cmd request ret message f :
  0 <= cmd < 2 ^ 32 -> len request + 22 < 2 ^ 32 ->
  parse_header message = Ok f -> txid f = BASE ->
  exists self' sent mid self'',
    execute_send self cmd request None false ret = Ok (self', AtResponseWait None) /\
    callbacks self' = callbacks self /\ tid_gen self' = tid_gen self /\
    written self' = written self ++ [sent] /\
    len sent = 20 + len request /\
    (exists g, parse_header sent = Ok g /\ txid g = BASE /\ code g = cmd /\ body g = request) /\
    execute_resume self' (AtResponseWait None) = None /\
    handle_message_released self' message = Some mid /\
    execute_resume mid (AtResponseWait None) = Some (Returned (response self)) /\
    handle_message self' message = Ok self'' /\
    self'' = store_response mid (code f) (body f) /\
    callbacks self'' = callbacks self /\
    call_acknowledged self'' = call_acknowledged self /\
    execute_resume self'' (AtResponseWait None) = Some (Returned (Some (code f, body f))).
Proof.
  intros Hc Hb Hp Ht.
  destruct (execute_send_sync self cmd request ret Hc Hb)
    as (self' & He & Hcb & Hack & Hg & Hw & Hev).
  pose proof (execute_send_sync_response _ _ _ _ _ _ He) as Hresp.
  assert (Hm : exists mid,
             handle_message_released self' message = Some mid /\
             response_event mid = true /\ response mid = response self' /\
             handle_message self' message = Ok (store_response mid (code f) (body f)) /\
             callbacks mid = callbacks self' /\
             call_acknowledged mid = call_acknowledged self').
  { unfold handle_message_released, handle_message. rewrite Hp. cbn [bind]. rewrite Ht.
    change (BASE =? 0) with false. change (BASE =? 285212928) with true. cbv iota.
    eexists. split; [reflexivity|]. destruct (negb _); cbn; repeat split. }
  destruct Hm as (mid & Hrel & Hev1 & Hr1 & Hm & Hcb1 & Hack1).
  exists self', (header_of cmd 0 request ++ request), mid,
    (store_response mid (code f) (body f)).
  split; [assumption|]. split; [assumption|]. split; [assumption|].
  split; [assumption|].
  split; [rewrite len_app, header_of_length; reflexivity|].
  split.
  { eexists. split; [apply parse_build; assumption || lia|]. cbn. repeat split. }
  split; [unfold execute_resume; rewrite Hev; reflexivity|].
  split; [assumption|].
  split; [unfold execute_resume; rewrite Hev1, Hr1, Hresp; reflexivity|].
  split; [assumption|]. split; [reflexivity|].
  cbn [store_response callbacks call_acknowledged].
  split; [congruence|]. split; [congruence|].
  unfold execute_resume. cbn [store_response response_event response].
  rewrite Hev1. reflexivity.
Qed.

Lemma sync_call_released_before_store_witness :
  exists self' sent mid self'',
    execute_send init 0x42 [1; 2] None false 22 = Ok (self', AtResponseWait None) /\
    callbacks self' = callbacks init /\ tid_gen self' = tid_gen init /\
    written self' = written init ++ [sent] /\
    len sent = 20 + len [1; 2] /\
    (exists g, parse_header sent = Ok g /\ txid g = BASE /\ code g = 0x42 /\ body g = [1; 2]) /\
    execute_resume self' (AtResponseWait None) = None /\
    handle_message_released self' demo_frame_sync = Some mid /\
    execute_resume mid (AtResponseWait None) = Some (Returned (response init)) /\
    handle_message self' demo_frame_sync = Ok self'' /\
    self'' = store_response mid 0x42 [111; 107] /\
    callbacks self'' = callbacks init /\
    call_acknowledged self'' = call_acknowledged init /\
    execute_resume self'' (AtResponseWait None) = Some (Returned (Some (0x42, [111; 107]))).
Proof.
  apply (sync_call_released_before_store init 0x42 [1; 2] 22 demo_frame_sync
           {| l0 := 22; l1 := 22; code := 0x42; txid := BASE; body := [111; 107] |});
    vm_compute; try split; congruence.
Defined.



(** X13. Identifier reuse: when [execute] allocates an identifier whose
    earlier transaction is acknowledged and not completed, the table entry
    is overwritten and the identifier stays acknowledged; the very next
    frame with that identifier is then taken as the completion: it starts
    the new callback, removes the entry, and leaves the response event
    clear, so the caller stays blocked on it. *)
Theorem reused_identifier_completes_at_once self cmd request cb is_async ret k old message f :
  (k <= 255)%nat -> tid_gen self = gen_at k ->
  0 <= cmd < 2 ^ 32 -> len request + 22 < 2 ^ 32 ->
  callbacks self !! Z.lor BASE (next_id k) = Some old ->
  Z.lor BASE (next_id k) ∈ call_acknowledged self ->
  parse_header message = Ok f -> txid f = Z.lor BASE (next_id k) ->
  exists s0 s1,
    execute_send self cmd request (Some cb) is_async ret = Ok (s0, AtResponseWait None) /\
    callbacks s0 !! Z.lor BASE (next_id k) = Some cb /\
    Z.lor BASE (next_id k) ∈ call_acknowledged s0 /\
    handle_message s0 message = Ok s1 /\
    threads s1 = threads self ++ [(cb, code f, skipn 6 (body f))] /\
    callbacks s1 !! Z.lor BASE (next_id k) = None /\
    execute_resume s1 (AtResponseWait None) = None.
Proof.
  intros Hk Hg Hc Hb Hold Hack Hp Ht.
  pose proof (next_id_range k) as Hid.
  assert (Hn : next (tid_gen self)
               = Ok (next_id k, gen_at (if (k <? 255)%nat then S k else 1)))
    by (rewrite Hg; apply next_gen_at; assumption).
  destruct (execute_send_callback self cmd request cb is_async ret _ _ Hn Hid Hc Hb)
    as (s0 & He & Hcb0 & Hack0 & _ & _ & Hev0).
  assert (Hth0 : threads s0 = threads self).
  { revert He. unfold execute_send. rewrite Hn. cbn [bind].
    destruct (build_header _ _ request); cbn [bind]; try discriminate.
    intros [= <-]. reflexivity. }
  assert (Htag : tagged (Z.lor BASE (next_id k))) by (exists (next_id k); split; [lia | reflexivity]).
  destruct (tagged_not_base _ Htag) as [H0 HB]. rewrite <- Ht in H0, HB.
  assert (Hl0 : callbacks s0 !! txid f = Some cb) by (rewrite Ht, Hcb0; apply lookup_insert_eq).
  assert (Hin0 : txid f ∈ call_acknowledged s0) by (rewrite Ht, Hack0; assumption).
  destruct (handle_message_complete s0 message f cb Hp H0 HB Hl0 Hin0)
    as (s1 & Hm & Hcb1 & _ & Hth1 & _ & Hev1).
  exists s0, s1.
  split; [assumption|]. split; [rewrite <- Ht; assumption|].
  split; [rewrite <- Ht; assumption|]. split; [assumption|].
  split; [rewrite Hth1, Hth0; reflexivity|].
  split; [rewrite Hcb1, <- Ht; apply lookup_delete_eq|].
  unfold execute_resume. rewrite Hev1, Hev0. reflexivity.
Qed.




Lemma reused_identifier_completes_at_once_witness :
  exists s0 s1,
    execute_send demo_wrapped 0x42 [] (Some (UserCallback 1)) false 26
      = Ok (s0, AtResponseWait None) /\
    callbacks s0 !! Z.lor BASE (next_id 255) = Some (UserCallback 1) /\
    Z.lor BASE (next_id 255) ∈ call_acknowledged s0 /\
    handle_message s0 demo_frame_ack = Ok s1 /\
    threads s1 = threads demo_wrapped ++ [(UserCallback 1, 0x42, skipn 6 [97; 99; 107])] /\
    callbacks s1 !! Z.lor BASE (next_id 255) = None /\
    execute_resume s1 (AtResponseWait None) = None.
Proof.
  apply (reused_identifier_completes_at_once demo_wrapped 0x42 [] (UserCallback 1) false 26
           255 (UserCallback 0) demo_frame_ack
           {| l0 := 26; l1 := 26; code := 0x42; txid := BASE + 1; body := [97; 99; 107] |});
    try reflexivity; try lia; try (vm_compute; split; congruence).
Defined.


(** Once the header is parsed, [handle_message] raises nothing. *)
Lemma handle_message_parsed self message f :
  parse_header message = Ok f -> exists self', handle_message self message = Ok self'.
Proof.
  intros Hp. unfold handle_message. rewrite Hp. cbn [bind].
  destruct (txid f =? 0); [eauto|]. destruct (txid f =? 285212928); [eauto|].
  destruct (callbacks _ !! txid f); [case_decide|]; eauto.
Qed.

Lemma parse_header_framed message :
  if well_framed message
  then exists f, parse_header message = Ok f
  else parse_header message = Raise AssertionError \/
       parse_header message = Raise StructError.
Proof.
  unfold well_framed, parse_header.
  do 20 (destruct message as [|? message];
         [cbn -[Z.eqb];
          repeat match goal with
                 | |- context [Z.eqb ?a ?b] => destruct (Z.eqb a b)
                 end; cbn; auto|]).
  cbn -[Z.eqb be_value le_value].
  repeat match goal with
         | |- context [Z.eqb ?a ?b] => destruct (Z.eqb a b)
         end; cbn -[be_value le_value]; eauto.
Qed.

(** X14. [handle_message] raises exactly on malformed messages: a message
    of at least 20 bytes with the bytes 02 04 at offsets 4 and 10 is handled
    without an exception, whatever its tag and the state; any other
    message, the empty read of a closed device among them, raises
    AssertionError (lines 81-82) or struct.error (lines 84-87). *)
Theorem handle_message_raises_iff_malformed self message :
  (well_framed message = true -> exists self', handle_message self message = Ok self') /\
  (well_framed message = false ->
   handle_message self message = Raise AssertionError \/
   handle_message self message = Raise StructError) /\
  handle_message self [] = Raise AssertionError.
Proof.
  pose proof (parse_header_framed message) as H.
  split; [|split].
  - intros Hw. rewrite Hw in H. destruct H as [f Hf].
    eapply handle_message_parsed. eassumption.
  - intros Hw. rewrite Hw in H. unfold handle_message.
    destruct H as [-> | ->]; [left | right]; reflexivity.
  - reflexivity.
Qed.

Lemma handle_message_raises_iff_malformed_witness :
  (well_framed demo_frame_9 = true ->
   exists self', handle_message demo_state demo_frame_9 = Ok self') /\
  (well_framed demo_frame_9 = false ->
   handle_message demo_state demo_frame_9 = Raise AssertionError \/
   handle_message demo_state demo_frame_9 = Raise StructError) /\
  handle_message demo_state [] = Raise AssertionError.
Proof. exact (handle_message_raises_iff_malformed demo_state demo_frame_9). Defined.

(** X15. The reader thread: over well-formed chunks it handles every one,
    in order, and ends in a state reached by moves of the object; at the
    first malformed chunk it raises, and no later chunk is handled. *)
Theorem reader_runs_until_malformed self good :
  Forall (fun m => well_framed m = true) good ->
  (exists self', reader self good = Ok self' /\ rtc step self self') /\
  (forall bad later,
     well_framed bad = false ->
     reader self (good ++ bad :: later) = Raise AssertionError \/
     reader self (good ++ bad :: later) = Raise StructError).
Proof.
  intros Hgood. revert self.
  induction Hgood as [|m good Hm Hgood IH]; intros self.
  - split; [exists self; split; [reflexivity | apply rtc_refl]|].
    intros bad later Hbad. cbn [app reader].
    destruct (handle_message_raises_iff_malformed self bad) as (_ & Hr & _).
    destruct (Hr Hbad) as [-> | ->]; [left | right]; reflexivity.
  - destruct (handle_message_raises_iff_malformed self m) as (Hok & _ & _).
    destruct (Hok Hm) as [s1 Hs1]. destruct (IH s1) as [(s2 & Hr2 & Hrtc) Hbad].
    split.
    + exists s2. cbn [reader]. rewrite Hs1. cbn [bind]. split; [assumption|].
      eapply rtc_l; [|exact Hrtc]. eapply step_message. exact Hs1.
    + intros bad later Hb. cbn [app reader]. rewrite Hs1. cbn [bind]. apply Hbad. exact Hb.
Qed.

Lemma reader_runs_until_malformed_witness :
  (exists self',
     reader demo_state [demo_frame_ack; demo_frame_done] = Ok self' /\
     rtc step demo_state self') /\
  (forall bad later,
     well_framed bad = false ->
     reader demo_state ([demo_frame_ack; demo_frame_done] ++ bad :: later)
     = Raise AssertionError \/
     reader demo_state ([demo_frame_ack; demo_frame_done] ++ bad :: later)
     = Raise StructError).
Proof.
  apply (reader_runs_until_malformed demo_state [demo_frame_ack; demo_frame_done]).
  repeat constructor.
Defined.

End DispatcherMore.

(** ** Properties of the message builders and parsers *)

Section Catalog.
Import struct.

Lemma hex_value_digit n : 0 <= n < 16 -> hex_value (hex_digit n) = Some n.
Proof.
  intros H.
  assert (Hall : forallb (fun i => match hex_value (hex_digit i) with
                                   | Some d => d =? i
                                   | None => false
                                   end) (range 0 16) = true)
    by (vm_compute; reflexivity).
  rewrite forallb_forall in Hall. specialize (Hall n).
  destruct (hex_value (hex_digit n)) as [d|].
  - f_equal. apply Z.eqb_eq, Hall. apply range_spec. simpl. lia.
  - assert (false = true); [|discriminate]. apply Hall. apply range_spec. simpl. lia.
Qed.

Lemma be_value_range bs : Forall is_byte bs -> 0 <= be_value bs < 256 ^ len bs.
Proof.
  induction 1 as [|b bs Hb Hbs IH].
  - change (len []) with 0. unfold be_value. simpl. lia.
  - rewrite be_value_cons. unfold len in *. simpl length.
    rewrite Nat2Z.inj_succ, Z.pow_succ_r by lia. unfold is_byte in Hb. nia.
Qed.

Lemma py_int16_loop_hexlify data : forall acc,
  Forall is_byte data ->
  py_int16_loop (hexlify data) acc = Ok (acc * 256 ^ len data + be_value data).
Proof.
  induction data as [|b data IH]; intros acc Hb.
  - simpl. change (len []) with 0. unfold be_value. simpl. f_equal. lia.
  - inversion Hb as [|? ? Hx Hxs]; subst. unfold is_byte in Hx.
    change (hexlify (b :: data))
      with (hex_digit (b / 16) :: hex_digit (b mod 16) :: hexlify data).
    cbn [py_int16_loop].
    rewrite hex_value_digit
      by (split; [apply Z.div_pos; lia | apply Z.div_lt_upper_bound; lia]).
    rewrite hex_value_digit by (apply Z.mod_pos_bound; lia).
    rewrite IH by assumption. rewrite be_value_cons. unfold len. simpl length.
    rewrite Nat2Z.inj_succ, Z.pow_succ_r by lia.
    pose proof (Z.div_mod b 16). f_equal. lia.
Qed.

(** [int(binascii.hexlify(data), 16)] is the big-endian value of [data],
    and a ValueError on the empty buffer. *)
Lemma py_int16_hexlify data :
  Forall is_byte data ->
  py_int16 (hexlify data)
  = match data with [] => Raise ValueError | _ :: _ => Ok (be_value data) end.
Proof.
  intros Hb. destruct data as [|b data]; [reflexivity|].
  change (hexlify (b :: data))
    with (hex_digit (b / 16) :: hex_digit (b mod 16) :: hexlify data).
  unfold py_int16.
  change (hex_digit (b / 16) :: hex_digit (b mod 16) :: hexlify data)
    with (hexlify (b :: data)).
  rewrite py_int16_loop_hexlify by assumption. rewrite Z.mul_0_l. reflexivity.
Qed.

(** X16. [bytes_to_ipv4] and [bytes_to_ipv6] read a buffer as one
    big-endian integer: the empty buffer raises ValueError; a buffer of 1
    to 4 (resp. 1 to 16) bytes always gives the address with that value,
    so a short buffer is not rejected; a longer buffer is accepted exactly
    when its value still fits 32 (resp. 128) bits. *)
Theorem bytes_to_ip_value data :
  Forall is_byte data ->
  bytes_to_ipv4 [] = Raise ValueError /\ bytes_to_ipv6 [] = Raise ValueError /\
  (data <> [] ->
   bytes_to_ipv4 data
   = (if be_value data <? 2 ^ 32 then Ok (ipaddress.V4 (be_value data))
      else Raise ValueError) /\
   bytes_to_ipv6 data
   = (if be_value data <? 2 ^ 128 then Ok (ipaddress.V6 (be_value data))
      else Raise ValueError)) /\
  (data <> [] -> (length data <= 4)%nat ->
   bytes_to_ipv4 data = Ok (ipaddress.V4 (be_value data))) /\
  (data <> [] -> (length data <= 16)%nat ->
   bytes_to_ipv6 data = Ok (ipaddress.V6 (be_value data))).
Proof.
  intros Hb. pose proof (be_value_range data Hb) as Hr.
  assert (Hgen : data <> [] ->
            bytes_to_ipv4 data
            = (if be_value data <? 2 ^ 32 then Ok (ipaddress.V4 (be_value data))
               else Raise ValueError) /\
            bytes_to_ipv6 data
            = (if be_value data <? 2 ^ 128 then Ok (ipaddress.V6 (be_value data))
               else Raise ValueError)).
  { intros Hne. unfold bytes_to_ipv4, bytes_to_ipv6. rewrite py_int16_hexlify by assumption.
    destruct data as [|b data]; [contradiction|]. cbn [bind].
    unfold ipaddress.IPv4Address, ipaddress.IPv6Address.
    replace (0 <=? be_value (b :: data)) with true by (symmetry; apply Z.leb_le; lia).
    split; reflexivity. }
  split; [reflexivity|]. split; [reflexivity|]. split; [exact Hgen|].
  split; intros Hne Hlen; destruct (Hgen Hne) as [H4 H6].
  - rewrite H4. replace (be_value data <? 2 ^ 32) with true; [reflexivity|].
    symmetry. apply Z.ltb_lt. eapply Z.lt_le_trans; [apply Hr|].
    change (2 ^ 32) with (256 ^ 4). apply Z.pow_le_mono_r; unfold len; lia.
  - rewrite H6. replace (be_value data <? 2 ^ 128) with true; [reflexivity|].
    symmetry. apply Z.ltb_lt. eapply Z.lt_le_trans; [apply Hr|].
    change (2 ^ 128) with (256 ^ 16). apply Z.pow_le_mono_r; unfold len; lia.
Qed.

Lemma bytes_to_ip_value_witness :
  bytes_to_ipv4 [] = Raise ValueError /\ bytes_to_ipv6 [] = Raise ValueError /\
  ([10; 0; 0; 1] <> [] ->
   bytes_to_ipv4 [10; 0; 0; 1]
   = (if be_value [10; 0; 0; 1] <? 2 ^ 32 then Ok (ipaddress.V4 (be_value [10; 0; 0; 1]))
      else Raise ValueError) /\
   bytes_to_ipv6 [10; 0; 0; 1]
   = (if be_value [10; 0; 0; 1] <? 2 ^ 128 then Ok (ipaddress.V6 (be_value [10; 0; 0; 1]))
      else Raise ValueError)) /\
  ([10; 0; 0; 1] <> [] -> (length [10; 0; 0; 1] <= 4)%nat ->
   bytes_to_ipv4 [10; 0; 0; 1] = Ok (ipaddress.V4 (be_value [10; 0; 0; 1]))) /\
  ([10; 0; 0; 1] <> [] -> (length [10; 0; 0; 1] <= 16)%nat ->
   bytes_to_ipv6 [10; 0; 0; 1] = Ok (ipaddress.V6 (be_value [10; 0; 0; 1]))).
Proof.
  apply (bytes_to_ip_value [10; 0; 0; 1]). repeat constructor; vm_compute; congruence.
Defined.

Lemma pop0_suffix (P : Z -> Prop) d b r :
  pop0 d = Ok (b, r) -> Forall P d -> Forall P r.
Proof. destruct d; [discriminate|]. intros [= <- <-] H. inversion H; assumption. Qed.

Lemma take_asn_int_loop_suffix (P : Z -> Prop) n : forall acc d v r,
  take_asn_int_loop n acc d = Ok (v, r) -> Forall P d -> Forall P r.
Proof.
  induction n as [|n IH]; intros acc d v r H Hd; cbn [take_asn_int_loop] in H.
  - injection H as _ <-. assumption.
  - destruct (pop0 d) as [[b d']| |] eqn:E; cbn [bind] in H; try discriminate.
    eapply IH; [eassumption|]. eapply pop0_suffix; eassumption.
Qed.

Lemma take_asn_int_suffix (P : Z -> Prop) d v r :
  take_asn_int d = Ok (v, r) -> Forall P d -> Forall P r.
Proof.
  unfold take_asn_int. intros H Hd.
  destruct (pop0 d) as [[t d1]| |] eqn:E1; cbn [bind] in H; try discriminate.
  destruct (py_assert (t =? 2)); cbn [bind] in H; try discriminate.
  destruct (pop0 d1) as [[l d2]| |] eqn:E2; cbn [bind] in H; try discriminate.
  eapply take_asn_int_loop_suffix; [eassumption|].
  eapply pop0_suffix; [eassumption|]. eapply pop0_suffix; eassumption.
Qed.

Lemma take_valid_loop_suffix (P : Z -> Prop) n : forall i acc d v r,
  take_valid_loop n i acc d = Ok (v, r) -> Forall P d -> Forall P r.
Proof.
  induction n as [|n IH]; intros i acc d v r H Hd; cbn [take_valid_loop] in H.
  - injection H as _ <-. assumption.
  - destruct (pop0 d) as [[b d']| |] eqn:E; cbn [bind] in H; try discriminate.
    eapply IH; [eassumption|]. eapply pop0_suffix; eassumption.
Qed.

Lemma take_valid_suffix (P : Z -> Prop) d v r :
  take_valid d = Ok (v, r) -> Forall P d -> Forall P r.
Proof.
  unfold take_valid. intros H Hd.
  destruct (pop0 d) as [[t d1]| |] eqn:E1; cbn [bind] in H; try discriminate.
  destruct (py_assert _); cbn [bind] in H; try discriminate.
  destruct (pop0 d1) as [[valid d2]| |] eqn:E2; cbn [bind] in H; try discriminate.
  assert (H2 : Forall P d2)
    by (eapply pop0_suffix; [eassumption|]; eapply pop0_suffix; eassumption).
  destruct (negb (Z.land valid 128 =? 0)).
  - destruct (take_valid_loop _ 0 0 d2) as [[v' d3]| |] eqn:E3; cbn [bind] in H;
      try discriminate.
    injection H as _ <-. eapply take_valid_loop_suffix; eassumption.
  - cbn [bind] in H. injection H as _ <-. assumption.
Qed.

Lemma unpack_string_bytes (P : Z -> Prop) d payload r :
  unpack_string d = Ok (payload, r) -> Forall P d -> Forall P payload /\ Forall P r.
Proof.
  unfold unpack_string. intros H Hd.
  destruct (take_valid d) as [[valid d1]| |] eqn:E1; cbn [bind] in H; try discriminate.
  destruct (take_asn_int d1) as [[count d2]| |] eqn:E2; cbn [bind] in H; try discriminate.
  destruct (take_asn_int d2) as [[padding d3]| |] eqn:E3; cbn [bind] in H; try discriminate.
  destruct (field_size_of count valid padding); cbn [bind] in H; try discriminate.
  injection H as <- <-.
  assert (H3 : Forall P d3).
  { eapply take_asn_int_suffix; [eassumption|].
    eapply take_asn_int_suffix; [eassumption|].
    eapply take_valid_suffix; eassumption. }
  split; [apply Forall_take | apply Forall_drop]; assumption.
Qed.

Lemma unpack_loop_bytes fmt : forall data out vals,
  unpack_loop fmt data out = Ok vals ->
  Forall is_byte data -> Forall bytes_value out -> Forall bytes_value vals.
Proof.
  induction fmt as [|ch fmt IH]; intros data out vals H Hd Ho.
  - injection H as <-. assumption.
  - cbn [unpack_loop] in H. destruct (Ascii.eqb ch "n").
    + destruct (take_asn_int data) as [[v d]| |] eqn:E; cbn [bind] in H; try discriminate.
      eapply IH; [eassumption | eapply take_asn_int_suffix; eassumption|].
      apply Forall_app. split; [assumption|]. constructor; [exact I | constructor].
    + destruct (Ascii.eqb ch "s"); [|discriminate].
      destruct (unpack_string data) as [[b d]| |] eqn:E; cbn [bind] in H; try discriminate.
      destruct (unpack_string_bytes _ _ _ _ E Hd) as [Hb Hr].
      eapply IH; [eassumption | assumption|].
      apply Forall_app. split; [assumption|]. constructor; [exact Hb | constructor].
Qed.

Lemma slice_length {A} a b (l : list A) :
  length (slice a b l) = Nat.min (b - a) (length l - a).
Proof. unfold slice. rewrite length_take, length_drop. reflexivity. Qed.

Lemma Forall_slice {A} (P : A -> Prop) a b l : Forall P l -> Forall P (slice a b l).
Proof. intros H. unfold slice. apply Forall_take, Forall_drop. assumption. Qed.

Lemma bytes_to_ipv4_cases d :
  Forall is_byte d -> (length d <= 4)%nat ->
  bytes_to_ipv4 d
  = if (length d =? 0)%nat then Raise ValueError else Ok (ipaddress.V4 (be_value d)).
Proof.
  intros Hb Hl. unfold bytes_to_ipv4. rewrite py_int16_hexlify by assumption.
  destruct d as [|b d]; [reflexivity|]. cbn [bind length Nat.eqb].
  pose proof (be_value_range _ Hb) as Hr. unfold ipaddress.IPv4Address.
  replace (0 <=? be_value (b :: d)) with true by (symmetry; apply Z.leb_le; lia).
  replace (be_value (b :: d) <? 2 ^ 32) with true; [reflexivity|].
  symmetry. apply Z.ltb_lt. eapply Z.lt_le_trans; [apply Hr|].
  change (2 ^ 32) with (256 ^ 4). apply Z.pow_le_mono_r; unfold len; lia.
Qed.

Lemma bytes_to_ipv6_cases d :
  Forall is_byte d -> (length d <= 16)%nat ->
  bytes_to_ipv6 d
  = if (length d =? 0)%nat then Raise ValueError else Ok (ipaddress.V6 (be_value d)).
Proof.
  intros Hb Hl. unfold bytes_to_ipv6. rewrite py_int16_hexlify by assumption.
  destruct d as [|b d]; [reflexivity|]. cbn [bind length Nat.eqb].
  pose proof (be_value_range _ Hb) as Hr. unfold ipaddress.IPv6Address.
  replace (0 <=? be_value (b :: d)) with true by (symmetry; apply Z.leb_le; lia).
  replace (be_value (b :: d) <? 2 ^ 128) with true; [reflexivity|].
  symmetry. apply Z.ltb_lt. eapply Z.lt_le_trans; [apply Hr|].
  change (2 ^ 128) with (256 ^ 16). apply Z.pow_le_mono_r; unfold len; lia.
Qed.

(** X17. The negotiated-address parser on a buffer of bytes that [unpack]
    accepts under ['nsnnnn']: the tuple assignment of line 253 never fails,
    the second value is a bytes object, and the three addresses are the
    big-endian values of its bytes 0-3, 4-7 and 8-11.  With 9 to 11 bytes
    the third address is read from the 1 to 3 bytes that are there; with 8
    bytes or fewer the parser raises ValueError. *)
Theorem neg_ip_addr_parser data vals :
  Forall is_byte data -> unpack "nsnnnn" data = Ok vals ->
  exists addresses,
    nth 1 vals (PyInt 0) = PyBytes addresses /\ length vals = 6%nat /\
    ((9 <= length addresses)%nat ->
     unpack_UtaMsCallPsGetNegIpAddrReq data
     = Ok (ipaddress.V4 (be_value (slice 0 4 addresses)),
           ipaddress.V4 (be_value (slice 4 8 addresses)),
           ipaddress.V4 (be_value (slice 8 12 addresses)))) /\
    ((length addresses <= 8)%nat ->
     unpack_UtaMsCallPsGetNegIpAddrReq data = Raise ValueError).
Proof.
  intros Hd Hu. unfold unpack_UtaMsCallPsGetNegIpAddrReq. rewrite Hu. cbn [bind].
  assert (Hbytes : Forall bytes_value vals)
    by (eapply unpack_loop_bytes; [exact Hu | assumption | constructor]).
  pose proof (unpack_loop_shape _ _ _ _ Hu) as (vs & Hvs & Hk).
  rewrite app_nil_l in Hvs. subst vs.
  change (list_ascii_of_string "nsnnnn") with ["n"; "s"; "n"; "n"; "n"; "n"] in Hk.
  inversion Hk as [|c0 v0 r0 w0 K0 T0]; subst. clear Hk.
  inversion T0 as [|c1 v1 r1 w1 K1 T1]; subst. clear T0.
  inversion T1 as [|c2 v2 r2 w2 K2 T2]; subst. clear T1.
  inversion T2 as [|c3 v3 r3 w3 K3 T3]; subst. clear T2.
  inversion T3 as [|c4 v4' r4 w4 K4 T4]; subst. clear T3.
  inversion T4 as [|c5 v5 r5 w5 K5 T5]; subst. clear T4.
  inversion T5; subst. clear T5.
  destruct K1 as [[Hc _]|[_ [addresses ->]]]; [discriminate|].
  exists addresses. split; [reflexivity|]. split; [reflexivity|].
  assert (Ha : Forall is_byte addresses).
  { inversion Hbytes as [|? ? _ Hb1]; subst. inversion Hb1 as [|? ? Hb _]; subst. exact Hb. }
  cbn [py_bytes_slice bind].
  rewrite !bytes_to_ipv4_cases
    by (try (apply Forall_slice; assumption); rewrite slice_length; lia).
  rewrite !slice_length.
  split; intros Hlen.
  - replace (Nat.min (4 - 0) (length addresses - 0) =? 0)%nat with false
      by (symmetry; apply Nat.eqb_neq; lia).
    cbn [bind].
    replace (Nat.min (8 - 4) (length addresses - 4) =? 0)%nat with false
      by (symmetry; apply Nat.eqb_neq; lia).
    cbn [bind].
    replace (Nat.min (12 - 8) (length addresses - 8) =? 0)%nat with false
      by (symmetry; apply Nat.eqb_neq; lia).
    reflexivity.
  - replace (Nat.min (12 - 8) (length addresses - 8) =? 0)%nat with true
      by (symmetry; apply Nat.eqb_eq; lia).
    destruct (Nat.min (4 - 0) (length addresses - 0) =? 0)%nat; [reflexivity|].
    cbn [bind].
    destruct (Nat.min (8 - 4) (length addresses - 4) =? 0)%nat; reflexivity.
Qed.

Lemma neg_ip_addr_parser_witness :
  exists addresses,
    nth 1 demo_addresses_values (PyInt 0) = PyBytes addresses /\
    length demo_addresses_values = 6%nat /\
    ((9 <= length addresses)%nat ->
     unpack_UtaMsCallPsGetNegIpAddrReq demo_addresses
     = Ok (ipaddress.V4 (be_value (slice 0 4 addresses)),
           ipaddress.V4 (be_value (slice 4 8 addresses)),
           ipaddress.V4 (be_value (slice 8 12 addresses)))) /\
    ((length addresses <= 8)%nat ->
     unpack_UtaMsCallPsGetNegIpAddrReq demo_addresses = Raise ValueError).
Proof.
  apply (neg_ip_addr_parser demo_addresses demo_addresses_values).
  - repeat constructor; vm_compute; congruence.
  - vm_compute. reflexivity.
Defined.

Lemma slice_entry {A} k (x : A) pre (a t : A) rest :
  length pre = (2 * k)%nat ->
  slice (2 * k + 1) (2 * k + 3) (x :: pre ++ a :: t :: rest) = [a; t].
Proof.
  intros Hl. unfold slice.
  replace (2 * k + 3 - (2 * k + 1))%nat with 2%nat by lia.
  replace (2 * k + 1)%nat with (S (length pre)) by lia.
  cbn [skipn]. rewrite drop_app_length. reflexivity.
Qed.

(** The loop of lines 268-273 over a run of entries that raise nothing. *)
Lemma dns_loop_prefix es : forall k pre n0 tail more v4 v6,
  length pre = (2 * k)%nat ->
  Forall (fun e => Forall is_byte (fst e)) es -> Forall dns_entry_ok es ->
  dns_loop (seq k (length es + more)) (PyInt n0 :: pre ++ dns_entries es ++ tail) v4 v6
  = dns_loop (seq (k + length es) more) (PyInt n0 :: pre ++ dns_entries es ++ tail)
      (v4 ++ dns_v4 es) (v6 ++ dns_v6 es).
Proof.
  induction es as [|[a t] es IH]; intros k pre n0 tail more v4 v6 Hl Hb Hok.
  - cbn [length dns_entries flat_map dns_v4 dns_v6 List.filter map app Nat.add].
    rewrite Nat.add_0_r, !app_nil_r. reflexivity.
  - inversion Hb as [|? ? Ha Hb']; subst. inversion Hok as [|? ? Hoa Hok']; subst.
    cbn [fst snd] in Ha. unfold dns_entry_ok in Hoa. cbn [fst snd] in Hoa.
    cbn [length Nat.add seq dns_loop].
    change (dns_entries ((a, t) :: es)) with ([PyBytes a; PyInt t] ++ dns_entries es).
    rewrite <- (app_assoc [PyBytes a; PyInt t]). cbn [app].
    rewrite slice_entry by assumption. cbn [py_eq_int].
    assert (Hnext : forall w4 w6,
               dns_loop (seq (S k) (length es + more))
                 (PyInt n0 :: pre ++ PyBytes a :: PyInt t :: dns_entries es ++ tail) w4 w6
               = dns_loop (seq (k + S (length es)) more)
                   (PyInt n0 :: pre ++ PyBytes a :: PyInt t :: dns_entries es ++ tail)
                   (w4 ++ dns_v4 es) (w6 ++ dns_v6 es)).
    { intros w4 w6.
      replace (pre ++ PyBytes a :: PyInt t :: dns_entries es ++ tail)
        with ((pre ++ [PyBytes a; PyInt t]) ++ dns_entries es ++ tail)
        by (rewrite <- app_assoc; reflexivity).
      rewrite (IH (S k)) by (rewrite ?length_app; simpl; assumption || lia).
      replace (S k + length es)%nat with (k + S (length es))%nat by lia. reflexivity. }
    assert (Hne : forall n, (n > 0)%nat -> a <> [] ->
              (length (slice 0 n a) =? 0)%nat = false).
    { intros n Hn Hna. apply Nat.eqb_neq. rewrite slice_length.
      destruct a; [contradiction | simpl; lia]. }
    unfold dns_v4, dns_v6. cbn [List.filter fst snd].
    destruct (t =? 1) eqn:E1.
    + apply Z.eqb_eq in E1. subst t. cbn [py_bytes_slice bind Z.eqb Pos.eqb].
      rewrite bytes_to_ipv4_cases
        by (try (apply Forall_slice; assumption); rewrite slice_length; lia).
      rewrite Hne by (lia || (apply Hoa; left; reflexivity)). cbn [bind].
      rewrite Hnext. cbn [map]. unfold dns_v4, dns_v6. rewrite <- !app_assoc. reflexivity.
    + destruct (t =? 2) eqn:E2.
      * apply Z.eqb_eq in E2. subst t. cbn [py_bytes_slice bind].
        rewrite bytes_to_ipv6_cases
          by (try (apply Forall_slice; assumption); rewrite slice_length; lia).
        rewrite Hne by (lia || (apply Hoa; right; reflexivity)). cbn [bind].
        rewrite Hnext. cbn [map]. unfold dns_v4, dns_v6. rewrite <- !app_assoc. reflexivity.
      * rewrite Hnext. unfold dns_v4, dns_v6. reflexivity.
Qed.

Lemma kinds_entries m : forall s vals rest,
  Forall2 value_kind (flat_map (fun _ : nat => ["s"; "n"]) (seq s m) ++ rest) vals ->
  exists es tail,
    vals = dns_entries es ++ tail /\ length es = m /\ Forall2 value_kind rest tail.
Proof.
  induction m as [|m IH]; intros s vals rest H.
  - exists [], vals. repeat split. exact H.
  - cbn [seq flat_map app] in H.
    inversion H as [|c0 v0 r0 w0 K0 T0]; subst. clear H.
    inversion T0 as [|c1 v1 r1 w1 K1 T1]; subst. clear T0.
    destruct K0 as [[Hc _]|[_ [a ->]]]; [discriminate|].
    destruct K1 as [[_ [t ->]]|[Hc _]]; [|discriminate].
    destruct (IH _ _ _ T1) as (es & tail & -> & Hlen & Hrest).
    exists ((a, t) :: es), tail. split; [reflexivity|]. split; [simpl; lia | assumption].
Qed.

Lemma dns_entries_bytes es tail :
  Forall bytes_value (dns_entries es ++ tail) ->
  Forall (fun e => Forall is_byte (fst e)) es.
Proof.
  induction es as [|[a t] es IH]; intros H; [constructor|].
  change (dns_entries ((a, t) :: es)) with ([PyBytes a; PyInt t] ++ dns_entries es) in H.
  rewrite <- app_assoc in H. inversion H as [|? ? Ha H1]; subst.
  inversion H1 as [|? ? _ H2]; subst. constructor; [exact Ha | apply IH; exact H2].
Qed.

Lemma filter_length_le {A} (f : A -> bool) l : (length (List.filter f l) <= length l)%nat.
Proof. induction l as [|x l IH]; simpl; [lia|]. destruct (f x); simpl; lia. Qed.

Lemma dns_answers_length es :
  (length (dns_v4 es) + length (dns_v6 es) <= length es)%nat.
Proof.
  unfold dns_v4, dns_v6. rewrite !length_map.
  induction es as [|[a t] es IH]; cbn [List.filter length fst snd]; [lia|].
  destruct (t =? 1) eqn:E1; destruct (t =? 2) eqn:E2; cbn [length]; lia.
Qed.

(** X18. The negotiated-DNS parser on a buffer of bytes that [unpack]
    accepts under its format: the values are an integer, then 16 pairs of
    an address and a type, then six more.  If every pair of type 1 or 2 has
    a non-empty address, the result lists, in order, the first 4 bytes of
    each type-1 address as IPv4 and the first 16 bytes of each type-2
    address as IPv6, and skips the other pairs; so it holds at most 16
    addresses.  If the first pair that breaks the condition is
    reached, the parser raises ValueError. *)
Theorem negotiated_dns_parser data vals :
  Forall is_byte data -> unpack dns_format data = Ok vals ->
  exists n0 es tail,
    vals = PyInt n0 :: dns_entries es ++ tail /\ length es = 16%nat /\
    (Forall dns_entry_ok es ->
     unpack_UtaMsCallPsGetNegotiatedDnsReq data
     = Ok {| v4 := dns_v4 es; v6 := dns_v6 es |}) /\
    (forall good t later,
       es = good ++ ([], t) :: later -> Forall dns_entry_ok good -> t = 1 \/ t = 2 ->
       unpack_UtaMsCallPsGetNegotiatedDnsReq data = Raise ValueError) /\
    (length (dns_v4 es) + length (dns_v6 es) <= 16)%nat.
Proof.
  intros Hd Hu. unfold unpack_UtaMsCallPsGetNegotiatedDnsReq. rewrite Hu. cbn [bind].
  assert (Hbytes : Forall bytes_value vals)
    by (eapply unpack_loop_bytes; [exact Hu | assumption | constructor]).
  pose proof (unpack_loop_shape _ _ _ _ Hu) as (vs & Hvs & Hk).
  rewrite app_nil_l in Hvs. subst vs.
  change (list_ascii_of_string dns_format)
    with ("n" :: flat_map (fun _ : nat => ["s"; "n"]) (seq 0 16)
              ++ ["n"; "s"; "n"; "n"; "n"; "n"]) in Hk.
  inversion Hk as [|c0 v0 r0 w0 K0 T0]; subst. clear Hk.
  destruct K0 as [[_ [n0 ->]]|[Hc _]]; [|discriminate].
  destruct (kinds_entries 16 0 w0 ["n"; "s"; "n"; "n"; "n"; "n"] T0)
    as (es & tail & -> & Hlen & _).
  exists n0, es, tail. split; [reflexivity|]. split; [assumption|].
  assert (Hb : Forall (fun e => Forall is_byte (fst e)) es).
  { inversion Hbytes; subst. eapply dns_entries_bytes. eassumption. }
  split; [|split].
  - intros Hok.
    pose proof (dns_loop_prefix es 0 [] n0 tail 0 [] [] eq_refl Hb Hok) as Hp.
    rewrite Nat.add_0_r, Hlen in Hp. cbn [app] in Hp. rewrite Hp. reflexivity.
  - intros good t later Hes Hgood Ht. subst es.
    apply Forall_app in Hb. destruct Hb as [Hbg _].
    rewrite length_app in Hlen. cbn [length] in Hlen.
    replace 16%nat with (length good + S (length later))%nat by lia.
    unfold dns_entries. rewrite flat_map_app. fold (dns_entries good).
    cbn [flat_map fst snd]. rewrite <- !app_assoc.
    pose proof (dns_loop_prefix good 0 [] n0
                  ([PyBytes []; PyInt t] ++ flat_map
                     (fun e : bytes * Z => [PyBytes (fst e); PyInt (snd e)]) later ++ tail)
                  (S (length later)) [] [] eq_refl Hbg Hgood) as Hp.
    cbn [app] in Hp |- *. rewrite Hp. cbn [seq dns_loop Nat.add].
    rewrite (slice_entry (length good) (PyInt n0) (dns_entries good))
      by (unfold dns_entries; clear; induction good as [|e g IH]; simpl; [reflexivity|];
          rewrite IH; lia).
    cbn [py_eq_int]. destruct Ht as [-> | ->]; reflexivity.
  - rewrite <- Hlen. apply dns_answers_length.
Qed.

Lemma negotiated_dns_parser_witness :
  exists n0 es tail,
    demo_dns_values = PyInt n0 :: dns_entries es ++ tail /\ length es = 16%nat /\
    (Forall dns_entry_ok es ->
     unpack_UtaMsCallPsGetNegotiatedDnsReq demo_dns
     = Ok {| v4 := dns_v4 es; v6 := dns_v6 es |}) /\
    (forall good t later,
       es = good ++ ([], t) :: later -> Forall dns_entry_ok good -> t = 1 \/ t = 2 ->
       unpack_UtaMsCallPsGetNegotiatedDnsReq demo_dns = Raise ValueError) /\
    (length (dns_v4 es) + length (dns_v6 es) <= 16)%nat.
Proof.
  apply (negotiated_dns_parser demo_dns demo_dns_values).
  - vm_compute. repeat constructor; congruence.
  - vm_compute. reflexivity.
Defined.

(** *** The request builders *)

Lemma forallb_lt_128 l :
  forallb (fun x => x <? 128) l = true <-> Forall (fun x => x < 128) l.
Proof.
  induction l as [|x l IH]; cbn [forallb].
  - split; [constructor | reflexivity].
  - rewrite andb_true_iff, Z.ltb_lt, IH. split.
    + intros [? ?]. constructor; assumption.
    + intros H. inversion H; subst. split; assumption.
Qed.

Lemma encode_ascii_ok s : is_ascii s -> encode_ascii s = Ok (ascii_codes s).
Proof.
  intros H. apply forallb_lt_128 in H. unfold encode_ascii. fold (ascii_codes s).
  cbv zeta. rewrite H. reflexivity.
Qed.

Lemma encode_ascii_error s : ~ is_ascii s -> encode_ascii s = Raise ValueError.
Proof.
  intros H. unfold encode_ascii. fold (ascii_codes s). cbv zeta.
  destruct (forallb (fun x => x <? 128) (ascii_codes s)) eqn:E; [|reflexivity].
  apply forallb_lt_128 in E. contradiction.
Qed.

Lemma length_ascii_codes s : length (ascii_codes s) = String.length s.
Proof.
  unfold ascii_codes. rewrite length_map.
  induction s as [|c s IH]; [reflexivity | simpl; rewrite IH; reflexivity].
Qed.

Lemma ascii_codes_fit s : is_ascii s -> Forall (fits 1) (ascii_codes s).
Proof.
  unfold is_ascii, ascii_codes. induction (list_ascii_of_string s) as [|c l IH];
    cbn [map]; intros H; [constructor|].
  inversion H; subst. constructor; [|apply IH; assumption].
  unfold fits. simpl. lia.
Qed.

Lemma len_field_of_bytes n cap b :
  Forall (fits 1) b -> len b <= cap -> len (field_of 0x55 [n] cap 1 b) = 14 + cap.
Proof.
  intros Hf Hle. pose proof (len_nonneg b) as Hl. unfold field_of.
  rewrite flat_map_le_bytes_1 by assumption.
  rewrite !len_app, !len_be_bytes, len_repeat. rewrite Z2Nat.id by lia.
  change (len [85]) with 1. change (len [n]) with 1. change (len [2; 4]) with 2. lia.
Qed.

(** A bytes value under a lone ['s<cap>']. *)
Lemma pack_bytes_field ds cap b :
  pop_digits ds = (ds, []) -> py_int ds = Ok cap -> cap < 128 ->
  Forall (fits 1) b -> len b <= cap ->
  pack (String "s" (string_of_list_ascii ds)) [PyBytes b]
  = Ok (field_of 0x55 [len b] cap 1 b).
Proof.
  intros Hpop Hint Hcap Hf Hle. pose proof (len_nonneg b) as Hl.
  unfold pack. cbn [list_ascii_of_string]. rewrite list_ascii_of_string_of_list_ascii.
  cbn [length pack_loop].
  change (pack_scalar "s" (PyBytes b)) with (@None (result bytes)).
  change (Ascii.eqb "s" "s") with true. cbv beta iota.
  destruct (_pack_string_ok (PyBytes b) b ds ds [] cap "B" 1 0x55)
    as (vf & Hvf & _ & _ & Hp); try assumption; try reflexivity; try lia.
  rewrite Hp. cbn [bind]. rewrite valid_field_short in Hvf by lia.
  injection Hvf as <-. destruct (length ds); reflexivity.
Qed.

(** A bytes value under ['s<cap>'] at the head of a format. *)
Lemma pack_field_then ds cap b f2 a2 :
  pop_digits ds = (ds, []) -> py_int ds = Ok cap -> cap < 128 ->
  Forall (fits 1) b -> starts_field (list_ascii_of_string f2) = true ->
  pack (String.append (String "s" (string_of_list_ascii ds)) f2) ([PyBytes b] ++ a2)
  = if len b <=? cap
    then let* o2 := pack f2 a2 in Ok (field_of 0x55 [len b] cap 1 b ++ o2)
    else Raise AssertionError.
Proof.
  intros Hpop Hint Hcap Hf Hs. destruct (len b <=? cap) eqn:E.
  - apply Z.leb_le in E. unfold pack at 1 2. rewrite list_ascii_of_string_append.
    apply (pack_loop_app (length (list_ascii_of_string (String "s" (string_of_list_ascii ds)))));
      [lia | | assumption].
    apply pack_bytes_field; assumption.
  - apply Z.leb_gt in E. unfold pack. rewrite list_ascii_of_string_append.
    cbn [list_ascii_of_string]. rewrite list_ascii_of_string_of_list_ascii.
    cbn [length app pack_loop].
    change (pack_scalar "s" (PyBytes b)) with (@None (result bytes)).
    change (Ascii.eqb "s" "s") with true. cbv beta iota.
    rewrite (_pack_string_too_long (PyBytes b) (len b) _ ds (list_ascii_of_string f2) cap "B");
      [reflexivity | | assumption | reflexivity | assumption].
    rewrite (pop_digits_app _ _ Hs), Hpop. reflexivity.
Qed.

Lemma unpack_bytes_field cap b :
  Forall (fits 1) b -> len b <= cap -> cap < 128 ->
  unpack "s" (field_of 0x55 [len b] cap 1 b) = Ok [PyBytes b].
Proof.
  intros Hf Hle Hcap. pose proof (len_nonneg b) as Hl.
  pose proof (unpack_string_field cap b [len b] [] Hf Hle) as H.
  rewrite app_nil_r in H. unfold unpack. change (list_ascii_of_string "s") with ["s"].
  cbn [unpack_loop]. change (Ascii.eqb "s" "n") with false.
  change (Ascii.eqb "s" "s") with true. cbv beta iota.
  rewrite H; [reflexivity | lia | lia | apply valid_field_short; lia].
Qed.

(** X19. The data-channel request (lines 281-283) for a path of 8-bit
    characters: a character above 127 makes the encoding raise ValueError,
    whatever the length; an ASCII path of 24 characters or more does not
    fit the 24-byte field with its final NUL and raises AssertionError; an
    ASCII path of at most 23 characters gives a request of 38 bytes, from
    which [unpack] under ['s'] reads the path and its NUL back. *)
Theorem connect_to_datachannel_request path :
  (~ is_ascii path -> pack_UtaRPCPsConnectToDatachannelReq path = Raise ValueError) /\
  (is_ascii path -> (24 <= String.length path)%nat ->
   pack_UtaRPCPsConnectToDatachannelReq path = Raise AssertionError) /\
  (is_ascii path -> (String.length path <= 23)%nat ->
   exists data,
     pack_UtaRPCPsConnectToDatachannelReq path = Ok data /\ len data = 38 /\
     unpack "s" data = Ok [PyBytes (ascii_codes path ++ [0])]).
Proof.
  unfold pack_UtaRPCPsConnectToDatachannelReq.
  assert (Hfit : is_ascii path -> Forall (fits 1) (ascii_codes path ++ [0])).
  { intros Ha. apply Forall_app. split; [apply ascii_codes_fit; assumption|].
    constructor; [unfold fits; simpl; lia | constructor]. }
  assert (Hlen : len (ascii_codes path ++ [0]) = Z.of_nat (String.length path) + 1).
  { rewrite len_app. unfold len. rewrite length_ascii_codes. simpl. lia. }
  split; [|split].
  - intros Ha. rewrite (encode_ascii_error _ Ha). reflexivity.
  - intros Ha Hl. rewrite (encode_ascii_ok _ Ha). cbn [bind].
    pose proof (pack_field_then ["2"; "4"] 24 (ascii_codes path ++ [0]) "" []
                  eq_refl eq_refl ltac:(lia) (Hfit Ha) eq_refl) as H.
    replace (len (ascii_codes path ++ [0]) <=? 24) with false in H
      by (symmetry; apply Z.leb_gt; lia).
    exact H.
  - intros Ha Hl. rewrite (encode_ascii_ok _ Ha). cbn [bind].
    exists (field_of 0x55 [len (ascii_codes path ++ [0])] 24 1 (ascii_codes path ++ [0])).
    split; [|split].
    + apply (pack_bytes_field ["2"; "4"] 24); try reflexivity; try lia. exact (Hfit Ha).
    + apply len_field_of_bytes; [exact (Hfit Ha) | lia].
    + apply unpack_bytes_field; [exact (Hfit Ha) | lia | lia].
Qed.

Lemma connect_to_datachannel_request_witness :
  exists data,
    pack_UtaRPCPsConnectToDatachannelReq "/sioscc/PCIE/IOSM/IPS/0" = Ok data /\
    len data = 38 /\
    unpack "s" data = Ok [PyBytes (ascii_codes "/sioscc/PCIE/IOSM/IPS/0" ++ [0])].
Proof.
  apply (connect_to_datachannel_request "/sioscc/PCIE/IOSM/IPS/0").
  - unfold is_ascii. vm_compute. repeat constructor.
  - simpl. lia.
Defined.

Lemma pack_then f1 a1 o1 f2 a2 :
  pack f1 a1 = Ok o1 -> starts_field (list_ascii_of_string f2) = true ->
  pack (String.append f1 f2) (a1 ++ a2) = (let* o2 := pack f2 a2 in Ok (o1 ++ o2)).
Proof.
  unfold pack. intros H Hs. rewrite list_ascii_of_string_append.
  apply (pack_loop_app (length (list_ascii_of_string f1))); [lia | assumption..].
Qed.

Lemma apn_types_split :
  apn_types
  = String.append apn_types_1
      (String.append "s104" (String.append apn_types_2 (String.append "s103" "BL"))).
Proof. vm_compute. reflexivity. Qed.

Lemma apn_args_split name :
  apn_args name
  = apn_args_1 ++ [PyBytes name] ++ apn_args_2 ++ [PyBytes name] ++ [PyInt 3; PyInt 0].
Proof. reflexivity. Qed.

Lemma apn_pack_1 : pack apn_types_1 apn_args_1 = Ok apn_bytes_1.
Proof. vm_compute. reflexivity. Qed.

Lemma apn_pack_2 : pack apn_types_2 apn_args_2 = Ok apn_bytes_2.
Proof. vm_compute. reflexivity. Qed.

Lemma len_apn_bytes : len apn_bytes_1 = 3677 /\ len apn_bytes_2 = 1146.
Proof. split; vm_compute; reflexivity. Qed.

(** [pack] on the format and the arguments of the APN request, for any
    name array. *)
Lemma pack_apn name :
  Forall (fits 1) name ->
  pack apn_types (apn_args name)
  = if len name <=? 103
    then Ok (apn_bytes_1 ++ field_of 0x55 [len name] 104 1 name
               ++ apn_bytes_2 ++ field_of 0x55 [len name] 103 1 name
               ++ [2; 1; 3; 2; 4; 0; 0; 0; 0])
    else Raise AssertionError.
Proof.
  intros Hf. rewrite apn_types_split, apn_args_split.
  rewrite (pack_then apn_types_1 apn_args_1 apn_bytes_1
             (String.append "s104" (String.append apn_types_2 (String.append "s103" "BL")))
             ([PyBytes name] ++ apn_args_2 ++ [PyBytes name] ++ [PyInt 3; PyInt 0])
             apn_pack_1 eq_refl).
  pose proof (pack_field_then ["1"; "0"; "4"] 104 name
                (String.append apn_types_2 (String.append "s103" "BL"))
                (apn_args_2 ++ [PyBytes name] ++ [PyInt 3; PyInt 0])
                eq_refl eq_refl ltac:(lia) Hf eq_refl) as H2.
  change (String "s" (string_of_list_ascii ["1"; "0"; "4"])) with "s104"%string in H2.
  rewrite H2. clear H2.
  rewrite (pack_then apn_types_2 apn_args_2 apn_bytes_2 (String.append "s103" "BL")
             ([PyBytes name] ++ [PyInt 3; PyInt 0]) apn_pack_2 eq_refl).
  pose proof (pack_field_then ["1"; "0"; "3"] 103 name "BL" [PyInt 3; PyInt 0]
                eq_refl eq_refl ltac:(lia) Hf eq_refl) as H4.
  change (String "s" (string_of_list_ascii ["1"; "0"; "3"])) with "s103"%string in H4.
  rewrite H4. clear H4.
  change (pack "BL" [PyInt 3; PyInt 0]) with (Ok (A := bytes) [2; 1; 3; 2; 4; 0; 0; 0; 0]).
  destruct (len name <=? 103) eqn:E3.
  - replace (len name <=? 104) with true by (symmetry; apply Z.leb_le; apply Z.leb_le in E3; lia).
    reflexivity.
  - destruct (len name <=? 104); reflexivity.
Qed.

Lemma Forall_skipn_repeat {A} (P : A -> Prop) x n m :
  P x -> Forall P (skipn n (repeat x m)).
Proof.
  intros H. revert n. induction m as [|m IH]; intros [|n]; cbn [repeat skipn];
    try constructor; auto.
  apply (IH 0%nat).
Qed.

Lemma apn_name_fits apn : is_ascii apn -> Forall (fits 1) (apn_name apn).
Proof.
  intros H. unfold apn_name. apply Forall_app. split; [apply ascii_codes_fit; assumption|].
  apply Forall_skipn_repeat. unfold fits. simpl. lia.
Qed.

Lemma len_apn_name apn :
  len (apn_name apn) = Z.max 101 (Z.of_nat (String.length apn)).
Proof.
  unfold apn_name, len. rewrite length_app, length_ascii_codes, length_skipn, repeat_length.
  lia.
Qed.

(** X20. The APN request (lines 237-244) for a name of 8-bit characters.
    A character above 127 makes the encoding raise ValueError.  The name
    array is the name over 101 zero bytes, so it is as long as the longer
    of the two; the array is packed twice, under ['s104'] and under
    ['s103'].  An ASCII name of at most 103 characters gives a request of
    5067 bytes, whatever the name: the two name fields between bytes that
    do not depend on the name.  An ASCII name of 104 characters or more
    raises AssertionError: the array does not fit the 103-byte field. *)
Theorem attach_apn_config_request apn :
  (~ is_ascii apn -> pack_UtaMsCallPsAttachApnConfigReq apn = Raise ValueError) /\
  (is_ascii apn -> (104 <= String.length apn)%nat ->
   pack_UtaMsCallPsAttachApnConfigReq apn = Raise AssertionError) /\
  (is_ascii apn -> (String.length apn <= 103)%nat ->
   let n := Z.max 101 (Z.of_nat (String.length apn)) in
   exists data,
     pack_UtaMsCallPsAttachApnConfigReq apn = Ok data /\ len data = 5067 /\
     len (apn_name apn) = n /\
     data = apn_bytes_1 ++ field_of 0x55 [n] 104 1 (apn_name apn)
              ++ apn_bytes_2 ++ field_of 0x55 [n] 103 1 (apn_name apn)
              ++ [2; 1; 3; 2; 4; 0; 0; 0; 0]).
Proof.
  unfold pack_UtaMsCallPsAttachApnConfigReq. cbv zeta.
  pose proof (len_apn_name apn) as Hn.
  split; [|split].
  - intros Ha. rewrite (encode_ascii_error _ Ha). reflexivity.
  - intros Ha Hl. rewrite (encode_ascii_ok _ Ha). cbn [bind].
    change (ascii_codes apn ++ skipn (String.length apn) (repeat 0 101))
      with (apn_name apn).
    rewrite (pack_apn _ (apn_name_fits _ Ha)).
    replace (len (apn_name apn) <=? 103) with false by (symmetry; apply Z.leb_gt; lia).
    reflexivity.
  - intros Ha Hl. rewrite (encode_ascii_ok _ Ha). cbn [bind].
    change (ascii_codes apn ++ skipn (String.length apn) (repeat 0 101))
      with (apn_name apn).
    rewrite (pack_apn _ (apn_name_fits _ Ha)).
    replace (len (apn_name apn) <=? 103) with true by (symmetry; apply Z.leb_le; lia).
    rewrite Hn. eexists. split; [reflexivity|]. split; [|split; reflexivity].
    pose proof (apn_name_fits _ Ha) as Hf. destruct len_apn_bytes as [H1 H2].
    rewrite !len_app, H1, H2, !len_field_of_bytes by (assumption || lia).
    reflexivity.
Qed.

Lemma attach_apn_config_request_witness :
  exists data,
    pack_UtaMsCallPsAttachApnConfigReq "internet" = Ok data /\ len data = 5067 /\
    len (apn_name "internet") = 101 /\
    data = apn_bytes_1 ++ field_of 0x55 [101] 104 1 (apn_name "internet")
             ++ apn_bytes_2 ++ field_of 0x55 [101] 103 1 (apn_name "internet")
             ++ [2; 1; 3; 2; 4; 0; 0; 0; 0].
Proof.
  apply (attach_apn_config_request "internet").
  - unfold is_ascii. vm_compute. repeat constructor.
  - simpl. lia.
Defined.

End Catalog.

(** ** Errors of the header *)

Section HeaderMore.
Import struct.

Lemma pack_uint_error big n v :
  ~ 0 <= v < 2 ^ (8 * Z.of_nat n) -> pack_uint big n v = Raise StructError.
Proof.
  intros H. unfold pack_uint. destruct (in_range n v) eqn:E; [|reflexivity].
  apply in_range_spec in E. contradiction.
Qed.

(** X21. The four-byte integer of lines 12-13: a value that fits 32 bits
    becomes 6 bytes, and [take_asn_int] reads the value back from them and
    leaves what follows; any other value raises struct.error. *)
Theorem asn_int4_read_back v rest :
  (0 <= v < 2 ^ 32 ->
   exists b, asn_int4 v = Ok b /\ len b = 6 /\ take_asn_int (b ++ rest) = Ok (v, rest)) /\
  (~ 0 <= v < 2 ^ 32 -> asn_int4 v = Raise StructError).
Proof.
  split; intros H.
  - exists ([2; 4] ++ be_bytes 4 v). split; [apply asn_int4_ok; assumption|]. split.
    + rewrite len_app, len_be_bytes. reflexivity.
    + apply (take_asn_int_be_bytes 4); [lia | exact H].
  - unfold asn_int4, pack_be_L. rewrite pack_uint_error by exact H. reflexivity.
Qed.

Lemma asn_int4_read_back_witness :
  exists b, asn_int4 300 = Ok b /\ len b = 6 /\ take_asn_int (b ++ [7]) = Ok (300, [7]).
Proof. apply (asn_int4_read_back 300 [7]). lia. Defined.

(** The header of a frame, or struct.error: the assertion of line 60
    always holds. *)
Lemma build_header_cases cmd tid body :
  0 <= tid < 2 ^ 32 ->
  build_header cmd tid body
  = if in_range 4 (len body + 16 + (if tid =? 0 then 0 else 6)) && in_range 4 cmd
    then Ok (header_of cmd tid body) else Raise StructError.
Proof.
  intros Ht. pose proof (len_nonneg body) as Hl.
  pose proof (lor_u32 _ _ base_u32 Ht) as Hw.
  unfold build_header, header_of, asn_int4, pack_le_L, pack_be_L.
  destruct (tid =? 0) eqn:E; simpl negb; cbv iota.
  - replace (len body + 16 + 0) with (len body + 16) by lia.
    unfold pack_uint at 1 2. destruct (in_range 4 (len body + 16)); [|reflexivity].
    unfold pack_uint at 1. destruct (in_range 4 cmd); [|reflexivity].
    rewrite (pack_uint_ok true 4) by (simpl; lia). cbn [bind andb].
    rewrite !len_app, len_le_bytes, !len_be_bytes. change (len [2; 4]) with 2.
    replace (_ =? _) with true by (symmetry; apply Z.eqb_eq; lia).
    cbn [py_assert bind]. rewrite !app_nil_r. reflexivity.
  - unfold pack_uint at 1 2. destruct (in_range 4 (len body + 16 + 6)); [|reflexivity].
    unfold pack_uint at 1. destruct (in_range 4 cmd); [|reflexivity].
    rewrite !(pack_uint_ok true 4) by (simpl; lia). cbn [bind andb].
    rewrite !len_app, len_le_bytes, !len_be_bytes. change (len [2; 4]) with 2.
    replace (_ =? _) with true by (symmetry; apply Z.eqb_eq; lia).
    cbn [py_assert bind]. rewrite <- !app_assoc. reflexivity.
Qed.

(** X22. [execute] up to its write, from any state the dispatcher can
    reach: with [tracked] telling whether the call has a callback (its own
    or the closure of a blocking asynchronous call), the frame length is
    [len(body) + 16], plus 6 when tracked.  The call goes through when the
    command code and the frame length fit 32 bits, and raises struct.error
    otherwise; the identifier generator is never exhausted and the
    assertion of line 60 never fails. *)
Theorem execute_raises_only_struct_error self cmd request cb is_async ret :
  reachable self ->
  let tracked := match cb with Some _ => true | None => is_async end in
  let total := len request + 16 + (if tracked then 6 else 0) in
  (0 <= cmd < 2 ^ 32 /\ total < 2 ^ 32 ->
   exists self' c, execute_send self cmd request cb is_async ret = Ok (self', c)) /\
  (~ (0 <= cmd < 2 ^ 32 /\ total < 2 ^ 32) ->
   execute_send self cmd request cb is_async ret = Raise StructError).
Proof.
  intros Hr tracked total. pose proof (len_nonneg request) as Hl.
  destruct (reachable_inv _ Hr) as [_ Hg].
  destruct (gen_ok_next _ Hg) as (id & g' & Hnext & Hid & _).
  assert (Hcase : forall tid,
             0 <= tid < 2 ^ 32 -> (tid =? 0) = negb tracked ->
             (0 <= cmd < 2 ^ 32 /\ total < 2 ^ 32 ->
              build_header cmd tid request = Ok (header_of cmd tid request)) /\
             (~ (0 <= cmd < 2 ^ 32 /\ total < 2 ^ 32) ->
              build_header cmd tid request = Raise StructError)).
  { intros tid Ht Hz. rewrite build_header_cases by assumption.
    assert (Htotal : len request + 16 + (if tid =? 0 then 0 else 6) = total)
      by (subst total; rewrite Hz; destruct tracked; reflexivity).
    rewrite Htotal.
    assert (H0 : 0 <= total) by (rewrite <- Htotal; destruct (tid =? 0); lia).
    destruct (in_range 4 total && in_range 4 cmd) eqn:E.
    - split; [reflexivity|]. intros Hn. exfalso. apply Hn.
      apply andb_true_iff in E as [E1 E2]. apply in_range_spec in E1, E2.
      simpl in E1, E2. lia.
    - split; [|reflexivity]. intros [Hc Htot]. exfalso.
      assert (E' : in_range 4 total && in_range 4 cmd = true); [|congruence].
      apply andb_true_iff. split; apply in_range_spec; simpl; lia. }
  assert (Hw : 0 <= Z.lor BASE id < 2 ^ 32) by (rewrite lor_base by lia; unfold BASE; lia).
  assert (Hnz : (Z.lor BASE id =? 0) = false)
    by (apply Z.eqb_neq; rewrite lor_base by lia; unfold BASE; lia).
  clearbody total. unfold execute_send.
  destruct cb as [f|]; [|destruct is_async]; cbn [bind]; rewrite ?Hnext; cbn [bind].
  - destruct (Hcase _ Hw Hnz) as [Hok Herr].
    split; intros H; [rewrite (Hok H) | rewrite (Herr H)]; cbn [bind]; eauto.
  - destruct (Hcase _ Hw Hnz) as [Hok Herr].
    split; intros H; [rewrite (Hok H) | rewrite (Herr H)]; cbn [bind]; eauto.
  - destruct (Hcase 0 ltac:(lia) eq_refl) as [Hok Herr].
    split; intros H; [rewrite (Hok H) | rewrite (Herr H)]; cbn [bind]; eauto.
Qed.

Lemma execute_raises_only_struct_error_witness :
  exists self' c, execute_send demo_state 0x42 [1; 2] None true 28 = Ok (self', c).
Proof.
  apply (execute_raises_only_struct_error demo_state 0x42 [1; 2] None true 28).
  - exact demo_state_reachable.
  - vm_compute. repeat split; congruence.
Defined.

(** X8. A call with a callback whose command code or frame length does
    not fit 32 bits: [execute] raises struct.error at lines 56-58, after it
    has drawn the next identifier (line 44) and registered the callback
    under it (line 51).  The entry stays in the table and the identifier is
    used up; nothing is written, the response event is not cleared and the
    acknowledged set is unchanged.  So the table can hold calls for which
    no frame was ever written. *)
Theorem raising_call_stays_registered self cmd request cb is_async ret :
  reachable self ->
  ~ (0 <= cmd < 2 ^ 32 /\ len request + 22 < 2 ^ 32) ->
  exists k self',
    (k <= 255)%nat /\ tid_gen self = gen_at k /\
    execute_send self cmd request (Some cb) is_async ret = Raise StructError /\
    execute_raise self cmd request (Some cb) is_async = Some (StructError, self') /\
    callbacks self' = <[Z.lor BASE (next_id k) := cb]> (callbacks self) /\
    tid_gen self' = gen_at (if (k <? 255)%nat then S k else 1) /\
    written self' = written self /\
    response_event self' = response_event self /\
    call_acknowledged self' = call_acknowledged self /\
    reachable self'.
Proof.
  intros Hr Hn. pose proof (len_nonneg request) as Hl.
  destruct (reachable_inv _ Hr) as [_ (k & Hk & Hg)].
  pose proof (next_id_range k) as Hid.
  assert (Hnext : next (tid_gen self)
                  = Ok (next_id k, gen_at (if (k <? 255)%nat then S k else 1)))
    by (rewrite Hg; apply next_gen_at; assumption).
  assert (Hw : 0 <= Z.lor BASE (next_id k) < 2 ^ 32)
    by (rewrite lor_base by lia; unfold BASE; lia).
  assert (Hnz : (Z.lor BASE (next_id k) =? 0) = false)
    by (apply Z.eqb_neq; rewrite lor_base by lia; unfold BASE; lia).
  assert (Hb : build_header cmd (Z.lor BASE (next_id k)) request = Raise StructError).
  { rewrite build_header_cases by assumption. rewrite Hnz.
    destruct (in_range 4 (len request + 16 + 6) && in_range 4 cmd) eqn:E; [|reflexivity].
    apply andb_true_iff in E as [E1 E2]. apply in_range_spec in E1, E2.
    simpl in E1, E2. exfalso. apply Hn. lia. }
  assert (Hx : execute_raise self cmd request (Some cb) is_async
               = Some (StructError,
                       {| callbacks := <[Z.lor BASE (next_id k) := cb]> (callbacks self);
                          call_acknowledged := call_acknowledged self;
                          response_event := response_event self;
                          response := response self;
                          tid_gen := gen_at (if (k <? 255)%nat then S k else 1);
                          written := written self;
                          threads := threads self;
                          stdout := stdout self;
                          waiters := waiters self;
                          waiters_set := waiters_set self |})).
  { unfold execute_raise. rewrite Hnext. cbn [bind]. rewrite Hb, Hnz. cbn [negb].
    rewrite Z.lor_assoc, Z.lor_diag. reflexivity. }
  exists k. eexists. split; [assumption|]. split; [assumption|].
  split.
  { unfold execute_send. rewrite Hnext. cbn [bind]. rewrite Hb. reflexivity. }
  split; [exact Hx|]. cbn [callbacks tid_gen written response_event call_acknowledged].
  repeat (split; [reflexivity|]).
  eapply rtc_r; [exact Hr|]. eapply step_execute_raise. exact Hx.
Qed.

Lemma raising_call_stays_registered_witness :
  exists k self',
    (k <= 255)%nat /\ tid_gen init = gen_at k /\
    execute_send init (2 ^ 32) [] (Some (UserCallback 0)) false 0 = Raise StructError /\
    execute_raise init (2 ^ 32) [] (Some (UserCallback 0)) false = Some (StructError, self') /\
    callbacks self' = <[Z.lor BASE (next_id k) := UserCallback 0]> (callbacks init) /\
    tid_gen self' = gen_at (if (k <? 255)%nat then S k else 1) /\
    written self' = written init /\
    response_event self' = response_event init /\
    call_acknowledged self' = call_acknowledged init /\
    reachable self'.
Proof.
  apply (raising_call_stays_registered init (2 ^ 32) [] (UserCallback 0) false 0).
  - apply rtc_refl.
  - lia.
Defined.

End HeaderMore.
